(** * DNAmespace: the GenBank parser [parsegb.py]

    A shallow embedding of [src/parsegb.py] (classes [GBFeature],
    [GBReference] and [GenbankFile]) and the properties of its feature
    parsing and sequence materialisation.

    Conventions of the embedding.
    - A Python [str] is a [list ascii]; a character is a code point below
      256.  The embedding is exact on ASCII text; [upper] leaves code
      points above 127 unchanged.
    - A Python [int] is a [Z].
    - A raised exception is the [Raise] case of [result]; only the class of
      the exception is kept, not its message.
    - [print] appends a [message] to an explicit output log.
    - A Python [dict] is an association list in insertion order.
    - An attribute that may be unassigned is an [option]. *)

From Stdlib Require Import Ascii String List ZArith Lia Bool Arith.
Import ListNotations.

Open Scope string_scope.
Open Scope list_scope.
Open Scope Z_scope.

(** ** Python strings *)

Definition str := list ascii.

Coercion list_ascii_of_string : string >-> list.

Definition strs (l : list string) : list str := map list_ascii_of_string l.

Definition dquote : ascii := ascii_of_nat 34.

Inductive exn : Type :=
| ValueError
| IndexError
| KeyError
| TypeError
| AttributeError
| NotImplementedError
| MixedAlphabetError
| InvalidNucleotide.

Inductive result (A : Type) : Type :=
| Ok (a : A)
| Raise (e : exn).

Arguments Ok {A} a.
Arguments Raise {A} e.

Definition rbind {A B} (r : result A) (k : A -> result B) : result B :=
  match r with
  | Ok a => k a
  | Raise e => Raise e
  end.

Notation "x <- e ;; k" := (rbind e (fun x => k))
  (at level 61, e at next level, right associativity).

Fixpoint rmap {A B} (f : A -> result B) (l : list A) : result (list B) :=
  match l with
  | [] => Ok []
  | a :: l' => b <- f a ;; bs <- rmap f l' ;; Ok (b :: bs)
  end.

Fixpoint rfold {A B} (f : B -> A -> result B) (l : list A) (b : B) : result B :=
  match l with
  | [] => Ok b
  | a :: l' => b' <- f b a ;; rfold f l' b'
  end.

Definition str_eqb (a b : str) : bool :=
  if list_eq_dec ascii_dec a b then true else false.

Definition mem (c : ascii) (cs : str) : bool :=
  existsb (Ascii.eqb c) cs.

Definition code (c : ascii) : nat := nat_of_ascii c.

(** [str.isspace] on one character: the white space of Unicode below 256. *)
Definition is_space (c : ascii) : bool :=
  let n := code c in
  ((9 <=? n) && (n <=? 13) || (28 <=? n) && (n <=? 32)
   || (n =? 133) || (n =? 160))%nat.

Definition is_digit (c : ascii) : bool :=
  let n := code c in ((48 <=? n) && (n <=? 57))%nat.

(** [str.isnumeric] on one character: the digits, the superscripts 1, 2, 3
    and the three vulgar fractions of Latin-1. *)
Definition is_numeric_char (c : ascii) : bool :=
  let n := code c in
  (is_digit c || (n =? 178) || (n =? 179) || (n =? 185)
   || (n =? 188) || (n =? 189) || (n =? 190))%nat.

Fixpoint dropwhile (p : ascii -> bool) (s : str) : str :=
  match s with
  | [] => []
  | c :: s' => if p c then dropwhile p s' else s
  end.

Fixpoint takewhile (p : ascii -> bool) (s : str) : str :=
  match s with
  | [] => []
  | c :: s' => if p c then c :: takewhile p s' else []
  end.

Definition lstrip_by (p : ascii -> bool) (s : str) : str := dropwhile p s.
Definition rstrip_by (p : ascii -> bool) (s : str) : str :=
  rev (dropwhile p (rev s)).
Definition strip_by (p : ascii -> bool) (s : str) : str :=
  rstrip_by p (lstrip_by p s).

(** [s.strip()], [s.lstrip()] *)
Definition strip (s : str) : str := strip_by is_space s.
Definition lstrip (s : str) : str := lstrip_by is_space s.

(** [s.strip(chars)], [s.lstrip(chars)] *)
Definition strip_chars (cs : str) (s : str) : str :=
  strip_by (fun c => mem c cs) s.
Definition lstrip_chars (cs : str) (s : str) : str :=
  lstrip_by (fun c => mem c cs) s.

Fixpoint prefix (p s : str) : bool :=
  match p, s with
  | [], _ => true
  | a :: p', b :: s' => Ascii.eqb a b && prefix p' s'
  | _ :: _, [] => false
  end.

(** [sub in s] for a non-empty [sub]. *)
Fixpoint contains (sub s : str) : bool :=
  match s with
  | [] => match sub with [] => true | _ => false end
  | _ :: s' => prefix sub s || contains sub s'
  end.

(** [s.split(sep)] for a non-empty [sep]: [skip] counts the characters of a
    separator that was just recognised and that are still to be passed
    over; [cur] is the current piece, reversed. *)
Fixpoint split_go (sep : str) (skip : nat) (cur : str) (s : str) : list str :=
  match s with
  | [] => [rev cur]
  | c :: s' =>
      match skip with
      | S k => split_go sep k cur s'
      | O =>
          if prefix sep s
          then rev cur :: split_go sep (Nat.pred (length sep)) [] s'
          else split_go sep 0 (c :: cur) s'
      end
  end.

Definition split (sep : str) (s : str) : list str := split_go sep 0 [] s.

(** [s.split()]: pieces between runs of white space, no empty piece. *)
Fixpoint split_ws_go (cur : str) (s : str) : list str :=
  match s with
  | [] => match cur with [] => [] | _ => [rev cur] end
  | c :: s' =>
      if is_space c
      then match cur with
           | [] => split_ws_go [] s'
           | _ => rev cur :: split_ws_go [] s'
           end
      else split_ws_go (c :: cur) s'
  end.

Definition split_ws (s : str) : list str := split_ws_go [] s.

(** [s.replace(old, new)] for a non-empty [old]. *)
Fixpoint replace_go (old new : str) (skip : nat) (s : str) : str :=
  match s with
  | [] => []
  | c :: s' =>
      match skip with
      | S k => replace_go old new k s'
      | O =>
          if prefix old s
          then new ++ replace_go old new (Nat.pred (length old)) s'
          else c :: replace_go old new 0 s'
      end
  end.

Definition replace (old new : str) (s : str) : str := replace_go old new 0 s.

(** [sep.join(l)] *)
Fixpoint join (sep : str) (l : list str) : str :=
  match l with
  | [] => []
  | [x] => x
  | x :: l' => x ++ sep ++ join sep l'
  end.

(** [s.upper()] on ASCII text: the letters [a] to [z] are mapped and every
    other character is left as it is.  From code 128 on [str.upper] does
    more (it maps 224 to 192 and 223 to two characters), so what is said
    of the parser chosen for the first word of a block is said for ASCII
    words. *)
Definition upper_char (c : ascii) : ascii :=
  let n := code c in
  if ((97 <=? n) && (n <=? 122))%nat then ascii_of_nat (n - 32) else c.
Definition upper (s : str) : str := map upper_char s.

(** [s.isnumeric()] *)
Definition isnumeric (s : str) : bool :=
  match s with
  | [] => false
  | _ => forallb is_numeric_char s
  end.

(** [s.splitlines()]: the line boundaries of Python below code point 256. *)
Definition is_linebreak (c : ascii) : bool :=
  let n := code c in
  ((10 <=? n) && (n <=? 13) || (28 <=? n) && (n <=? 30) || (n =? 133))%nat.

Fixpoint splitlines_go (after_cr : bool) (cur : str) (s : str) : list str :=
  match s with
  | [] => match cur with [] => [] | _ => [rev cur] end
  | c :: s' =>
      if (after_cr && (code c =? 10))%nat then splitlines_go false cur s'
      else if is_linebreak c
           then rev cur :: splitlines_go (code c =? 13)%nat [] s'
           else splitlines_go false (c :: cur) s'
  end.

Definition splitlines (s : str) : list str := splitlines_go false [] s.

(** [int(s)] in base 10: surrounding white space, one optional sign, then
    digits, single underscores allowed between digits. *)
Definition digit_val (c : ascii) : Z := Z.of_nat (code c) - 48.

Fixpoint int_digits (acc : Z) (after_digit : bool) (s : str) : option Z :=
  match s with
  | [] => if after_digit then Some acc else None
  | c :: s' =>
      if is_digit c then int_digits (10 * acc + digit_val c) true s'
      else if Ascii.eqb c "_" && after_digit then int_digits acc false s'
      else None
  end.

Definition py_int (s : str) : result Z :=
  let t := strip s in
  let parsed :=
    match t with
    | c :: r =>
        if Ascii.eqb c "+" then int_digits 0 false r
        else if Ascii.eqb c "-" then option_map Z.opp (int_digits 0 false r)
        else int_digits 0 false t
    | [] => None
    end in
  match parsed with
  | Some z => Ok z
  | None => Raise ValueError
  end.

(** ** Python sequences: slices and indexing *)

Definition clamp_index (n i : Z) : Z :=
  if i <? 0 then Z.max (i + n) 0 else Z.min i n.

(** [l[a:b]] *)
Definition py_slice {A} (l : list A) (a b : Z) : list A :=
  let n := Z.of_nat (length l) in
  let a' := clamp_index n a in
  let b' := clamp_index n b in
  firstn (Z.to_nat (b' - a')) (skipn (Z.to_nat a') l).

(** [l[i]] *)
Definition py_getitem {A} (l : list A) (i : Z) : result A :=
  let n := Z.of_nat (length l) in
  let j := if i <? 0 then i + n else i in
  if (j <? 0) || (n <=? j) then Raise IndexError
  else match nth_error l (Z.to_nat j) with
       | Some a => Ok a
       | None => Raise IndexError
       end.

(** [l.index(x)] on a list of strings *)
Fixpoint index_of (x : str) (l : list str) : option nat :=
  match l with
  | [] => None
  | y :: l' => if str_eqb x y then Some O
               else option_map S (index_of x l')
  end.

(** [l[i] = x] for an index within the list *)
Fixpoint set_nth {A} (i : nat) (x : A) (l : list A) : list A :=
  match l, i with
  | [], _ => []
  | _ :: l', O => x :: l'
  | y :: l', S k => y :: set_nth k x l'
  end.

(** [d[k] = v] on a dictionary kept in insertion order *)
Fixpoint dict_set {V} (k : str) (v : V) (d : list (str * V)) : list (str * V) :=
  match d with
  | [] => [(k, v)]
  | (k', v') :: d' =>
      if str_eqb k k' then (k, v) :: d' else (k', v') :: dict_set k v d'
  end.

(** [d[k]] *)
Fixpoint dict_get {V} (k : str) (d : list (str * V)) : result V :=
  match d with
  | [] => Raise KeyError
  | (k', v) :: d' => if str_eqb k k' then Ok v else dict_get k d'
  end.

(** ** The module [nucutils]

    [parsegb.py] imports [nucutils], which is not among the sources.  Its
    three names used by the parser are modelled from section 4.1 of the
    specification. *)

(** Modelled from the spec: [nucutils.iupac_characters], the accepted
    alphabet: the extended IUPAC nucleotide codes and their lowercase
    forms. *)
Definition iupac_characters : str :=
  "ACGTURYSWKMBDHVNacgturyswkmbdhvn".

(** Modelled from the spec: [complement_base], the table A/T, C/G, G/C,
    T/A, U/A, R/Y, S/S, W/W, K/M, M/K, B/V, D/H, H/D, V/B, N/N with the
    lowercase forms, failing with [InvalidNucleotide] outside the table. *)
Definition complement_table : list (ascii * ascii) :=
  combine (list_ascii_of_string "ACGTURYSWKMBDHVNacgturyswkmbdhvn")
          (list_ascii_of_string "TGCAAYRSWMKVHDBNtgcaayrswmkvhdbn").

Fixpoint complement_base_in (t : list (ascii * ascii)) (c : ascii)
  : result ascii :=
  match t with
  | [] => Raise InvalidNucleotide
  | (a, b) :: t' => if Ascii.eqb c a then Ok b else complement_base_in t' c
  end.

Definition complement_base (c : ascii) : result ascii :=
  complement_base_in complement_table c.

(** Modelled from the spec: [nucutils.get_complement], the reverse
    complement of section 4.1; a sequence mixing the RNA base U and the DNA
    base T is rejected with [MixedAlphabetError]. *)
Definition get_complement (s : str) : result str :=
  if (mem "U" s || mem "u" s) && (mem "T" s || mem "t" s)
  then Raise MixedAlphabetError
  else cs <- rmap complement_base s ;; Ok (rev cs).

(** Modelled from the spec: [nucutils.deduce_alphabet], the set of the
    distinct characters of a sequence. *)
Definition deduce_alphabet (s : str) : list ascii :=
  nodup ascii_dec s.

(** ** Output

    What the parser prints, one constructor per [print] call of the
    source. *)

Inductive message : Type :=
| MetaSkipped (meta_block : str)
| NoParserFound (firstword : str)
| ReferenceFailed (reference_strings : list str)
| UnprocessedAfterRange (extra : list str)
| OpenFailed (file_name : str).

(** ** The records *)

Record GBFeature : Type := mkGBFeature {
  type : str;
  spanline : str;
  fuzzyboundary : option bool;   (* assigned by [set_span] on a marker only *)
  meta : list (str * str);
  _sequence : str
}.

Record GBReference : Type := mkGBReference {
  refno : option Z;
  range : option (Z * Z);
  seqrange : option (list Z);
  authors : str;
  consortium : str;
  title : str;
  journal : str;
  pubmed : str;
  remark : str
}.

Record GBMetadata : Type := mkGBMetadata {
  Keywords : list str;
  DBLink : list (str * str);
  Version : str;
  Comment : str
}.

(** [GenbankFile] is a [dict]; its keys are the fields.  The key
    [cache_sequences] is assigned last by [__init__].  Attribute access
    ([parent.sequence], [parent.cache_sequences]) goes through
    [__getattr__] to these keys. *)
Record GenbankFile : Type := mkGenbankFile {
  Sequence : str;
  References : list GBReference;
  Accession : list str;
  Definition_ : str;
  Locus : str;
  Source : str;
  Metadata : GBMetadata;
  Features : list GBFeature;
  cache_sequences : option bool
}.

(** ** [GBFeature]: construction *)

Definition set_span (self : GBFeature) (spanline0 : str) : GBFeature :=
  let spanline1 := replace " " "" (strip spanline0) in
  if contains "<" spanline1 || contains ">" spanline1
  then mkGBFeature (type self) (replace ">" "" (replace "<" "" spanline1))
                   (Some true) (meta self) (_sequence self)
  else mkGBFeature (type self) spanline1
                   (fuzzyboundary self) (meta self) (_sequence self).

(** The characters of [r'/\"()'], which are those of [r'"\/()']. *)
Definition meta_strip_chars : str :=
  ["/"; "\"; dquote; "("; ")"]%char.

(** The body of the [try] of [store_meta]. *)
Definition store_meta_try (self : GBFeature) (meta_block : str)
  : result GBFeature :=
  let meta_tag_bits := split "=" meta_block in
  bit0 <- py_getitem meta_tag_bits 0 ;;
  let meta_name := strip_chars meta_strip_chars (strip bit0) in
  let meta_tag_bits :=
    map (fun x => strip_chars meta_strip_chars (strip x)) meta_tag_bits in
  let meta_content := join "=" (skipn 1 meta_tag_bits) in
  let meta_content :=
    if str_eqb meta_name "translation"
    then join "" (split_ws meta_content)
    else meta_content in
  Ok (mkGBFeature (type self) (spanline self) (fuzzyboundary self)
                  (dict_set meta_name meta_content (meta self))
                  (_sequence self)).

(** [store_meta]: the bare [except] prints and goes on. *)
Definition store_meta (self : GBFeature) (meta_block : str)
  : GBFeature * list message :=
  match store_meta_try self meta_block with
  | Ok self' => (self', [])
  | Raise _ => (self, [MetaSkipped meta_block])
  end.

(** The body of the first loop of [__init__], after [lineindex] is found. *)
Definition mark_meta (line0 : str) : result str :=
  let line := strip line0 in
  c <- py_getitem line 0 ;;
  if Ascii.eqb c "/"
  then Ok ("/-meta-/" ++ lstrip_chars "/" line)
  else Ok line.

(** The first loop of [__init__]: it runs over a copy of the list and
    writes each result at the first index holding an equal line. *)
Fixpoint mark_lines (copy : list str) (list_of_lines : list str)
  : result (list str) :=
  match copy with
  | [] => Ok list_of_lines
  | line :: copy' =>
      match index_of line list_of_lines with
      | None => Raise ValueError
      | Some lineindex =>
          line' <- mark_meta line ;;
          mark_lines copy' (set_nth lineindex line' list_of_lines)
      end
  end.

(** [__init__] up to the split at the delimiter: the feature type and the
    pieces [span_line :: metavals]. *)
Definition feature_pieces (list_of_lines : list str)
  : result (str * list str) :=
  line0 <- py_getitem list_of_lines 0 ;;
  let firstline_bits := split_ws (strip line0) in
  ftype <- py_getitem firstline_bits 0 ;;
  let list_of_lines :=
    set_nth 0 (join " " (skipn 1 firstline_bits)) list_of_lines in
  list_of_lines <- mark_lines list_of_lines list_of_lines ;;
  Ok (ftype, split "/-meta-/" (join " " list_of_lines)).

(** The last loop of [__init__]. *)
Fixpoint store_metas (self : GBFeature) (metavals : list str)
  : GBFeature * list message :=
  match metavals with
  | [] => (self, [])
  | metaval :: rest =>
      let (self1, out1) := store_meta self metaval in
      let (self2, out2) := store_metas self1 rest in
      (self2, out1 ++ out2)
  end.

(** [GBFeature.__init__]: the new feature and what was printed. *)
Definition GBFeature_init (list_of_lines : list str)
  : result (GBFeature * list message) :=
  p <- feature_pieces list_of_lines ;;
  let (ftype, pieces) := p in
  span_line <- py_getitem pieces 0 ;;
  let self := mkGBFeature ftype [] None [] [] in
  let self := set_span self span_line in
  Ok (store_metas self (skipn 1 pieces)).

(** Reading [feature.fuzzyboundary]: no class attribute and no
    [__getattr__] stand behind an unassigned instance attribute. *)
Definition get_fuzzyboundary (self : GBFeature) : result bool :=
  match fuzzyboundary self with
  | Some b => Ok b
  | None => Raise AttributeError
  end.

(** [feature.gene] *)
Definition gene (self : GBFeature) : str :=
  match dict_get "gene" (meta self) with
  | Ok g => g
  | Raise _ => "None"
  end.

(** ** [GBFeature]: the two regular expressions

    [gb_func_finder] is [(join|complement|order)(\([0-9<>.,]+\))] and
    [gb_func_finder_2] is [(join|complement|order)(\([GATCU]{1,}\))]: a
    keyword, an opening parenthesis, a longest non-empty run of characters
    of a class, a closing parenthesis.  The closing parenthesis is in
    neither class, so only the longest run can be followed by it. *)

Definition range_class (c : ascii) : bool := is_digit c || mem c "<>.,".
Definition base_class (c : ascii) : bool := mem c "GATCU".

Definition gb_keywords : list str := strs ["join"; "complement"; "order"].

(** One keyword tried at the start of [s]. *)
Definition match_call (cls : ascii -> bool) (kw : str) (s : str)
  : option (str * str) :=
  if prefix kw s
  then match skipn (length kw) s with
       | c :: r =>
           if Ascii.eqb c "("
           then match takewhile cls r, dropwhile cls r with
                | b :: body, d :: _ =>
                    if Ascii.eqb d ")"
                    then Some (kw, "(" ++ (b :: body) ++ ")")
                    else None
                | _, _ => None
                end
           else None
       | [] => None
       end
  else None.

(** The alternatives, in the order of the pattern. *)
Fixpoint match_at (cls : ascii -> bool) (kws : list str) (s : str)
  : option (str * str) :=
  match kws with
  | [] => None
  | kw :: kws' =>
      match match_call cls kw s with
      | Some m => Some m
      | None => match_at cls kws' s
      end
  end.

(** [pattern.findall(s)]: the matches from left to right, none
    overlapping. *)
Fixpoint findall_go (cls : ascii -> bool) (skip : nat) (s : str)
  : list (str * str) :=
  match s with
  | [] => []
  | _ :: s' =>
      match skip with
      | S k => findall_go cls k s'
      | O =>
          match match_at cls gb_keywords s with
          | Some (kw, arg) =>
              (kw, arg) ::
              findall_go cls (Nat.pred (length kw + length arg)) s'
          | None => findall_go cls 0 s'
          end
      end
  end.

Definition gb_func_finder (s : str) : list (str * str) :=
  findall_go range_class 0 s.
Definition gb_func_finder_2 (s : str) : list (str * str) :=
  findall_go base_class 0 s.

(** ** [GBFeature]: resolving a location *)

(** One sub-expression [x..y] of [_nativise]. *)
Definition nativise_one (subexpression : str) : result (Z * Z) :=
  ints <- rmap py_int (split ".." subexpression) ;;
  a <- py_getitem ints 0 ;;
  b <- py_getitem ints 1 ;;
  Ok (a - 1, b).

Definition _nativise (gb_range_expression : str) : result (list (Z * Z)) :=
  let gb_range_expression := strip_chars "()" (strip gb_range_expression) in
  rmap nativise_one (split "," gb_range_expression).

Definition _join (joinrange : str) : result str :=
  Ok (join "" (split "," (strip_chars "()" (strip joinrange)))).

Definition _gb_join (parent : GenbankFile) (joinrange : str) : result str :=
  joinrange <- _nativise joinrange ;;
  Ok (concat (map (fun subrange : Z * Z =>
                     py_slice (Sequence parent) (fst subrange) (snd subrange))
                  joinrange)).

Definition _complement (c_string : str) : result str :=
  get_complement (strip_chars "()" (strip c_string)).

Definition _order (o_string : str) : result str :=
  Raise NotImplementedError.

(** The slice of [_gb_complement] raises nothing, so its [except
    IndexError] is never entered. *)
Definition _gb_complement (parent : GenbankFile) (c_range : str)
  : result str :=
  ranges <- _nativise c_range ;;
  c_range <- py_getitem ranges 0 ;;
  get_complement (py_slice (Sequence parent) (fst c_range) (snd c_range)).

Definition _gb_order (parent : GenbankFile) (orderrange : str)
  : result str :=
  orderrange <- _nativise orderrange ;;
  first <- py_getitem orderrange 0 ;;
  last <- py_getitem orderrange (Z.of_nat (length orderrange) - 1) ;;
  let startbase := fst first in
  let finishbase := snd last in
  if finishbase <? startbase
  then Raise NotImplementedError
  else Ok (py_slice (Sequence parent) startbase finishbase).

(** [self.gb_funcs[name]] and [self.hybrid_funcs[name]] *)
Definition gb_funcs (parent : GenbankFile) (name : str)
  : result (str -> result str) :=
  if str_eqb name "join" then Ok (_gb_join parent)
  else if str_eqb name "complement" then Ok (_gb_complement parent)
  else if str_eqb name "order" then Ok (_gb_order parent)
  else Raise KeyError.

Definition hybrid_funcs (name : str) : result (str -> result str) :=
  if str_eqb name "join" then Ok _join
  else if str_eqb name "complement" then Ok _complement
  else if str_eqb name "order" then Ok _order
  else Raise KeyError.

(** One turn of either loop over the matches of [sequence]. *)
Definition resolve_call (funcs : str -> result (str -> result str))
  (returnseq : str) (func_call : str * str) : result str :=
  func_resolve_method <- funcs (fst func_call) ;;
  replace_content <- func_resolve_method (snd func_call) ;;
  let content_to_replace := fst func_call ++ snd func_call in
  Ok (replace content_to_replace replace_content returnseq).

(** [l.pop(i)] for an index within the list, the popped item dropped. *)
Fixpoint pop_at {A} (i : nat) (l : list A) : list A :=
  match l, i with
  | [], _ => []
  | _ :: l', O => l'
  | y :: l', S k => y :: pop_at k l'
  end.

(** The loop of [sequence] that pops the empty strings: it runs over a
    copy and pops, each time, the first item equal to the empty one. *)
Fixpoint pop_empty (copy : list str) (seq_indices : list str)
  : result (list str) :=
  match copy with
  | [] => Ok seq_indices
  | x :: copy' =>
      match x with
      | [] =>
          match index_of x seq_indices with
          | Some i => pop_empty copy' (pop_at i seq_indices)
          | None => Raise ValueError
          end
      | _ :: _ => pop_empty copy' seq_indices
      end
  end.

(** The [else] branch of [sequence]: a location without operator.  The
    indices are integers, so its [except TypeError] is never entered. *)
Definition resolve_plain (parent : GenbankFile) (returnseq : str)
  : result str :=
  let seq_indices := split "." returnseq in
  seq_indices <- pop_empty seq_indices seq_indices ;;
  seq_indices <- rmap py_int seq_indices ;;
  i0 <- py_getitem seq_indices 0 ;;
  let seq_indices := set_nth 0 (i0 - 1) seq_indices in
  match seq_indices with
  | [] => Ok returnseq
  | _ :: _ =>
      a <- py_getitem seq_indices 0 ;;
      b <- py_getitem seq_indices 1 ;;
      Ok (py_slice (Sequence parent) a b)
  end.

(** The check of [sequence] for characters outside the alphabet. *)
Definition check_iupac (returnseq : str) : result unit :=
  if forallb (fun char => mem char iupac_characters)
             (deduce_alphabet returnseq)
  then Ok tt
  else Raise ValueError.

(** [sequence] after the tests of the cache and of a single position. *)
Definition materialise (parent : GenbankFile) (self : GBFeature)
  : result str :=
  let returnseq := spanline self in
  if contains ":" returnseq then Raise NotImplementedError
  else
    let returnseq :=
      replace "^" ".." (replace ">" "" (replace "<" "" returnseq)) in
    let first_order_funcs := gb_func_finder (spanline self) in
    returnseq <-
      match first_order_funcs with
      | _ :: _ =>
          returnseq <-
            rfold (resolve_call (gb_funcs parent))
                  first_order_funcs returnseq ;;
          let second_order_funcs := gb_func_finder_2 returnseq in
          rfold (resolve_call hybrid_funcs) second_order_funcs returnseq
      | [] => resolve_plain parent returnseq
      end ;;
    _ <- check_iupac returnseq ;;
    Ok returnseq.

(** The property [sequence]: the value returned or the exception raised,
    and the feature afterwards. *)
Definition sequence (parent : GenbankFile) (self : GBFeature)
  : result str * GBFeature :=
  match _sequence self with
  | _ :: _ => (Ok (_sequence self), self)
  | [] =>
      if isnumeric (spanline self)
      then (i <- py_int (spanline self) ;;
            c <- py_getitem (Sequence parent) (i - 1) ;;
            Ok [c], self)
      else
        match materialise parent self with
        | Raise e => (Raise e, self)
        | Ok returnseq =>
            match cache_sequences parent with
            | None => (Raise AttributeError, self)
            | Some true =>
                (Ok returnseq,
                 mkGBFeature (type self) (spanline self) (fuzzyboundary self)
                             (meta self) returnseq)
            | Some false => (Ok returnseq, self)
            end
        end
  end.

(** ** Code that prints

    A computation that may print before it returns or raises: its result
    and the messages printed, in order. *)

Definition W (A : Type) : Type := (result A * list message)%type.

Definition wret {A} (a : A) : W A := (Ok a, []).
Definition wraise {A} (e : exn) : W A := (Raise e, []).
Definition wlift {A} (r : result A) : W A := (r, []).
Definition wprint (m : message) : W unit := (Ok tt, [m]).

Definition wbind {A B} (m : W A) (k : A -> W B) : W B :=
  match m with
  | (Ok a, out) => let (r, out') := k a in (r, out ++ out')
  | (Raise e, out) => (Raise e, out)
  end.

Notation "x <~ e ;; k" := (wbind e (fun x => k))
  (at level 61, e at next level, right associativity).

Fixpoint wfold {A B} (f : B -> A -> W B) (l : list A) (b : B) : W B :=
  match l with
  | [] => wret b
  | a :: l' => b' <~ f b a ;; wfold f l' b'
  end.

(** ** [GBReference] *)

Definition reference_keys : list str :=
  strs ["REFERENCE"; "AUTHORS"; "CONSRTM"; "TITLE"; "JOURNAL"; "PUBMED";
        "REMARK"].

Definition process_topline (self : GBReference) (line0 : str)
  : W GBReference :=
  p <~ (if contains " (bases" line0
        then
          let line := strip_chars ")" line0 in
          let line_bits := split "(" line in
          bit0 <~ wlift (py_getitem line_bits 0) ;;
          bit1 <~ wlift (py_getitem line_bits 1) ;;
          let span_line := split " to " (strip_chars "abes " bit1) in
          lo <~ wlift (py_getitem span_line 0) ;;
          hi <~ wlift (py_getitem span_line 1) ;;
          hi <~ (if contains " " hi
                 then
                   let extra_crap := split_ws hi in
                   hi' <~ wlift (py_getitem extra_crap 0) ;;
                   _ <~ wprint (UnprocessedAfterRange extra_crap) ;;
                   wret hi'
                 else wret hi) ;;
          a <~ wlift (py_int lo) ;;
          b <~ wlift (py_int hi) ;;
          wret (strip bit0, Some (a, b), Some [a - 1; b - 1])
        else wret (line0, range self, seqrange self)) ;;
  let '(line, rng, srng) := p in
  word1 <~ wlift (py_getitem (split_ws line) 1) ;;
  n <~ wlift (py_int word1) ;;
  wret (mkGBReference (Some n) rng srng (authors self) (consortium self)
          (title self) (journal self) (pubmed self) (remark self)).

(** The text kept by the setters [process_authors], ...,
    [process_remark]: the line without its leading keyword. *)
Definition after_keyword (key : str) (line : str) : str :=
  if str_eqb (firstn (length key) line) key
  then lstrip (skipn (length key) line)
  else line.

Definition process_authors (self : GBReference) (line : str) : W GBReference :=
  wret (mkGBReference (refno self) (range self) (seqrange self)
          (after_keyword "AUTHORS" line) (consortium self) (title self)
          (journal self) (pubmed self) (remark self)).

Definition process_consortium (self : GBReference) (line : str)
  : W GBReference :=
  wret (mkGBReference (refno self) (range self) (seqrange self)
          (authors self) (after_keyword "CONSRTM" line) (title self)
          (journal self) (pubmed self) (remark self)).

Definition process_title (self : GBReference) (line : str) : W GBReference :=
  wret (mkGBReference (refno self) (range self) (seqrange self)
          (authors self) (consortium self) (after_keyword "TITLE" line)
          (journal self) (pubmed self) (remark self)).

Definition process_journal (self : GBReference) (line : str) : W GBReference :=
  wret (mkGBReference (refno self) (range self) (seqrange self)
          (authors self) (consortium self) (title self)
          (after_keyword "JOURNAL" line) (pubmed self) (remark self)).

Definition process_pubmed (self : GBReference) (line : str) : W GBReference :=
  wret (mkGBReference (refno self) (range self) (seqrange self)
          (authors self) (consortium self) (title self) (journal self)
          (after_keyword "PUBMED" line) (remark self)).

Definition process_remark (self : GBReference) (line : str) : W GBReference :=
  wret (mkGBReference (refno self) (range self) (seqrange self)
          (authors self) (consortium self) (title self) (journal self)
          (pubmed self) (after_keyword "REMARK" line)).

(** [self.processors[firstword](line)] *)
Definition processors (firstword : str) (self : GBReference) (line : str)
  : W GBReference :=
  if str_eqb firstword "REFERENCE" then process_topline self line
  else if str_eqb firstword "AUTHORS" then process_authors self line
  else if str_eqb firstword "CONSRTM" then process_consortium self line
  else if str_eqb firstword "TITLE" then process_title self line
  else if str_eqb firstword "JOURNAL" then process_journal self line
  else if str_eqb firstword "PUBMED" then process_pubmed self line
  else if str_eqb firstword "REMARK" then process_remark self line
  else wraise KeyError.

(** The buffered lines handed to the processor named by their first
    word. *)
Definition flush_subsection (self : GBReference) (subsection : list str)
  : W GBReference :=
  line0 <~ wlift (py_getitem subsection 0) ;;
  firstword <~ wlift (py_getitem (split_ws (strip line0)) 0) ;;
  processors firstword self (strip (join " " (map strip subsection))).

Definition reference_step (st : GBReference * list str) (line : str)
  : W (GBReference * list str) :=
  let (self, subsection) := st in
  firstword <~ wlift (py_getitem (split_ws (strip line)) 0) ;;
  st' <~ (if existsb (str_eqb firstword) reference_keys
          then match subsection with
               | _ :: _ =>
                   self' <~ flush_subsection self subsection ;;
                   wret (self', [])
               | [] => wret (self, subsection)
               end
          else wret (self, subsection)) ;;
  wret (fst st', snd st' ++ [line]).

Definition GBReference_init (list_of_lines : list str) : W GBReference :=
  let self :=
    mkGBReference None None None "None" "None" "None" "None" "None" "None" in
  st <~ wfold reference_step list_of_lines (self, []) ;;
  flush_subsection (fst st) (snd st).

(** ** [GenbankFile]: the block parsers *)

Definition set_Metadata (self : GenbankFile) (m : GBMetadata) : GenbankFile :=
  mkGenbankFile (Sequence self) (References self) (Accession self)
    (Definition_ self) (Locus self) (Source self) m (Features self)
    (cache_sequences self).

(** [' '.join(strings[0].split()[1:])] followed by the other lines, each
    stripped, all joined by one space: the text of [process_version] and
    [process_comment]. *)
Definition headless_text (strings : list str) : result str :=
  line0 <- py_getitem strings 0 ;;
  let strings := set_nth 0 (join " " (skipn 1 (split_ws line0))) strings in
  Ok (join " " (map strip strings)).

Definition process_version (self : GenbankFile) (version_strings : list str)
  : W GenbankFile :=
  text <~ wlift (headless_text version_strings) ;;
  let m := Metadata self in
  wret (set_Metadata self
          (mkGBMetadata (Keywords m) (DBLink m) text (Comment m))).

Definition process_comment (self : GenbankFile) (comment_strings : list str)
  : W GenbankFile :=
  text <~ wlift (headless_text comment_strings) ;;
  let m := Metadata self in
  wret (set_Metadata self
          (mkGBMetadata (Keywords m) (DBLink m) (Version m) text)).

Definition _count_indent (line_string : str) : Z :=
  Z.of_nat (length line_string) - Z.of_nat (length (lstrip line_string)).

Definition _ignore (self : GenbankFile) (fooline : list str) : W GenbankFile :=
  wret self.

Definition process_locus (self : GenbankFile) (locus_strings : list str)
  : W GenbankFile :=
  let full_locus_line := join " " locus_strings in
  wret (mkGenbankFile (Sequence self) (References self) (Accession self)
          (Definition_ self)
          (join " " (skipn 1 (split_ws full_locus_line)))
          (Source self) (Metadata self) (Features self)
          (cache_sequences self)).

(** The loop of [process_keywords]; it ends at the first line that holds
    the keyword alone. *)
Fixpoint keywords_of (keywords_strings : list str) : list str :=
  match keywords_strings with
  | [] => []
  | line0 :: rest =>
      let line := strip_chars "." (strip line0) in
      if str_eqb (firstn 8 line) "KEYWORDS"
      then if (8 <? length line)%nat
           then split_ws (skipn 8 line) ++ keywords_of rest
           else []
      else split_ws line ++ keywords_of rest
  end.

Definition process_keywords (self : GenbankFile) (keywords_strings : list str)
  : W GenbankFile :=
  let m := Metadata self in
  wret (set_Metadata self
          (mkGBMetadata (Keywords m ++ keywords_of keywords_strings)
             (DBLink m) (Version m) (Comment m))).

Definition dblink_step (links : list (str * str)) (line0 : str)
  : result (list (str * str)) :=
  let line := strip line0 in
  let line := if contains "DBLINK" line then strip (skipn 6 line) else line in
  let linebits := split ":" line in
  k <- py_getitem linebits 0 ;;
  v <- py_getitem linebits 1 ;;
  Ok (dict_set (strip k) (strip v) links).

Definition process_dblink (self : GenbankFile) (dblink_strings : list str)
  : W GenbankFile :=
  let m := Metadata self in
  links <~ wlift (rfold dblink_step dblink_strings (DBLink m)) ;;
  wret (set_Metadata self
          (mkGBMetadata (Keywords m) links (Version m) (Comment m))).

Definition process_definition (self : GenbankFile)
  (definition_strings : list str) : W GenbankFile :=
  line0 <~ wlift (py_getitem definition_strings 0) ;;
  wret (mkGenbankFile (Sequence self) (References self) (Accession self)
          (join " " (skipn 1 (split_ws (strip line0))))
          (Locus self) (Source self) (Metadata self) (Features self)
          (cache_sequences self)).

Definition process_accession (self : GenbankFile)
  (accession_strings : list str) : W GenbankFile :=
  let accessions_list := join " " accession_strings in
  wret (mkGenbankFile (Sequence self) (References self)
          (skipn 1 (split_ws accessions_list))
          (Definition_ self) (Locus self) (Source self) (Metadata self)
          (Features self) (cache_sequences self)).

Definition process_source (self : GenbankFile) (source_strings : list str)
  : W GenbankFile :=
  line0 <~ wlift (py_getitem source_strings 0) ;;
  wret (mkGenbankFile (Sequence self) (References self) (Accession self)
          (Definition_ self) (Locus self)
          (join " " (skipn 1 (split_ws (strip line0))))
          (Metadata self) (Features self) (cache_sequences self)).

(** The loop of [process_sequence]; it ends at the end-of-record line. *)
Fixpoint origin_lines (origin_block_lines : list str) : list str :=
  match origin_block_lines with
  | [] => []
  | line :: rest =>
      match strip line with
      | [] => origin_lines rest
      | stripped =>
          if str_eqb stripped "//" then []
          else if str_eqb stripped "ORIGIN" then origin_lines rest
          else upper (replace " " "" (strip_chars "1234567890" stripped))
               :: origin_lines rest
      end
  end.

Definition process_sequence (self : GenbankFile)
  (origin_block_lines : list str) : W GenbankFile :=
  wret (mkGenbankFile (join "" (origin_lines origin_block_lines))
          (References self) (Accession self) (Definition_ self) (Locus self)
          (Source self) (Metadata self) (Features self)
          (cache_sequences self)).

(** [addfeature] of [process_features] *)
Definition addfeature (self : GenbankFile) (this_feature : list str)
  : W GenbankFile :=
  match GBFeature_init this_feature with
  | Raise e => wraise e
  | Ok (NewFeature, out) =>
      (Ok (mkGenbankFile (Sequence self) (References self) (Accession self)
             (Definition_ self) (Locus self) (Source self) (Metadata self)
             (Features self ++ [NewFeature]) (cache_sequences self)),
       out)
  end.

Definition features_step (st : GenbankFile * list str) (line : str)
  : W (GenbankFile * list str) :=
  let (self, this_feature) := st in
  st' <~ (if _count_indent line =? 5
          then match this_feature with
               | _ :: _ =>
                   self' <~ addfeature self this_feature ;;
                   wret (self', [])
               | [] => wret (self, this_feature)
               end
          else wret (self, this_feature)) ;;
  wret (fst st', snd st' ++ [line]).

Definition process_features (self : GenbankFile)
  (features_block_lines : list str) : W GenbankFile :=
  st <~ wfold features_step (skipn 1 features_block_lines) (self, []) ;;
  match snd st with
  | _ :: _ => addfeature (fst st) (snd st)
  | [] => wret (fst st)
  end.

(** [process_reference]: whatever the construction raises, the bare
    [except] prints and the reference is dropped. *)
Definition process_reference (self : GenbankFile)
  (reference_strings : list str) : W GenbankFile :=
  match GBReference_init reference_strings with
  | (Ok r, out) =>
      (Ok (mkGenbankFile (Sequence self) (References self ++ [r])
             (Accession self) (Definition_ self) (Locus self) (Source self)
             (Metadata self) (Features self) (cache_sequences self)),
       out)
  | (Raise _, out) => (Ok self, out ++ [ReferenceFailed reference_strings])
  end.

(** [self.block_parsers[firstword]] *)
Definition block_parsers (firstword : str)
  : result (GenbankFile -> list str -> W GenbankFile) :=
  if str_eqb firstword "ORIGIN" then Ok process_sequence
  else if str_eqb firstword "FEATURES" then Ok process_features
  else if str_eqb firstword "COMMENT" then Ok process_comment
  else if str_eqb firstword "VERSION" then Ok process_version
  else if str_eqb firstword "ACCESSION" then Ok process_accession
  else if str_eqb firstword "DEFINITION" then Ok process_definition
  else if str_eqb firstword "REFERENCE" then Ok process_reference
  else if str_eqb firstword "SOURCE" then Ok process_source
  else if str_eqb firstword "DBLINK" then Ok process_dblink
  else if str_eqb firstword "KEYWORDS" then Ok process_keywords
  else if str_eqb firstword "LOCUS" then Ok process_locus
  else if str_eqb firstword "//" then Ok _ignore
  else Raise KeyError.

(** ** [GenbankFile]: segmentation and construction *)

(** The loop of [extract_indent_blocks]: the blocks closed so far and the
    open block. *)
Definition indent_step (st : list (list str) * list str) (line : str)
  : list (list str) * list str :=
  let (indent_blocks, this_block) := st in
  match line with
  | [] => st
  | c :: _ =>
      match strip line with
      | [] => st
      | _ :: _ =>
          match this_block with
          | _ :: _ =>
              if negb (Ascii.eqb c " ")
              then (indent_blocks ++ [this_block], [line])
              else (indent_blocks, this_block ++ [line])
          | [] => (indent_blocks, this_block ++ [line])
          end
      end
  end.

Definition extract_indent_blocks (gbfile_contents : str) : list (list str) :=
  let gb_lines := splitlines (strip gbfile_contents) in
  let (indent_blocks, this_block) := fold_left indent_step gb_lines ([], []) in
  match this_block with
  | _ :: _ => indent_blocks ++ [this_block]
  | [] => indent_blocks
  end.

(** One turn of [process_indent_blocks].  Only the look-up of the parser
    raises [KeyError]; the handler prints and goes to the next block. *)
Definition indent_block_step (self : GenbankFile) (block : list str)
  : W GenbankFile :=
  line0 <~ wlift (py_getitem block 0) ;;
  word0 <~ wlift (py_getitem (split_ws line0) 0) ;;
  let firstword := upper (strip word0) in
  match block_parsers firstword with
  | Ok parser =>
      match parser self block with
      | (Raise KeyError, out) => (Ok self, out ++ [NoParserFound firstword])
      | r => r
      end
  | Raise _ => (Ok self, [NoParserFound firstword])
  end.

Definition process_indent_blocks (self : GenbankFile)
  (indent_blocks : list (list str)) : W GenbankFile :=
  wfold indent_block_step indent_blocks self.

(** Python truth of an optional string argument: [None] and the empty
    string are false. *)
Definition truthy (a : option str) : bool :=
  match a with
  | Some (_ :: _) => true
  | _ => false
  end.

Definition empty_record : GenbankFile :=
  mkGenbankFile [] [] [] [] [] [] (mkGBMetadata [] [] [] []) [] None.

Definition set_cache (self : GenbankFile) (cache : bool) : GenbankFile :=
  mkGenbankFile (Sequence self) (References self) (Accession self)
    (Definition_ self) (Locus self) (Source self) (Metadata self)
    (Features self) (Some cache).

(** [GenbankFile.__init__].  [read_file] stands for [open(name).read()]:
    the text of the file, or [None] where [open] raises [IOError].  The
    two parsing calls sit inside the branch taken when [file_contents] is
    false, as in the source. *)
Definition GenbankFile_init (read_file : str -> option str)
  (file_contents file_name : option str) (cache : bool) : W GenbankFile :=
  let self := empty_record in
  self <~
    (if negb (truthy file_contents)
     then
       match file_name with
       | Some (c :: name') =>
           let name := c :: name' in
           contents <~
             match read_file name with
             | Some text => wret (Some text)
             | None => _ <~ wprint (OpenFailed name) ;; wret file_contents
             end ;;
           match contents with
           | None => wraise AttributeError
           | Some text =>
               process_indent_blocks self (extract_indent_blocks text)
           end
       | _ => wraise ValueError
       end
     else wret self) ;;
  wret (set_cache self cache).

(** ** Vocabulary of the statements *)

(** A non-empty string of decimal digits, and the integer it denotes. *)
Definition number (d : str) : Prop :=
  d <> [] /\ forallb is_digit d = true.

Definition int_of (d : str) : Z :=
  fold_left (fun acc c => 10 * acc + digit_val c) d 0.

(** A string all of whose characters are in [iupac_characters]. *)
Definition iupac (s : str) : Prop :=
  forallb (fun c => mem c iupac_characters) s = true.


(** The text [start..end] of one range, the text of a list of ranges as
    an operator takes it, and the 0-based bounds [_nativise] gives them. *)
Definition range_of (p : str * str) : str := fst p ++ ".." ++ snd p.

Definition ranges_text (l : list (str * str)) : str :=
  join "," (map range_of l).

Definition numbers (p : str * str) : Prop :=
  number (fst p) /\ number (snd p).

Definition bounds (p : str * str) : Z * Z :=
  (int_of (fst p) - 1, int_of (snd p)).

(** The slices of a sequence at a list of ranges, one after the other. *)
Definition slices (s : str) (l : list (str * str)) : str :=
  concat (map (fun p => py_slice s (fst (bounds p)) (snd (bounds p))) l).

(** The characters of a list of ranges. *)
Definition range_char (c : ascii) : bool := is_digit c || mem c ".,".

(** ** Sample data *)

Definition nl : str := [ascii_of_nat 10].

Definition quoted (s : str) : str := dquote :: s ++ [dquote].

(** A feature block with the qualifier [db_xref] given twice. *)
Definition two_xref_block : list str :=
  [ "     gene            1..3" : str;
    "                     /db_xref=" ++ quoted "GI:1";
    "                     /db_xref=" ++ quoted "GI:2" ].

(** A feature block with a qualifier that has no [=], followed by one
    that has. *)
Definition pseudo_block : list str :=
  [ "     misc_feature    4..5" : str;
    "                     /pseudo" : str;
    "                     /note=kept" : str ].

(** A feature block whose location has a fuzzy start. *)
Definition fuzzy_block : list str :=
  [ "     gene            <1..3" : str ].

(** A record of eight bases.  Its features, from index 0: a gene with two
    [db_xref], a feature with a qualifier without [=], a complemented
    join, an order, a join, a range past the end, a range whose start is
    past its end, a range with a fuzzy start. *)
Definition sample_text : str :=
  join nl
    ([ "LOCUS       SAMPLE 8 bp DNA" : str;
       "DEFINITION  A sample record." : str;
       "FEATURES             Location/Qualifiers" : str ]
     ++ two_xref_block
     ++ pseudo_block
     ++ [ "     CDS             complement(join(1..3,5..7))" : str;
          "     misc_feature    order(1..3,5..7)" : str;
          "     misc_feature    join(1..3,5..7)" : str;
          "     gene            1..10" : str;
          "     gene            7..3" : str ]
     ++ fuzzy_block
     ++ [
          "     misc_feature    order(5..7,1..3)" : str;
          "     misc_feature    join(5..7,1..3)" : str;
          "ORIGIN" : str;
          "        1 aaaccggg" : str;
          "//" : str ]).

(** A record whose sequence holds a character outside the alphabet. *)
Definition foreign_text : str :=
  join nl
    [ "LOCUS       FOREIGN 4 bp DNA" : str;
      "FEATURES             Location/Qualifiers" : str;
      "     gene            1..4" : str;
      "ORIGIN" : str;
      "        1 axgt" : str;
      "//" : str ].

(** A record with one feature, whose location is a single position. *)
Definition position_text : str :=
  join nl
    [ "LOCUS       POSITION 8 bp DNA" : str;
      "FEATURES             Location/Qualifiers" : str;
      "     variation       4" : str;
      "ORIGIN" : str;
      "        1 aaaccggg" : str;
      "//" : str ].

Definition position_record : GenbankFile :=
  match fst (GenbankFile_init (fun _ => Some position_text) None
               (Some ("position.gb" : str)) true) with
  | Ok parent => parent
  | Raise _ => empty_record
  end.

(** The files at hand. *)
Definition sample_files (file_name : str) : option str :=
  if str_eqb file_name "sample.gb" then Some sample_text
  else if str_eqb file_name "foreign.gb" then Some foreign_text
  else None.

(** The record built from a file of [sample_files], and its features. *)
Definition record_of (file_name : str) : GenbankFile :=
  match fst (GenbankFile_init sample_files None (Some file_name) true) with
  | Ok parent => parent
  | Raise _ => empty_record
  end.

Definition feature_of (file_name : str) (i : nat) : GBFeature :=
  nth i (Features (record_of file_name)) (mkGBFeature [] [] None [] []).

(** ** [GBReference]: the sequence referred to *)

(** The property [sequence] of a reference: [None] without a range, else
    the slice of the record sequence at [seqrange]. *)
Definition reference_sequence (parent : GenbankFile) (self : GBReference)
  : result (option str) :=
  match seqrange self with
  | Some (x :: rest) =>
      let sr := x :: rest in
      a <- py_getitem sr 0 ;;
      b <- py_getitem sr 1 ;;
      Ok (Some (py_slice (Sequence parent) a b))
  | _ => Ok None
  end.

(** ** Further vocabulary *)

(** What [store_meta] keeps of a name or of a piece of a value: the text
    without surrounding white space, then without surrounding slashes,
    backslashes, double quotes and parentheses. *)
Definition trimmed (s : str) : str := strip_chars meta_strip_chars (strip s).

(** The name and the value under which [store_meta] stores a qualifier
    text. *)
Definition meta_name_of (meta_block : str) : str :=
  trimmed (hd [] (split "=" meta_block)).

Definition meta_content_of (meta_block : str) : str :=
  let meta_content := join "=" (skipn 1 (map trimmed (split "=" meta_block))) in
  if str_eqb (meta_name_of meta_block) "translation"
  then join "" (split_ws meta_content)
  else meta_content.

(** A character of ASCII. *)
Definition is_ascii (c : ascii) : bool := (code c <? 128)%nat.

Definition is_lower (c : ascii) : bool :=
  let n := code c in ((97 <=? n) && (n <=? 122))%nat.

(** A line that [extract_indent_blocks] keeps. *)
Definition nonblank (line : str) : bool :=
  match strip line with
  | [] => false
  | _ :: _ => true
  end.

Definition starts_with_space (line : str) : bool :=
  match line with
  | c :: _ => Ascii.eqb c " "
  | [] => false
  end.

(** A block as [extract_indent_blocks] cuts it: a first line, then lines
    that start with a space. *)
Definition block_shape (block : list str) : bool :=
  match block with
  | [] => false
  | _ :: rest => forallb starts_with_space rest
  end.

(** A block that opens on a line which does not start with a space. *)
Definition opens_unindented (block : list str) : bool :=
  match block with
  | line :: _ => negb (starts_with_space line) && nonblank line
  | [] => false
  end.

Definition is_index_error (e : exn) : bool :=
  match e with
  | IndexError => true
  | _ => false
  end.

(** ** Classes of exceptions *)

(** The exceptions that resolving a location raises by itself. *)
Definition is_evaluation_error (e : exn) : bool :=
  match e with
  | ValueError | IndexError | NotImplementedError
  | MixedAlphabetError | InvalidNucleotide => true
  | KeyError | TypeError | AttributeError => false
  end.

(** A result that, if it is an exception, is one of a class. *)
Definition raises_in (P : exn -> bool) {A} (r : result A) : Prop :=
  match r with
  | Ok _ => True
  | Raise e => P e = true
  end.

(** ** [GBFeature.parse_gb_functions] *)

(** [parse_gb_functions]: the first round alone.  What it replaces is
    [''.join(func_call[0])], the keyword without its arguments. *)
Definition parse_gb_functions (parent : GenbankFile) (gb_expression : str)
  : result str :=
  let first_round_functions := gb_func_finder gb_expression in
  rfold (fun gb_expression func_call =>
           func_to_call <- gb_funcs parent (fst func_call) ;;
           replacement <- func_to_call (snd func_call) ;;
           Ok (replace (join "" (map (fun c => [c]) (fst func_call)))
                       replacement gb_expression))
        first_round_functions gb_expression.

(** ** [testfeatures] *)

(** The four lists that [testfeatures] returns. *)
Record FeaturesReport : Type := mkReport {
  errors : list GBFeature;
  feature_types : list str;
  meta_keys : list str;
  excessive_meta_features : list GBFeature
}.

(** [if x not in l: l.append(x)] *)
Definition append_new (l : list str) (x : str) : list str :=
  if existsb (str_eqb x) l then l else l ++ [x].

(** The loop over the keys of one feature. *)
Definition key_step (feature : GBFeature) (st : list str * list GBFeature)
  (key : str) : list str * list GBFeature :=
  let (meta_keys, excessive_meta_features) := st in
  (append_new meta_keys key,
   if (15 <? length key)%nat
   then excessive_meta_features ++ [feature]
   else excessive_meta_features).

(** One turn of the loop over the features: the report, the type and the
    location printed for each feature in error, and the features as the
    evaluation of their sequences leaves them. *)
Definition testfeatures_step (gb_obj : GenbankFile)
  (st : FeaturesReport * list (str * str) * list GBFeature)
  (feature : GBFeature) : FeaturesReport * list (str * str) * list GBFeature :=
  let '(report, printed, features) := st in
  let (x, feature) := sequence gb_obj feature in
  let (errors, printed) :=
    match x with
    | Ok _ => (errors report, printed)
    | Raise _ => (errors report ++ [feature],
                  printed ++ [(type feature, spanline feature)])
    end in
  let feature_types := append_new (feature_types report) (type feature) in
  let (meta_keys, excessive_meta_features) :=
    fold_left (key_step feature) (map fst (meta feature))
      (meta_keys report, excessive_meta_features report) in
  (mkReport errors feature_types meta_keys excessive_meta_features,
   printed, features ++ [feature]).

Definition testfeatures (gb_obj : GenbankFile)
  : FeaturesReport * list (str * str) * list GBFeature :=
  fold_left (testfeatures_step gb_obj) (Features gb_obj)
    (mkReport [] [] [] [], [], []).

(** A feature whose [sequence] raises. *)
Definition in_error (gb_obj : GenbankFile) (feature : GBFeature) : bool :=
  match fst (sequence gb_obj feature) with
  | Ok _ => false
  | Raise _ => true
  end.

(** ** Vocabulary of the blocks *)

(** The blocks of a state of the loop of [extract_indent_blocks]: the
    closed ones, then the open one if it holds a line. *)
Definition blocks_of (st : list (list str) * list str) : list (list str) :=
  match snd st with
  | [] => fst st
  | _ :: _ => fst st ++ [snd st]
  end.

(** Blocks as [extract_indent_blocks] cuts them: each one a first line
    that is not blank and does not start with a space, then lines that
    start with a space. *)
Definition well_cut (blocks : list (list str)) : Prop :=
  forallb block_shape blocks = true
  /\ forallb opens_unindented blocks = true.

(** The exceptions that come out of the construction of a record. *)
Definition is_construction_error (e : exn) : bool :=
  match e with
  | ValueError | AttributeError | IndexError => true
  | _ => false
  end.

(** The number of features that the lines after the header of a features
    block announce: the first line opens one, and so does every later
    line at indent 5. *)
Definition feature_starts (lines : list str) : nat :=
  match lines with
  | [] => O
  | _ :: rest => S (length (filter (fun l => _count_indent l =? 5) rest))
  end.

(** ** Tactics *)

(** A fact about one character, settled on each of the 256. *)
Ltac by_ascii c :=
  destruct c as [[] [] [] [] [] [] [] []]; try discriminate; reflexivity.

(** A literal is a [number]. *)
Ltac number_tac := split; [discriminate | reflexivity].

(** A conjunction of closed equations, each settled by evaluation. *)
Ltac by_evaluation :=
  repeat match goal with |- _ /\ _ => split end; vm_compute; reflexivity.

(** * Properties *)

(** ** Strings *)

Section StringFacts.

Lemma str_eqb_refl (a : str) : str_eqb a a = true.
Proof.
  unfold str_eqb. destruct (list_eq_dec ascii_dec a a); congruence.
Qed.

Lemma str_eqb_eq (a b : str) : str_eqb a b = true <-> a = b.
Proof.
  unfold str_eqb. destruct (list_eq_dec ascii_dec a b); split; congruence.
Qed.

Lemma str_eqb_neq (a b : str) : a <> b -> str_eqb a b = false.
Proof.
  unfold str_eqb. destruct (list_eq_dec ascii_dec a b); congruence.
Qed.

Lemma mem_app (c : ascii) (a b : str) : mem c (a ++ b) = mem c a || mem c b.
Proof. unfold mem. apply existsb_app. Qed.

Lemma mem_rev (c : ascii) (s : str) : mem c (rev s) = mem c s.
Proof.
  induction s as [|x s IH]; simpl; auto.
  rewrite mem_app, IH. simpl. rewrite orb_false_r. apply orb_comm.
Qed.

Lemma mem_false_cons (c x : ascii) (s : str) :
  mem c (x :: s) = false -> Ascii.eqb c x = false /\ mem c s = false.
Proof. simpl. apply orb_false_elim. Qed.

Lemma contains_single (c : ascii) (s : str) : contains [c] s = mem c s.
Proof.
  induction s as [|x s IH]; simpl; auto.
  rewrite IH, andb_true_r. reflexivity.
Qed.

(** Stripping removes nothing from a string none of whose characters is
    stripped. *)
Lemma dropwhile_head (p : ascii -> bool) (c : ascii) (s : str) :
  p c = false -> dropwhile p (c :: s) = c :: s.
Proof. intros H. simpl. now rewrite H. Qed.

Lemma rstrip_by_last (p : ascii -> bool) (s : str) (c : ascii) :
  p c = false -> rstrip_by p (s ++ [c]) = s ++ [c].
Proof.
  intros H. unfold rstrip_by. rewrite rev_app_distr. simpl.
  rewrite H. simpl. now rewrite rev_involutive.
Qed.

Lemma strip_by_clean (p : ascii -> bool) (s : str) :
  forallb (fun c => negb (p c)) s = true -> strip_by p s = s.
Proof.
  intros H. unfold strip_by, lstrip_by.
  assert (Hl : dropwhile p s = s).
  { destruct s as [|c s]; simpl in *; auto.
    apply andb_prop in H. destruct H as [H _].
    apply negb_true_iff in H. now rewrite H. }
  rewrite Hl. unfold rstrip_by.
  assert (Hr : dropwhile p (rev s) = rev s).
  { assert (H' : forallb (fun c => negb (p c)) (rev s) = true).
    { rewrite forallb_forall in *. intros x Hx. apply H.
      now apply in_rev. }
    destruct (rev s) as [|c r]; simpl in *; auto.
    apply andb_prop in H'. destruct H' as [H' _].
    apply negb_true_iff in H'. now rewrite H'. }
  rewrite Hr. apply rev_involutive.
Qed.

(** A string wrapped in stripped characters loses exactly the wrapping. *)
Lemma strip_by_wrapped (p : ascii -> bool) (l r : ascii) (s : str) :
  p l = true -> p r = true -> s <> [] ->
  forallb (fun c => negb (p c)) s = true ->
  strip_by p (l :: s ++ [r]) = s.
Proof.
  intros Hl Hr Hs H. unfold strip_by, lstrip_by. simpl. rewrite Hl.
  assert (Hd : dropwhile p (s ++ [r]) = s ++ [r]).
  { destruct s as [|c s]; [congruence|]. simpl in *.
    apply andb_prop in H. destruct H as [H _].
    apply negb_true_iff in H. now rewrite H. }
  rewrite Hd. unfold rstrip_by. rewrite rev_app_distr. simpl. rewrite Hr.
  assert (H' : forallb (fun c => negb (p c)) (rev s) = true).
  { rewrite forallb_forall in *. intros x Hx. apply H. now apply in_rev. }
  assert (Hn : rev s <> []).
  { intros E. apply Hs. rewrite <- (rev_involutive s), E. reflexivity. }
  destruct (rev s) as [|c t] eqn:E; [congruence|]. simpl in *.
  apply andb_prop in H'. destruct H' as [H' _].
  apply negb_true_iff in H'. rewrite H'. rewrite <- E.
  apply rev_involutive.
Qed.

(** Characters that stay are neither added nor lost by stripping. *)
Lemma mem_dropwhile (p : ascii -> bool) (c : ascii) (s : str) :
  p c = false -> mem c (dropwhile p s) = mem c s.
Proof.
  intros H. induction s as [|x s IH]; simpl; auto.
  destruct (p x) eqn:E; simpl; auto.
  rewrite IH. destruct (Ascii.eqb c x) eqn:Ec; auto.
  apply Ascii.eqb_eq in Ec. congruence.
Qed.

Lemma mem_strip_by (p : ascii -> bool) (c : ascii) (s : str) :
  p c = false -> mem c (strip_by p s) = mem c s.
Proof.
  intros H. unfold strip_by, rstrip_by, lstrip_by.
  rewrite mem_rev, mem_dropwhile, mem_rev, mem_dropwhile; auto.
Qed.

(** [split] on a one-character separator. *)
Lemma split_go_single_absent (c : ascii) (cur s : str) :
  mem c s = false -> split_go [c] 0 cur s = [rev cur ++ s].
Proof.
  revert cur. induction s as [|x s IH]; intros cur H; simpl.
  - now rewrite app_nil_r.
  - apply mem_false_cons in H. destruct H as [Hx Hs].
    rewrite Hx. simpl. rewrite IH by assumption. simpl.
    now rewrite <- app_assoc.
Qed.

Lemma split_go_single (c : ascii) (cur a b : str) :
  mem c a = false ->
  split_go [c] 0 cur (a ++ c :: b) = (rev cur ++ a) :: split_go [c] 0 [] b.
Proof.
  revert cur. induction a as [|x a IH]; intros cur H; simpl.
  - rewrite Ascii.eqb_refl. simpl. now rewrite app_nil_r.
  - apply mem_false_cons in H. destruct H as [Hx Ha].
    rewrite Hx. simpl. rewrite IH by assumption. simpl.
    now rewrite <- app_assoc.
Qed.

Lemma split_single_absent (c : ascii) (s : str) :
  mem c s = false -> split [c] s = [s].
Proof. intros H. unfold split. now rewrite split_go_single_absent. Qed.

Lemma split_single (c : ascii) (a b : str) :
  mem c a = false -> split [c] (a ++ c :: b) = a :: split [c] b.
Proof. intros H. unfold split. now rewrite split_go_single. Qed.

(** [split] always yields at least one piece. *)
Lemma split_go_nonempty (sep : str) (skip : nat) (cur s : str) :
  split_go sep skip cur s <> [].
Proof.
  revert skip cur. induction s as [|x s IH]; intros skip cur; simpl.
  - discriminate.
  - destruct skip; [destruct (prefix sep (x :: s))|]; try discriminate;
      apply IH.
Qed.

(** [replace] of a one-character string that does not occur. *)
Lemma replace_single_absent (c : ascii) (new s : str) :
  mem c s = false -> replace [c] new s = s.
Proof.
  unfold replace. induction s as [|x s IH]; intros H; simpl; auto.
  apply mem_false_cons in H. destruct H as [Hx Hs].
  rewrite Hx. simpl. now rewrite IH.
Qed.

(** Deleting one character is a filter. *)
Lemma replace_single_delete (c : ascii) (s : str) :
  replace [c] [] s = filter (fun x => negb (Ascii.eqb c x)) s.
Proof.
  unfold replace. induction s as [|x s IH]; simpl; auto.
  destruct (Ascii.eqb c x); simpl; now rewrite IH.
Qed.

Lemma mem_filter_other (c d : ascii) (s : str) :
  Ascii.eqb d c = false ->
  mem c (filter (fun x => negb (Ascii.eqb d x)) s) = mem c s.
Proof.
  intros H. induction s as [|x s IH]; simpl; auto.
  destruct (Ascii.eqb d x) eqn:E; simpl; rewrite IH; auto.
  apply Ascii.eqb_eq in E. subst x.
  rewrite Ascii.eqb_sym, H. reflexivity.
Qed.

Lemma mem_filter_same (c : ascii) (s : str) :
  mem c (filter (fun x => negb (Ascii.eqb c x)) s) = false.
Proof.
  induction s as [|x s IH]; simpl; auto.
  destruct (Ascii.eqb c x) eqn:E; simpl; auto. now rewrite E.
Qed.

(** Once the whole rest is skipped nothing is left of it. *)
Lemma replace_go_skip (old new : str) (k : nat) (s : str) :
  (length s <= k)%nat -> replace_go old new k s = [].
Proof.
  revert k. induction s as [|x s IH]; intros k H; simpl; auto.
  destruct k; simpl in H; [lia|]. apply IH. lia.
Qed.

Lemma prefix_refl (s : str) : prefix s s = true.
Proof.
  induction s as [|x s IH]; simpl; auto. now rewrite Ascii.eqb_refl.
Qed.

(** Replacing a string within itself leaves the replacement. *)
Lemma replace_whole (old new : str) :
  old <> [] -> replace old new old = new.
Proof.
  intros H. unfold replace. destruct old as [|x s]; [congruence|].
  cbn [replace_go]. rewrite prefix_refl.
  rewrite replace_go_skip by (simpl; lia). apply app_nil_r.
Qed.

End StringFacts.

(** ** Numbers, slices and the alphabet *)

Section NumberFacts.

Lemma digit_not_space (c : ascii) : is_digit c = true -> is_space c = false.
Proof. by_ascii c. Qed.

Lemma digit_not_numeric_dot : is_numeric_char "." = false.
Proof. reflexivity. Qed.

(** A digit is none of the characters the parser gives a meaning to. *)
Lemma digit_not_special (c : ascii) :
  is_digit c = true -> mem c "+-.:<>^(),_=/ " = false.
Proof. by_ascii c. Qed.

Lemma digit_range_class (c : ascii) : is_digit c = true -> range_class c = true.
Proof. unfold range_class. now intros ->. Qed.

Lemma digits_not_mem (x : ascii) (d : str) :
  mem x "+-.:<>^(),_=/ " = true ->
  forallb is_digit d = true -> mem x d = false.
Proof.
  intros Hx. induction d as [|c d IH]; simpl; auto.
  intros H. apply andb_prop in H. destruct H as [Hc Hd].
  rewrite IH by assumption. rewrite orb_false_r.
  destruct (Ascii.eqb x c) eqn:E; auto.
  apply Ascii.eqb_eq in E. subst c.
  apply digit_not_special in Hc. congruence.
Qed.

Lemma int_digits_acc (d : str) (acc : Z) :
  forallb is_digit d = true ->
  int_digits acc true d
  = Some (fold_left (fun a c => 10 * a + digit_val c) d acc).
Proof.
  revert acc. induction d as [|c d IH]; intros acc H; simpl; auto.
  simpl in H. apply andb_prop in H. destruct H as [Hc Hd].
  rewrite Hc. now apply IH.
Qed.

Lemma fold_digits_nonneg (d : str) (acc : Z) :
  forallb is_digit d = true -> 0 <= acc ->
  0 <= fold_left (fun a c => 10 * a + digit_val c) d acc.
Proof.
  revert acc. induction d as [|c d IH]; intros acc H Hacc;
    cbn [fold_left]; auto.
  simpl in H. apply andb_prop in H. destruct H as [Hc Hd].
  apply IH; auto.
  assert (0 <= digit_val c).
  { unfold digit_val. unfold is_digit in Hc.
    apply andb_prop in Hc. destruct Hc as [Hc _].
    apply Nat.leb_le in Hc. lia. }
  lia.
Qed.

Lemma int_of_nonneg (d : str) : number d -> 0 <= int_of d.
Proof. intros [_ H]. apply fold_digits_nonneg; auto. lia. Qed.

(** [int] reads a string of digits as the number it denotes. *)
Lemma py_int_number (d : str) : number d -> py_int d = Ok (int_of d).
Proof.
  intros [Hne H]. unfold py_int, strip.
  rewrite strip_by_clean.
  2:{ rewrite forallb_forall in *. intros x Hx.
      now rewrite (digit_not_space x (H x Hx)). }
  destruct d as [|c d]; [congruence|].
  simpl in H. apply andb_prop in H. destruct H as [Hc Hd].
  pose proof (digit_not_special c Hc) as Hs. simpl in Hs.
  rewrite !orb_false_r in Hs.
  repeat (apply orb_false_elim in Hs; destruct Hs as [? Hs]).
  rewrite H, H0. simpl. rewrite Hc.
  rewrite int_digits_acc by assumption. reflexivity.
Qed.

Lemma str_nonempty_neq_nil (d : str) : d <> [] -> str_eqb [] d = false.
Proof. intros H. apply str_eqb_neq. congruence. Qed.

(** [l[a:b]] within the list. *)
Lemma py_slice_inside {A} (l : list A) (a b : Z) :
  0 <= a -> a <= b -> b <= Z.of_nat (length l) ->
  py_slice l a b = firstn (Z.to_nat (b - a)) (skipn (Z.to_nat a) l).
Proof.
  intros Ha Hab Hb. unfold py_slice, clamp_index.
  destruct (a <? 0) eqn:E1; [apply Z.ltb_lt in E1; lia|].
  destruct (b <? 0) eqn:E2; [apply Z.ltb_lt in E2; lia|].
  rewrite !Z.min_l by lia. reflexivity.
Qed.

Lemma py_slice_inside_length {A} (l : list A) (a b : Z) :
  0 <= a -> a <= b -> b <= Z.of_nat (length l) ->
  Z.of_nat (length (py_slice l a b)) = b - a.
Proof.
  intros Ha Hab Hb. rewrite py_slice_inside by assumption.
  rewrite length_firstn, length_skipn. lia.
Qed.

(** [l[a:b]] with [b] past the end is [l[a:]]: the slice is clamped. *)
Lemma py_slice_clamped {A} (l : list A) (a b : Z) :
  0 <= a -> Z.of_nat (length l) <= b ->
  py_slice l a b = skipn (Z.to_nat a) l.
Proof.
  intros Ha Hb. unfold py_slice, clamp_index.
  destruct (a <? 0) eqn:E1; [apply Z.ltb_lt in E1; lia|].
  destruct (b <? 0) eqn:E2; [apply Z.ltb_lt in E2; lia|].
  rewrite (Z.min_r b) by lia.
  destruct (Z.le_gt_cases a (Z.of_nat (length l))) as [Hle|Hgt].
  - rewrite Z.min_l by lia. apply firstn_all2.
    rewrite length_skipn. lia.
  - rewrite Z.min_r by lia. rewrite !skipn_all2 by lia.
    now rewrite firstn_nil.
Qed.

(** [l[a:b]] with [b <= a] is empty. *)
Lemma py_slice_reversed {A} (l : list A) (a b : Z) :
  0 <= b -> b <= a -> py_slice l a b = [].
Proof.
  intros Hb Hba. unfold py_slice, clamp_index.
  destruct (a <? 0) eqn:E1; [apply Z.ltb_lt in E1; lia|].
  destruct (b <? 0) eqn:E2; [apply Z.ltb_lt in E2; lia|].
  replace (Z.to_nat (Z.min b (Z.of_nat (length l))
                     - Z.min a (Z.of_nat (length l)))) with O by lia.
  reflexivity.
Qed.

(** The check of the alphabet passes on a string of the alphabet. *)
Lemma check_iupac_ok (s : str) : iupac s -> check_iupac s = Ok tt.
Proof.
  unfold iupac, check_iupac, deduce_alphabet. intros H.
  assert (E : forallb (fun c => mem c iupac_characters)
                      (nodup ascii_dec s) = true).
  { rewrite forallb_forall in *. intros x Hx. apply H.
    now apply nodup_In in Hx. }
  now rewrite E.
Qed.

Lemma check_iupac_fails (s : str) (c : ascii) :
  In c s -> mem c iupac_characters = false ->
  check_iupac s = Raise ValueError.
Proof.
  unfold check_iupac, deduce_alphabet. intros Hin Hc.
  destruct (forallb _ (nodup ascii_dec s)) eqn:E; auto.
  rewrite forallb_forall in E.
  rewrite (E c) in Hc; [discriminate|]. now apply nodup_In.
Qed.

(** ... and fails on any other string. *)
Lemma check_iupac_raises (s : str) :
  ~ iupac s -> check_iupac s = Raise ValueError.
Proof.
  unfold iupac, check_iupac, deduce_alphabet. intros H.
  destruct (forallb _ (nodup ascii_dec s)) eqn:E; auto.
  exfalso. apply H. rewrite forallb_forall in *. intros x Hx.
  apply E. now apply nodup_In.
Qed.

Lemma iupac_no_paren (s : str) : iupac s -> mem "(" s = false.
Proof.
  unfold iupac. induction s as [|c s IH]; simpl; auto.
  intros H. apply andb_prop in H. destruct H as [Hc Hs].
  rewrite IH by assumption. rewrite orb_false_r.
  destruct (Ascii.eqb "(" c) eqn:E; auto.
  apply Ascii.eqb_eq in E. subst c. discriminate.
Qed.

End NumberFacts.

(** ** The regular expressions *)

Section RegexFacts.

Lemma mem_skipn (c : ascii) (n : nat) (s : str) :
  mem c (skipn n s) = true -> mem c s = true.
Proof.
  revert s. induction n as [|n IH]; intros s; simpl; auto.
  destruct s as [|x s]; simpl; auto.
  intros H. rewrite (IH s H). apply orb_true_r.
Qed.

(** Either pattern needs an opening parenthesis. *)
Lemma match_call_paren (cls : ascii -> bool) (kw s : str) m :
  match_call cls kw s = Some m -> mem "(" s = true.
Proof.
  unfold match_call. destruct (prefix kw s); [|discriminate].
  destruct (skipn (length kw) s) as [|c r] eqn:E; [discriminate|].
  destruct (Ascii.eqb c "(") eqn:Ec; [|discriminate].
  intros _. apply Ascii.eqb_eq in Ec. subst c.
  apply (mem_skipn _ (length kw)). rewrite E. reflexivity.
Qed.

Lemma match_at_paren (cls : ascii -> bool) (kws : list str) (s : str) m :
  match_at cls kws s = Some m -> mem "(" s = true.
Proof.
  induction kws as [|kw kws IH]; simpl; [discriminate|].
  destruct (match_call cls kw s) eqn:E; auto.
  intros _. eapply match_call_paren; eauto.
Qed.

Lemma findall_go_no_paren (cls : ascii -> bool) (k : nat) (s : str) :
  mem "(" s = false -> findall_go cls k s = [].
Proof.
  revert k. induction s as [|x s IH]; intros k H; cbn [findall_go]; auto.
  pose proof H as H'. apply mem_false_cons in H'. destruct H' as [_ Hs].
  destruct k; [|now apply IH].
  destruct (match_at cls gb_keywords (x :: s)) as [[kw arg]|] eqn:E.
  - apply match_at_paren in E. congruence.
  - now apply IH.
Qed.

Lemma findall_go_skip (cls : ascii -> bool) (k : nat) (s : str) :
  (length s <= k)%nat -> findall_go cls k s = [].
Proof.
  revert k. induction s as [|x s IH]; intros k H; simpl; auto.
  destruct k; simpl in H; [lia|]. apply IH. lia.
Qed.

Lemma takewhile_all (p : ascii -> bool) (s : str) (c : ascii) (r : str) :
  forallb p s = true -> p c = false ->
  takewhile p (s ++ c :: r) = s /\ dropwhile p (s ++ c :: r) = c :: r.
Proof.
  intros H Hc. induction s as [|x s IH]; simpl.
  - now rewrite Hc.
  - simpl in H. apply andb_prop in H. destruct H as [Hx Hs].
    rewrite Hx. destruct (IH Hs) as [-> ->]. auto.
Qed.

(** A [join] or [order] call around a non-empty text of the range class
    is matched at its start. *)
Lemma match_at_call (kw body : str) :
  kw = "join" \/ kw = "order" ->
  body <> [] -> forallb range_class body = true ->
  match_at range_class gb_keywords (kw ++ "(" ++ body ++ ")")
  = Some (kw, "(" ++ body ++ ")").
Proof.
  intros Hkw Hne H.
  destruct (takewhile_all range_class body ")" [] H eq_refl) as [Ht Hd].
  destruct body as [|b body]; [congruence|].
  destruct Hkw as [-> | ->];
    cbn -[takewhile dropwhile range_class] in *;
    unfold match_call;
    cbn -[takewhile dropwhile range_class] in *;
    rewrite Ht, Hd; reflexivity.
Qed.

(** ... and it is the one match of [gb_func_finder]. *)
Lemma gb_func_finder_call (kw body : str) :
  kw = "join" \/ kw = "order" ->
  body <> [] -> forallb range_class body = true ->
  gb_func_finder (kw ++ "(" ++ body ++ ")") = [(kw, "(" ++ body ++ ")")].
Proof.
  intros Hkw Hne H. unfold gb_func_finder.
  pose proof (match_at_call kw body Hkw Hne H) as Hm.
  assert (Hlen : (length (tl (kw ++ "(" ++ body ++ ")"))
                  <= Nat.pred (length kw + length ("(" ++ body ++ ")")))%nat).
  { destruct Hkw as [-> | ->];
      cbn [tl list_ascii_of_string app length Nat.add Nat.pred];
      rewrite !length_app; simpl; lia. }
  assert (Hcons : exists c, kw ++ "(" ++ body ++ ")"
                            = c :: tl (kw ++ "(" ++ body ++ ")")).
  { destruct Hkw as [-> | ->]; eexists; reflexivity. }
  destruct Hcons as [c Hc].
  set (s := kw ++ "(" ++ body ++ ")") in *.
  rewrite Hc. cbn [findall_go]. rewrite <- Hc, Hm.
  f_equal. now apply findall_go_skip.
Qed.

End RegexFacts.

(** ** The separator of a range *)

Lemma split_go_dotdot_absent (cur s : str) :
  mem "." s = false -> split_go ".." 0 cur s = [rev cur ++ s].
Proof.
  revert cur. induction s as [|x s IH]; intros cur H.
  - simpl. now rewrite app_nil_r.
  - apply mem_false_cons in H. destruct H as [Hx Hs].
    cbn [split_go list_ascii_of_string prefix]. rewrite Hx.
    cbn [andb]. rewrite IH by assumption. simpl.
    now rewrite <- app_assoc.
Qed.

Lemma split_go_dotdot (cur a b : str) :
  mem "." a = false -> mem "." b = false ->
  split_go ".." 0 cur (a ++ ".." ++ b) = [rev cur ++ a; b].
Proof.
  intros Ha Hb. revert cur. induction a as [|x a IH]; intros cur.
  - cbn [app list_ascii_of_string split_go prefix length Nat.pred].
    rewrite Ascii.eqb_refl. cbn [andb].
    change (split_go [".";"."]%char 0 [] b) with (split_go ".." 0 [] b).
    rewrite split_go_dotdot_absent by assumption.
    now rewrite app_nil_r.
  - apply mem_false_cons in Ha. destruct Ha as [Hx Ha].
    cbn [app split_go list_ascii_of_string prefix]. rewrite Hx.
    cbn [andb].
    change (a ++ ["."; "."]%char ++ b) with (a ++ ".." ++ b).
    change (split_go ["."; "."]%char) with (split_go "..").
    rewrite (IH Ha). simpl. now rewrite <- app_assoc.
Qed.

(** ** A location [start..end] without operator *)

Section PlainRange.

Variable parent : GenbankFile.
Variables d1 d2 : str.
Hypothesis Hd1 : number d1.
Hypothesis Hd2 : number d2.

Let range_text : str := d1 ++ ".." ++ d2.

Lemma range_text_mem (x : ascii) :
  mem x "+-:<>^(),_=/ " = true -> mem x range_text = false.
Proof.
  intros Hx. destruct Hd1 as [_ H1], Hd2 as [_ H2]. unfold range_text.
  assert (Hx' : mem x "+-.:<>^(),_=/ " = true).
  { simpl in *. repeat (apply orb_prop in Hx; destruct Hx as [Hx|Hx];
      [rewrite Hx; repeat rewrite orb_true_r; reflexivity|]).
    discriminate. }
  rewrite !mem_app, (digits_not_mem x d1 Hx' H1), (digits_not_mem x d2 Hx' H2).
  simpl. destruct (Ascii.eqb x ".") eqn:E; auto.
  apply Ascii.eqb_eq in E. subst x. discriminate.
Qed.

Lemma range_text_not_numeric : isnumeric range_text = false.
Proof.
  unfold isnumeric, range_text.
  destruct (d1 ++ ".." ++ d2) eqn:E.
  - destruct Hd1 as [Hne _]. destruct d1; [congruence|discriminate].
  - rewrite <- E. rewrite forallb_app. simpl. apply andb_false_r.
Qed.

Lemma split_dot_range_text : split "." range_text = [d1; []; d2].
Proof.
  destruct Hd1 as [_ H1], Hd2 as [_ H2]. unfold range_text, split.
  change (d1 ++ ".." ++ d2) with (d1 ++ "."%char :: "."%char :: d2).
  change (list_ascii_of_string ".") with ["."%char].
  rewrite split_go_single by (apply digits_not_mem; auto).
  change ("."%char :: d2) with ([] ++ "."%char :: d2).
  rewrite split_go_single by reflexivity.
  rewrite split_go_single_absent by (apply digits_not_mem; auto).
  reflexivity.
Qed.

Lemma pop_empty_range_text :
  pop_empty [d1; []; d2] [d1; []; d2] = Ok [d1; d2].
Proof.
  destruct Hd1 as [N1 _], Hd2 as [N2 _].
  destruct d1 as [|c1 r1]; [congruence|].
  destruct d2 as [|c2 r2]; [congruence|].
  cbn [pop_empty index_of].
  rewrite str_nonempty_neq_nil by discriminate.
  rewrite str_eqb_refl. reflexivity.
Qed.

(** The branch without operator cuts the slice [start-1 : end]. *)
Lemma resolve_plain_range :
  resolve_plain parent range_text
  = Ok (py_slice (Sequence parent) (int_of d1 - 1) (int_of d2)).
Proof.
  unfold resolve_plain. rewrite split_dot_range_text.
  rewrite pop_empty_range_text. cbn [rbind rmap].
  rewrite (py_int_number d1 Hd1), (py_int_number d2 Hd2).
  reflexivity.
Qed.

Lemma gb_func_finder_range_text : gb_func_finder range_text = [].
Proof.
  unfold gb_func_finder. apply findall_go_no_paren.
  now apply range_text_mem.
Qed.

Lemma materialise_range (self : GBFeature) :
  spanline self = range_text ->
  materialise parent self
  = (let returnseq :=
       py_slice (Sequence parent) (int_of d1 - 1) (int_of d2) in
     _ <- check_iupac returnseq ;; Ok returnseq).
Proof.
  intros Hs. unfold materialise. rewrite Hs.
  change (list_ascii_of_string ":") with [":"%char].
  rewrite contains_single, range_text_mem by reflexivity.
  change (list_ascii_of_string "<") with ["<"%char].
  change (list_ascii_of_string ">") with [">"%char].
  change (list_ascii_of_string "^") with ["^"%char].
  rewrite (replace_single_absent "<") by (now apply range_text_mem).
  rewrite (replace_single_absent ">") by (now apply range_text_mem).
  rewrite (replace_single_absent "^") by (now apply range_text_mem).
  rewrite gb_func_finder_range_text, resolve_plain_range.
  reflexivity.
Qed.

(** The property [sequence] on a feature not yet cached whose location is
    [start..end]. *)
Lemma sequence_range (self : GBFeature) (cache : bool) :
  spanline self = range_text ->
  _sequence self = [] ->
  cache_sequences parent = Some cache ->
  let returnseq := py_slice (Sequence parent) (int_of d1 - 1) (int_of d2) in
  iupac returnseq ->
  fst (sequence parent self) = Ok returnseq.
Proof.
  intros Hs Hc Hp returnseq Hi. unfold sequence.
  rewrite Hc, Hs, range_text_not_numeric, <- Hs.
  rewrite (materialise_range self Hs).
  cbv zeta. fold returnseq. rewrite (check_iupac_ok _ Hi).
  cbn [rbind]. rewrite Hp. now destruct cache.
Qed.

Lemma sequence_range_raises (self : GBFeature) :
  spanline self = range_text ->
  _sequence self = [] ->
  ~ iupac (py_slice (Sequence parent) (int_of d1 - 1) (int_of d2)) ->
  fst (sequence parent self) = Raise ValueError.
Proof.
  intros Hs Hc Hi. unfold sequence.
  rewrite Hc, Hs, range_text_not_numeric, <- Hs.
  rewrite (materialise_range self Hs).
  cbv zeta. rewrite (check_iupac_raises _ Hi). reflexivity.
Qed.

End PlainRange.

(** ** The argument list of an operator *)

Section RangeLists.

Lemma range_char_digit (c : ascii) : is_digit c = true -> range_char c = true.
Proof. unfold range_char. now intros ->. Qed.

Lemma range_char_plain (c : ascii) :
  range_char c = true ->
  is_space c = false /\ mem c "()<>^:" = false /\ range_class c = true.
Proof.
  destruct c as [[] [] [] [] [] [] [] []]; try discriminate;
    intros _; repeat split; reflexivity.
Qed.

Lemma range_of_chars (p : str * str) :
  numbers p -> forallb range_char (range_of p) = true.
Proof.
  intros [[_ H1] [_ H2]]. unfold range_of. rewrite !forallb_app.
  assert (D : forall d, forallb is_digit d = true ->
                        forallb range_char d = true).
  { intros d H. rewrite forallb_forall in *. intros x Hx.
    apply range_char_digit. auto. }
  rewrite (D _ H1), (D _ H2). reflexivity.
Qed.

Lemma range_of_nonempty (p : str * str) : numbers p -> range_of p <> [].
Proof.
  intros [[N _] _]. unfold range_of. destruct (fst p); [congruence|].
  discriminate.
Qed.

Lemma range_of_no_comma (p : str * str) :
  numbers p -> mem "," (range_of p) = false.
Proof.
  intros [[_ H1] [_ H2]]. unfold range_of. rewrite !mem_app.
  rewrite (digits_not_mem "," (fst p) eq_refl H1).
  rewrite (digits_not_mem "," (snd p) eq_refl H2). reflexivity.
Qed.

Lemma ranges_text_cons (p q : str * str) (l : list (str * str)) :
  ranges_text (p :: q :: l) = range_of p ++ "," ++ ranges_text (q :: l).
Proof. reflexivity. Qed.

Lemma ranges_text_chars (l : list (str * str)) :
  Forall numbers l -> forallb range_char (ranges_text l) = true.
Proof.
  induction l as [|p l IH]; intros H; [reflexivity|].
  inversion H as [|? ? Hp Hl]; subst.
  destruct l as [|q l].
  - unfold ranges_text. simpl. now apply range_of_chars.
  - rewrite ranges_text_cons, !forallb_app, (range_of_chars p Hp), (IH Hl).
    reflexivity.
Qed.

Lemma ranges_text_nonempty (p : str * str) (l : list (str * str)) :
  numbers p -> ranges_text (p :: l) <> [].
Proof.
  intros Hp. pose proof (range_of_nonempty p Hp) as N.
  destruct l as [|q l].
  - unfold ranges_text. simpl. assumption.
  - rewrite ranges_text_cons. destruct (range_of p); [congruence|].
    discriminate.
Qed.

Lemma split_ranges_text (p : str * str) (l : list (str * str)) :
  Forall numbers (p :: l) ->
  split "," (ranges_text (p :: l)) = map range_of (p :: l).
Proof.
  revert p. induction l as [|q l IH]; intros p H;
    inversion H as [|? ? Hp Hl]; subst.
  - unfold ranges_text. simpl.
    change (list_ascii_of_string ",") with [","%char].
    now rewrite split_single_absent by (now apply range_of_no_comma).
  - rewrite ranges_text_cons.
    change (list_ascii_of_string ",") with [","%char].
    change ([","%char] ++ ranges_text (q :: l))
      with (","%char :: ranges_text (q :: l)).
    rewrite split_single by (now apply range_of_no_comma).
    change [","%char] with (list_ascii_of_string ",").
    rewrite (IH q Hl). reflexivity.
Qed.

Lemma nativise_one_range (p : str * str) :
  numbers p -> nativise_one (range_of p) = Ok (bounds p).
Proof.
  intros [H1 H2]. unfold nativise_one, range_of, split.
  rewrite split_go_dotdot
    by (apply digits_not_mem; [reflexivity | apply H1 || apply H2]).
  cbn [rev app rmap rbind].
  rewrite (py_int_number _ H1), (py_int_number _ H2). reflexivity.
Qed.

Lemma rmap_nativise_one (l : list (str * str)) :
  Forall numbers l ->
  rmap nativise_one (map range_of l) = Ok (map bounds l).
Proof.
  induction l as [|p l IH]; intros H; [reflexivity|].
  inversion H as [|? ? Hp Hl]; subst.
  cbn [map rmap]. rewrite (nativise_one_range p Hp). cbn [rbind].
  rewrite (IH Hl). reflexivity.
Qed.

(** [_nativise] reads a parenthesised list of ranges as their 0-based
    bounds, in the order written. *)
Lemma nativise_ranges (p : str * str) (l : list (str * str)) :
  Forall numbers (p :: l) ->
  _nativise ("(" ++ ranges_text (p :: l) ++ ")") = Ok (map bounds (p :: l)).
Proof.
  intros H. inversion H as [|? ? Hp Hl]; subst.
  pose proof (ranges_text_chars _ H) as Hc.
  pose proof (ranges_text_nonempty p l Hp) as Hn.
  unfold _nativise, strip, strip_chars.
  rewrite (strip_by_clean is_space).
  2:{ change ("(" ++ ranges_text (p :: l) ++ ")")
        with ("("%char :: ranges_text (p :: l) ++ [")"%char]).
      rewrite forallb_forall in *. intros x [<-|Hx]; [reflexivity|].
      apply in_app_or in Hx. destruct Hx as [Hx|[<-|[]]]; [|reflexivity].
      destruct (range_char_plain x (Hc x Hx)) as [-> _]. reflexivity. }
  change ("(" ++ ranges_text (p :: l) ++ ")")
    with ("("%char :: ranges_text (p :: l) ++ [")"%char]).
  rewrite strip_by_wrapped; try reflexivity; try assumption.
  2:{ rewrite forallb_forall in *. intros x Hx.
      destruct (range_char_plain x (Hc x Hx)) as [_ [Hm _]].
      simpl in Hm. rewrite !orb_false_r in Hm.
      apply orb_false_elim in Hm. destruct Hm as [Ha Hm].
      apply orb_false_elim in Hm. destruct Hm as [Hb _].
      simpl. now rewrite Ha, Hb. }
  rewrite (split_ranges_text p l H). now apply rmap_nativise_one.
Qed.

End RangeLists.

(** ** Construction of a feature *)

Section FeatureConstruction.

Lemma py_getitem_0 {A} (x : A) (l : list A) : py_getitem (x :: l) 0 = Ok x.
Proof.
  unfold py_getitem. cbn [length Z.ltb Z.compare].
  rewrite Nat2Z.inj_succ.
  destruct (Z.succ (Z.of_nat (length l)) <=? 0) eqn:E.
  - apply Z.leb_le in E. lia.
  - reflexivity.
Qed.

Lemma py_getitem_nil {A} (i : Z) : py_getitem (@nil A) i = Raise IndexError.
Proof.
  unfold py_getitem. cbn [length Z.of_nat].
  destruct (i <? 0) eqn:E.
  - rewrite Z.add_0_r, E. reflexivity.
  - rewrite E. destruct (0 <=? i) eqn:E'; [reflexivity|].
    apply Z.ltb_ge in E. apply Z.leb_gt in E'. lia.
Qed.

(** The [try] of [store_meta] raises nothing: its handler, which would
    print and skip, is never entered. *)
Lemma store_meta_try_ok (self : GBFeature) (meta_block : str) :
  exists self', store_meta_try self meta_block = Ok self'
                /\ type self' = type self
                /\ spanline self' = spanline self
                /\ fuzzyboundary self' = fuzzyboundary self
                /\ _sequence self' = _sequence self.
Proof.
  unfold store_meta_try, split.
  pose proof (split_go_nonempty "=" 0 [] meta_block) as N.
  destruct (split_go "=" 0 [] meta_block) as [|bit0 bits]; [congruence|].
  rewrite py_getitem_0. cbn [rbind]. eexists. repeat split.
Qed.

Lemma store_meta_silent (self : GBFeature) (meta_block : str) :
  snd (store_meta self meta_block) = []
  /\ fuzzyboundary (fst (store_meta self meta_block)) = fuzzyboundary self
  /\ spanline (fst (store_meta self meta_block)) = spanline self.
Proof.
  unfold store_meta.
  destruct (store_meta_try_ok self meta_block)
    as [self' [-> [_ [Hs [Hf _]]]]].
  simpl. auto.
Qed.

Lemma store_metas_silent (metavals : list str) (self : GBFeature) :
  snd (store_metas self metavals) = []
  /\ fuzzyboundary (fst (store_metas self metavals)) = fuzzyboundary self
  /\ spanline (fst (store_metas self metavals)) = spanline self.
Proof.
  revert self. induction metavals as [|b rest IH]; intros self.
  - simpl. auto.
  - cbn [store_metas].
    destruct (store_meta_silent self b) as [Ho [Hf Hs]].
    destruct (store_meta self b) as [self1 out1]. simpl in Ho, Hf, Hs.
    destruct (IH self1) as [Ho' [Hf' Hs']].
    destruct (store_metas self1 rest) as [self2 out2].
    simpl in *. subst. repeat split; congruence.
Qed.

(** What is left of the span line keeps its markers: only white space is
    taken out before the test of [set_span]. *)
Lemma mem_squeezed (c : ascii) (s : str) :
  is_space c = false ->
  mem c (replace " " "" (strip s)) = mem c s.
Proof.
  intros H. change (list_ascii_of_string " ") with [" "%char].
  change (list_ascii_of_string "") with (@nil ascii).
  rewrite replace_single_delete, mem_filter_other.
  - unfold strip. now apply mem_strip_by.
  - destruct (Ascii.eqb " " c) eqn:E; auto.
    apply Ascii.eqb_eq in E. subst c. discriminate.
Qed.

Lemma set_span_fuzzyboundary (self : GBFeature) (span_line : str) :
  fuzzyboundary (set_span self span_line)
  = if mem "<" span_line || mem ">" span_line
    then Some true else fuzzyboundary self.
Proof.
  unfold set_span.
  change (list_ascii_of_string "<") with ["<"%char].
  change (list_ascii_of_string ">") with [">"%char].
  rewrite !contains_single, !mem_squeezed by reflexivity.
  destruct (mem "<" span_line || mem ">" span_line); reflexivity.
Qed.

(** The stored span line holds no marker. *)
Lemma set_span_no_marker (self : GBFeature) (span_line : str) :
  mem "<" (spanline (set_span self span_line)) = false
  /\ mem ">" (spanline (set_span self span_line)) = false.
Proof.
  unfold set_span.
  change (list_ascii_of_string "<") with ["<"%char].
  change (list_ascii_of_string ">") with [">"%char].
  rewrite !contains_single.
  set (s := replace " " "" (strip span_line)).
  destruct (mem "<" s || mem ">" s) eqn:E; cbn [spanline].
  - change (list_ascii_of_string "") with (@nil ascii).
    rewrite !replace_single_delete. split.
    + rewrite mem_filter_other by reflexivity. apply mem_filter_same.
    + apply mem_filter_same.
  - now apply orb_false_elim in E.
Qed.

End FeatureConstruction.

(** ** The parser against its specification *)

(** C10.  For every feature block that [GBFeature.__init__] accepts, the
    attribute [fuzzyboundary] is assigned, to [True], exactly when the
    raw location text holds a [<] or a [>]; on a feature whose location
    text holds neither, the attribute is not assigned and reading it
    raises [AttributeError] instead of giving [False]. *)
Theorem fuzzyboundary_assigned_only_on_marker
  (list_of_lines : list str) (f : GBFeature) (out : list message) :
  GBFeature_init list_of_lines = Ok (f, out) ->
  exists ftype span_line metavals,
    feature_pieces list_of_lines = Ok (ftype, span_line :: metavals)
    /\ (mem "<" span_line || mem ">" span_line = true ->
        fuzzyboundary f = Some true /\ get_fuzzyboundary f = Ok true)
    /\ (mem "<" span_line || mem ">" span_line = false ->
        fuzzyboundary f = None
        /\ get_fuzzyboundary f = Raise AttributeError).
Proof.
  unfold GBFeature_init.
  destruct (feature_pieces list_of_lines) as [[ftype pieces]|e];
    cbn [rbind]; [|discriminate].
  destruct pieces as [|span_line metavals].
  - rewrite py_getitem_nil. discriminate.
  - rewrite py_getitem_0. cbn [rbind skipn]. intros H.
    exists ftype, span_line, metavals. split; [reflexivity|].
    set (self := set_span (mkGBFeature ftype [] None [] []) span_line) in *.
    destruct (store_metas_silent metavals self) as [_ [Hf _]].
    assert (Ef : f = fst (store_metas self metavals)).
    { inversion H as [E]. rewrite E. reflexivity. }
    unfold get_fuzzyboundary. rewrite Ef, Hf. unfold self.
    rewrite set_span_fuzzyboundary. cbn [fuzzyboundary].
    split; intros ->; auto.
Qed.

Lemma fuzzyboundary_assigned_only_on_marker_witness :
  GBFeature_init fuzzy_block = Ok (feature_of "sample.gb" 7, [])
  /\ exists ftype span_line metavals,
      feature_pieces fuzzy_block = Ok (ftype, span_line :: metavals)
      /\ (mem "<" span_line || mem ">" span_line = true ->
          fuzzyboundary (feature_of "sample.gb" 7) = Some true
          /\ get_fuzzyboundary (feature_of "sample.gb" 7) = Ok true)
      /\ (mem "<" span_line || mem ">" span_line = false ->
          fuzzyboundary (feature_of "sample.gb" 7) = None
          /\ get_fuzzyboundary (feature_of "sample.gb" 7)
             = Raise AttributeError).
Proof.
  split; [vm_compute; reflexivity|].
  apply (fuzzyboundary_assigned_only_on_marker fuzzy_block
           (feature_of "sample.gb" 7) []).
  vm_compute. reflexivity.
Defined.

Section Qualifiers.

Lemma dict_get_set {V} (k : str) (v : V) (d : list (str * V)) :
  dict_get k (dict_set k v d) = Ok v.
Proof.
  induction d as [|[k' v'] d IH]; simpl.
  - now rewrite str_eqb_refl.
  - destruct (str_eqb k k') eqn:E; simpl; rewrite ?str_eqb_refl, ?E; auto.
Qed.

(** A second value stored under a name leaves nothing of the first. *)
Lemma dict_set_twice {V} (k : str) (v1 v2 : V) (d : list (str * V)) :
  dict_set k v2 (dict_set k v1 d) = dict_set k v2 d.
Proof.
  induction d as [|[k' v'] d IH]; simpl.
  - now rewrite str_eqb_refl.
  - destruct (str_eqb k k') eqn:E; simpl; rewrite ?str_eqb_refl, ?E;
      congruence.
Qed.

End Qualifiers.

(** For every feature and every qualifier text without [=], [store_meta]
    does not abort and prints nothing: it stores the qualifier under its
    trimmed text with the empty string as value, and the remaining
    qualifiers of the feature are stored from there on, none of them
    printing either. *)
Lemma store_meta_without_equals
  (self : GBFeature) (meta_block : str) (rest : list str) :
  mem "=" meta_block = false ->
  let meta_name := strip_chars meta_strip_chars (strip meta_block) in
  let self' :=
    mkGBFeature (type self) (spanline self) (fuzzyboundary self)
                (dict_set meta_name [] (meta self)) (_sequence self) in
  store_meta self meta_block = (self', [])
  /\ dict_get meta_name (meta self') = Ok []
  /\ store_metas self (meta_block :: rest) = store_metas self' rest
  /\ snd (store_metas self (meta_block :: rest)) = [].
Proof.
  intros H meta_name self'.
  assert (E : store_meta self meta_block = (self', [])).
  { unfold store_meta, store_meta_try.
    change (list_ascii_of_string "=") with ["="%char].
    rewrite (split_single_absent "=" meta_block H).
    rewrite py_getitem_0. cbn [rbind map skipn join].
    fold meta_name.
    destruct (str_eqb meta_name "translation"); reflexivity. }
  split; [exact E|]. split; [apply dict_get_set|]. split.
  - cbn [store_metas]. rewrite E.
    destruct (store_metas self' rest). reflexivity.
  - apply store_metas_silent.
Qed.

(** C9, as stated, fails: the qualifier [/pseudo], which has no [=], is
    not skipped.  The feature of [pseudo_block] holds an entry for it and
    nothing was printed. *)
Lemma qualifier_without_equals_is_not_skipped :
  exists f,
    GBFeature_init pseudo_block = Ok (f, [])
    /\ dict_get "pseudo" (meta f) = Ok []
    /\ dict_get "note" (meta f) = Ok ("kept" : str).
Proof.
  eexists. split; [vm_compute; reflexivity|]. split; reflexivity.
Qed.

(** For every record and every feature, a second evaluation of
    [sequence] gives what the first gave, with the cache on or off; an
    evaluation that raises leaves the feature as it was, so does any
    evaluation with the cache off, and a feature is changed only by a
    returning evaluation with the cache on, which stores the string
    returned. *)
Theorem sequence_twice_same (parent : GenbankFile) (self : GBFeature) :
  let first := sequence parent self in
  let second := sequence parent (snd first) in
  fst second = fst first
  /\ (forall e, fst first = Raise e -> snd first = self)
  /\ (cache_sequences parent = Some false -> snd first = self)
  /\ (snd first <> self ->
      cache_sequences parent = Some true
      /\ fst first = Ok (_sequence (snd first))).
Proof.
  cbv zeta.
  assert (Same : forall r, sequence parent self = (r, self) ->
    fst (sequence parent (snd (sequence parent self)))
    = fst (sequence parent self)
    /\ (forall e, fst (sequence parent self) = Raise e ->
        snd (sequence parent self) = self)
    /\ (cache_sequences parent = Some false ->
        snd (sequence parent self) = self)
    /\ (snd (sequence parent self) <> self ->
        cache_sequences parent = Some true
        /\ fst (sequence parent self)
           = Ok (_sequence (snd (sequence parent self))))).
  { intros r E. rewrite E. cbn [fst snd]. rewrite E. cbn [fst].
    repeat split; congruence. }
  destruct (_sequence self) as [|c cached] eqn:Ec.
  - destruct (isnumeric (spanline self)) eqn:En.
    + eapply Same. unfold sequence. rewrite Ec, En. reflexivity.
    + destruct (materialise parent self) as [returnseq|e] eqn:Em.
      * destruct (cache_sequences parent) as [[|]|] eqn:Ep.
        -- set (self1 := mkGBFeature (type self) (spanline self)
                           (fuzzyboundary self) (meta self) returnseq).
           assert (E1 : sequence parent self = (Ok returnseq, self1)).
           { unfold sequence. rewrite Ec, En, Em, Ep. reflexivity. }
           assert (E2 : fst (sequence parent self1) = Ok returnseq).
           { unfold sequence. subst self1. cbn [_sequence spanline].
             destruct returnseq as [|r0 rs]; [|reflexivity].
             rewrite En.
             change (materialise parent
                       (mkGBFeature (type self) (spanline self)
                          (fuzzyboundary self) (meta self) []))
               with (materialise parent self).
             rewrite Em, Ep. reflexivity. }
           rewrite E1. cbn [fst snd]. rewrite E2.
           repeat split; congruence.
        -- eapply Same. unfold sequence. rewrite Ec, En, Em, Ep.
           reflexivity.
        -- eapply Same. unfold sequence. rewrite Ec, En, Em, Ep.
           reflexivity.
      * eapply Same. unfold sequence. rewrite Ec, En, Em. reflexivity.
  - eapply Same. unfold sequence. rewrite Ec. reflexivity.
Qed.

(** The records of [sample_files] are what [GenbankFile.__init__] builds
    from their paths, and nothing is printed on the way. *)
Lemma sample_records_built :
  GenbankFile_init sample_files None (Some ("sample.gb" : str)) true
  = (Ok (record_of "sample.gb"), [])
  /\ GenbankFile_init sample_files None (Some ("foreign.gb" : str)) true
     = (Ok (record_of "foreign.gb"), []).
Proof. split; vm_compute; reflexivity. Qed.


(** C7, as amended.  For every feature not yet cached whose location is
    [start..end] with [1 <= start <= end <= len(sequence)], the
    characters of the record sequence from the 0-based index [start-1],
    included, to [end], excluded, are [end-start+1]; [sequence] returns
    them provided all of them are in the alphabet [iupac_characters],
    and raises [ValueError] otherwise. *)
Theorem range_returns_substring
  (parent : GenbankFile) (self : GBFeature) (d1 d2 : str) (cache : bool) :
  number d1 -> number d2 ->
  spanline self = d1 ++ ".." ++ d2 ->
  _sequence self = [] ->
  cache_sequences parent = Some cache ->
  1 <= int_of d1 -> int_of d1 <= int_of d2 ->
  int_of d2 <= Z.of_nat (length (Sequence parent)) ->
  let sub :=
    firstn (Z.to_nat (int_of d2 - (int_of d1 - 1)))
           (skipn (Z.to_nat (int_of d1 - 1)) (Sequence parent)) in
  Z.of_nat (length sub) = int_of d2 - int_of d1 + 1
  /\ (iupac sub -> fst (sequence parent self) = Ok sub)
  /\ (~ iupac sub -> fst (sequence parent self) = Raise ValueError).
Proof.
  intros H1 H2 Hs Hc Hp Hlo Hle Hhi sub.
  assert (E : py_slice (Sequence parent) (int_of d1 - 1) (int_of d2) = sub)
    by (apply py_slice_inside; lia).
  split; [|split].
  - rewrite <- E. rewrite py_slice_inside_length; lia.
  - intros Hi. rewrite <- E in *.
    now apply (sequence_range parent d1 d2 H1 H2 self cache).
  - intros Hi. rewrite <- E in Hi.
    now apply (sequence_range_raises parent d1 d2 H1 H2 self).
Qed.

Lemma range_returns_substring_witness :
  number "1" /\ number "3"
  /\ fst (sequence (record_of "sample.gb") (feature_of "sample.gb" 0))
     = Ok ("AAA" : str).
Proof.
  split; [number_tac|]. split; [number_tac|].
  pose proof (range_returns_substring (record_of "sample.gb")
                (feature_of "sample.gb" 0) "1" "3" true
                ltac:(number_tac) ltac:(number_tac)
                ltac:(vm_compute; reflexivity)
                ltac:(vm_compute; reflexivity)
                ltac:(vm_compute; reflexivity)
                ltac:(vm_compute; discriminate)
                ltac:(vm_compute; discriminate)
                ltac:(vm_compute; discriminate)) as [_ [H _]].
  specialize (H ltac:(vm_compute; reflexivity)).
  vm_compute in H. vm_compute. exact H.
Defined.

(** C7, as stated, fails: the location [1..4] lies within the four
    characters of the record of [foreign.gb], one of which is not in the
    alphabet, and [sequence] raises [ValueError] instead of returning
    them. *)
Lemma range_over_foreign_character_raises :
  Sequence (record_of "foreign.gb") = "AXGT"
  /\ spanline (feature_of "foreign.gb" 0) = "1..4"
  /\ _sequence (feature_of "foreign.gb" 0) = []
  /\ fst (sequence (record_of "foreign.gb") (feature_of "foreign.gb" 0))
     = Raise ValueError.
Proof. by_evaluation. Qed.

(** C4, as amended.  For every feature not yet cached whose location is
    [start..end] with [1 <= start] and [end] beyond the length of the
    record sequence, [sequence] raises nothing on account of the bound:
    the slice is clamped and the characters from the 0-based index
    [start-1] to the end of the record sequence are returned, provided
    all of them are in the alphabet [iupac_characters]. *)
Theorem range_past_end_is_clamped
  (parent : GenbankFile) (self : GBFeature) (d1 d2 : str) (cache : bool) :
  number d1 -> number d2 ->
  spanline self = d1 ++ ".." ++ d2 ->
  _sequence self = [] ->
  cache_sequences parent = Some cache ->
  1 <= int_of d1 ->
  Z.of_nat (length (Sequence parent)) < int_of d2 ->
  let sub := skipn (Z.to_nat (int_of d1 - 1)) (Sequence parent) in
  iupac sub ->
  fst (sequence parent self) = Ok sub.
Proof.
  intros H1 H2 Hs Hc Hp Hlo Hhi sub Hi.
  assert (E : py_slice (Sequence parent) (int_of d1 - 1) (int_of d2) = sub)
    by (apply py_slice_clamped; lia).
  rewrite <- E in *.
  now apply (sequence_range parent d1 d2 H1 H2 self cache).
Qed.

Lemma range_past_end_is_clamped_witness :
  number "1" /\ number "10"
  /\ Z.of_nat (length (Sequence (record_of "sample.gb"))) < int_of "10"
  /\ fst (sequence (record_of "sample.gb") (feature_of "sample.gb" 5))
     = Ok ("AAACCGGG" : str).
Proof.
  split; [number_tac|]. split; [number_tac|].
  split; [vm_compute; reflexivity|].
  pose proof (range_past_end_is_clamped (record_of "sample.gb")
                (feature_of "sample.gb" 5) "1" "10" true
                ltac:(number_tac) ltac:(number_tac)
                ltac:(vm_compute; reflexivity)
                ltac:(vm_compute; reflexivity)
                ltac:(vm_compute; reflexivity)
                ltac:(vm_compute; discriminate)
                ltac:(vm_compute; reflexivity)
                ltac:(vm_compute; reflexivity)) as H.
  vm_compute in H. vm_compute. exact H.
Defined.

(** C4, as stated, fails: the location [1..10] ends beyond the eight
    characters of the record of [sample.gb], and [sequence] returns the
    eight characters instead of raising. *)
Lemma range_past_end_returns_truncated :
  Sequence (record_of "sample.gb") = "AAACCGGG"
  /\ spanline (feature_of "sample.gb" 5) = "1..10"
  /\ _sequence (feature_of "sample.gb" 5) = []
  /\ fst (sequence (record_of "sample.gb") (feature_of "sample.gb" 5))
     = Ok ("AAACCGGG" : str).
Proof. by_evaluation. Qed.

Section ReversedRange.

Variables d1 d2 : str.
Hypothesis Hd1 : number d1.
Hypothesis Hd2 : number d2.

Lemma range_text_no_space :
  forallb (fun c => negb (is_space c)) (d1 ++ ".." ++ d2) = true.
Proof.
  destruct Hd1 as [_ H1], Hd2 as [_ H2].
  assert (D : forall d, forallb is_digit d = true ->
                        forallb (fun c => negb (is_space c)) d = true).
  { intros d H. rewrite forallb_forall in *. intros x Hx.
    now rewrite (digit_not_space x (H x Hx)). }
  rewrite !forallb_app, (D _ H1), (D _ H2). reflexivity.
Qed.

(** [set_span] keeps a range as it is written. *)
Lemma set_span_range (self : GBFeature) :
  set_span self (d1 ++ ".." ++ d2)
  = mkGBFeature (type self) (d1 ++ ".." ++ d2) (fuzzyboundary self)
                (meta self) (_sequence self).
Proof.
  unfold set_span, strip. rewrite (strip_by_clean _ _ range_text_no_space).
  change (list_ascii_of_string " ") with [" "%char].
  change (list_ascii_of_string "<") with ["<"%char].
  change (list_ascii_of_string ">") with [">"%char].
  rewrite replace_single_absent
    by (now apply (range_text_mem d1 d2 Hd1 Hd2)).
  rewrite !contains_single.
  rewrite !(range_text_mem d1 d2 Hd1 Hd2) by reflexivity.
  reflexivity.
Qed.

Lemma nativise_range :
  _nativise ("(" ++ (d1 ++ ".." ++ d2) ++ ")")
  = Ok [(int_of d1 - 1, int_of d2)].
Proof.
  apply (nativise_ranges (d1, d2) []).
  constructor; [split; assumption | constructor].
Qed.

End ReversedRange.

(** C5, as amended.  For every range [start..end] of two numbers with
    [start > end], parsing does not fail and swaps nothing: [set_span]
    stores the text as written, [_nativise] gives the pair
    [[start-1, end]] in the order written, and [sequence] on a feature
    not yet cached returns the empty string. *)
Theorem reversed_range_is_accepted
  (parent : GenbankFile) (self0 self : GBFeature) (d1 d2 : str)
  (cache : bool) :
  number d1 -> number d2 ->
  int_of d2 < int_of d1 ->
  spanline (set_span self0 (d1 ++ ".." ++ d2)) = d1 ++ ".." ++ d2
  /\ _nativise ("(" ++ (d1 ++ ".." ++ d2) ++ ")")
     = Ok [(int_of d1 - 1, int_of d2)]
  /\ (spanline self = d1 ++ ".." ++ d2 ->
      _sequence self = [] ->
      cache_sequences parent = Some cache ->
      fst (sequence parent self) = Ok []).
Proof.
  intros H1 H2 Hlt. split; [|split].
  - now rewrite set_span_range.
  - now apply nativise_range.
  - intros Hs Hc Hp.
    pose proof (int_of_nonneg d2 H2) as Hn.
    assert (E : py_slice (Sequence parent) (int_of d1 - 1) (int_of d2) = [])
      by (apply py_slice_reversed; lia).
    rewrite <- E.
    apply (sequence_range parent d1 d2 H1 H2 self cache); auto.
    rewrite E. reflexivity.
Qed.

Lemma reversed_range_is_accepted_witness :
  number "7" /\ number "3" /\ int_of "3" < int_of "7"
  /\ _nativise "(7..3)" = Ok [(6, 3)]
  /\ fst (sequence (record_of "sample.gb") (feature_of "sample.gb" 6))
     = Ok [].
Proof.
  split; [number_tac|]. split; [number_tac|].
  split; [reflexivity|].
  pose proof (reversed_range_is_accepted (record_of "sample.gb")
                (feature_of "sample.gb" 6) (feature_of "sample.gb" 6)
                "7" "3" true
                ltac:(number_tac) ltac:(number_tac) ltac:(reflexivity))
    as [_ [Hn Hq]].
  split; [exact Hn|].
  apply Hq; vm_compute; reflexivity.
Defined.

(** C5, as stated, fails: the feature block with the location [7..3] is
    accepted by [GBFeature.__init__], which stores the location as
    written, and [_nativise] builds the pair [[6, 3]] from it. *)
Lemma reversed_range_parses :
  exists f,
    GBFeature_init ["     gene            7..3" : str] = Ok (f, [])
    /\ spanline f = "7..3"
    /\ _nativise "(7..3)" = Ok [(6, 3)].
Proof.
  eexists. split; [vm_compute; reflexivity|]. split; reflexivity.
Qed.

Section Operators.

Lemma nth_error_last {A} (d x : A) (l : list A) :
  nth_error (x :: l) (length l) = Some (last (x :: l) d).
Proof.
  revert x. induction l as [|y l IH]; intros x; [reflexivity|].
  cbn [length nth_error]. rewrite IH. reflexivity.
Qed.

(** [l[len(l)-1]] is the last item. *)
Lemma py_getitem_last {A} (x : A) (l : list A) :
  py_getitem (x :: l) (Z.of_nat (length (x :: l)) - 1)
  = Ok (last (x :: l) x).
Proof.
  unfold py_getitem. cbn [length]. rewrite Nat2Z.inj_succ.
  replace (Z.succ (Z.of_nat (length l)) - 1) with (Z.of_nat (length l))
    by lia.
  destruct (Z.of_nat (length l) <? 0) eqn:E1;
    [apply Z.ltb_lt in E1; lia|].
  rewrite E1.
  destruct (Z.succ (Z.of_nat (length l)) <=? Z.of_nat (length l)) eqn:E2;
    [apply Z.leb_le in E2; lia|].
  cbn [orb]. rewrite Nat2Z.id, (nth_error_last x). reflexivity.
Qed.

Lemma last_bounds (d : str * str) (l : list (str * str)) :
  last (map bounds l) (bounds d) = bounds (last l d).
Proof.
  induction l as [|q l IH]; [reflexivity|].
  cbn [map]. destruct l as [|r l]; [reflexivity|].
  exact IH.
Qed.

Lemma gb_funcs_join (parent : GenbankFile) :
  gb_funcs parent "join" = Ok (_gb_join parent).
Proof. reflexivity. Qed.

Lemma gb_funcs_order (parent : GenbankFile) :
  gb_funcs parent "order" = Ok (_gb_order parent).
Proof. reflexivity. Qed.

(** [_gb_join] on a list of ranges: their slices, one after the other. *)
Lemma gb_join_ranges (parent : GenbankFile) (p : str * str)
  (l : list (str * str)) :
  Forall numbers (p :: l) ->
  _gb_join parent ("(" ++ ranges_text (p :: l) ++ ")")
  = Ok (slices (Sequence parent) (p :: l)).
Proof.
  intros H. unfold _gb_join. rewrite (nativise_ranges p l H).
  cbn [rbind]. unfold slices. now rewrite map_map.
Qed.

(** [_gb_order] on a list of ranges: the span from the first start to the
    last end, or [NotImplementedError] where that end lies before that
    start. *)
Lemma gb_order_ranges (parent : GenbankFile) (p : str * str)
  (l : list (str * str)) :
  Forall numbers (p :: l) ->
  _gb_order parent ("(" ++ ranges_text (p :: l) ++ ")")
  = if snd (bounds (last (p :: l) p)) <? fst (bounds p)
    then Raise NotImplementedError
    else Ok (py_slice (Sequence parent) (fst (bounds p))
                      (snd (bounds (last (p :: l) p)))).
Proof.
  intros H. unfold _gb_order. rewrite (nativise_ranges p l H).
  cbn [rbind map]. rewrite py_getitem_0. cbn [rbind].
  rewrite py_getitem_last. cbn [rbind].
  change (bounds p :: map bounds l) with (map bounds (p :: l)).
  rewrite last_bounds. reflexivity.
Qed.

Lemma range_char_absent (x : ascii) (s : str) :
  range_char x = false -> forallb range_char s = true -> mem x s = false.
Proof.
  intros Hx. induction s as [|c s IH]; simpl; auto.
  intros H. apply andb_prop in H. destruct H as [Hc Hs].
  rewrite (IH Hs), orb_false_r.
  destruct (Ascii.eqb x c) eqn:E; auto.
  apply Ascii.eqb_eq in E. congruence.
Qed.

Variable parent : GenbankFile.
Variable kw : str.
Hypothesis Hkw : kw = "join" \/ kw = "order".
Variable p : str * str.
Variable l : list (str * str).
Hypothesis Hl : Forall numbers (p :: l).

Let body : str := ranges_text (p :: l).
Let call : str := kw ++ "(" ++ body ++ ")".

Lemma call_mem (x : ascii) :
  range_char x = false -> mem x "joinorder()" = false ->
  mem x call = false.
Proof.
  intros Hx Hk. unfold call. rewrite !mem_app.
  rewrite (range_char_absent x body Hx (ranges_text_chars _ Hl)).
  simpl in Hk. repeat (apply orb_false_elim in Hk; destruct Hk as [? Hk]).
  destruct Hkw as [-> | ->]; simpl;
    repeat match goal with E : Ascii.eqb _ _ = false |- _ =>
      rewrite E; clear E end;
    reflexivity.
Qed.

Lemma call_not_numeric : isnumeric call = false.
Proof. unfold call. destruct Hkw as [-> | ->]; reflexivity. Qed.

Lemma body_range_class : forallb range_class body = true.
Proof.
  pose proof (ranges_text_chars _ Hl) as H.
  rewrite forallb_forall in *. intros x Hx.
  now destruct (range_char_plain x (H x Hx)) as [_ [_ ->]].
Qed.

Lemma body_nonempty : body <> [].
Proof.
  inversion Hl; subst. now apply ranges_text_nonempty.
Qed.

(** [materialise] on a [join] or an [order] of ranges: the one call is
    resolved by [func] and its text gives way to the result. *)
Lemma materialise_call (self : GBFeature) (func : str -> result str) :
  gb_funcs parent kw = Ok func ->
  spanline self = call ->
  materialise parent self
  = (returnseq <- func ("(" ++ body ++ ")") ;;
     returnseq <-
       rfold (resolve_call hybrid_funcs) (gb_func_finder_2 returnseq)
             returnseq ;;
     _ <- check_iupac returnseq ;; Ok returnseq).
Proof.
  intros Hf Hs. unfold materialise. rewrite Hs.
  change (list_ascii_of_string ":") with [":"%char].
  change (list_ascii_of_string "<") with ["<"%char].
  change (list_ascii_of_string ">") with [">"%char].
  change (list_ascii_of_string "^") with ["^"%char].
  rewrite contains_single, call_mem by reflexivity.
  rewrite (replace_single_absent "<") by (now apply call_mem).
  rewrite (replace_single_absent ">") by (now apply call_mem).
  rewrite (replace_single_absent "^") by (now apply call_mem).
  change (gb_func_finder call)
    with (gb_func_finder (kw ++ "(" ++ body ++ ")")).
  rewrite (gb_func_finder_call kw body Hkw body_nonempty body_range_class).
  cbn [rfold]. unfold resolve_call at 1. cbn [fst snd].
  rewrite Hf. cbn [rbind].
  destruct (func ("(" ++ body ++ ")")) as [content|e];
    cbn [rbind]; [|reflexivity].
  assert (E : replace (kw ++ "(" ++ body ++ ")") content call = content).
  { apply (replace_whole call content). unfold call.
    destruct Hkw as [-> | ->]; discriminate. }
  rewrite E. reflexivity.
Qed.

(** [sequence] on a feature not yet cached whose location is such a
    call, where the call is resolved to a string of the alphabet. *)
Lemma sequence_call (self : GBFeature) (func : str -> result str)
  (cache : bool) (content : str) :
  gb_funcs parent kw = Ok func ->
  spanline self = call ->
  _sequence self = [] ->
  cache_sequences parent = Some cache ->
  func ("(" ++ body ++ ")") = Ok content ->
  iupac content ->
  fst (sequence parent self) = Ok content.
Proof.
  intros Hf Hs Hc Hp Hr Hi. unfold sequence.
  rewrite Hc, Hs, call_not_numeric, <- Hs.
  rewrite (materialise_call self func Hf Hs), Hr. cbn [rbind].
  unfold gb_func_finder_2.
  rewrite findall_go_no_paren by (now apply iupac_no_paren).
  cbn [rfold rbind]. rewrite (check_iupac_ok _ Hi). cbn [rbind].
  rewrite Hp. now destruct cache.
Qed.

(** ... and where resolving the call raises. *)
Lemma sequence_call_raises (self : GBFeature) (func : str -> result str)
  (e : exn) :
  gb_funcs parent kw = Ok func ->
  spanline self = call ->
  _sequence self = [] ->
  func ("(" ++ body ++ ")") = Raise e ->
  fst (sequence parent self) = Raise e.
Proof.
  intros Hf Hs Hc Hr. unfold sequence.
  rewrite Hc, Hs, call_not_numeric, <- Hs.
  rewrite (materialise_call self func Hf Hs), Hr. reflexivity.
Qed.

End Operators.

(** C3, as amended.  For every non-empty list of ranges and features not
    yet cached, [join(...)] of the ranges evaluates to the concatenation,
    in the order written, of their slices of the record sequence, and
    [order(...)] of the same ranges evaluates to the single slice from
    the start of the first range to the end of the last, with all that
    lies between, and raises [NotImplementedError] where the end of the
    last range lies before the 0-based start of the first; each result
    is returned provided its characters are in the alphabet
    [iupac_characters].  For a single range the concatenation and the
    slice are the same string. *)
Theorem order_spans_first_to_last
  (parent : GenbankFile) (self_join self_order : GBFeature)
  (p : str * str) (l : list (str * str)) (cache : bool) :
  Forall numbers (p :: l) ->
  spanline self_join = "join(" ++ ranges_text (p :: l) ++ ")" ->
  spanline self_order = "order(" ++ ranges_text (p :: l) ++ ")" ->
  _sequence self_join = [] ->
  _sequence self_order = [] ->
  cache_sequences parent = Some cache ->
  let startbase := int_of (fst p) - 1 in
  let finishbase := int_of (snd (last (p :: l) p)) in
  (iupac (slices (Sequence parent) (p :: l)) ->
   fst (sequence parent self_join) = Ok (slices (Sequence parent) (p :: l)))
  /\ (finishbase < startbase ->
      fst (sequence parent self_order) = Raise NotImplementedError)
  /\ (startbase <= finishbase ->
      iupac (py_slice (Sequence parent) startbase finishbase) ->
      fst (sequence parent self_order)
      = Ok (py_slice (Sequence parent) startbase finishbase))
  /\ (l = [] ->
      slices (Sequence parent) (p :: l)
      = py_slice (Sequence parent) startbase finishbase).
Proof.
  intros Hl Hsj Hso Hcj Hco Hp startbase finishbase.
  pose proof (gb_order_ranges parent p l Hl) as Ho.
  change (snd (bounds (last (p :: l) p))) with finishbase in Ho.
  change (fst (bounds p)) with startbase in Ho.
  split; [|split; [|split]].
  - intros Hi.
    apply (sequence_call parent "join" (or_introl eq_refl) p l Hl
             self_join (_gb_join parent) cache); auto.
    now apply gb_join_ranges.
  - intros Hlt. apply Z.ltb_lt in Hlt. rewrite Hlt in Ho.
    now apply (sequence_call_raises parent "order" (or_intror eq_refl)
                 p l Hl self_order (_gb_order parent)).
  - intros Hle Hi.
    destruct (finishbase <? startbase) eqn:E;
      [apply Z.ltb_lt in E; lia|].
    now apply (sequence_call parent "order" (or_intror eq_refl) p l Hl
                 self_order (_gb_order parent) cache).
  - intros El. subst l finishbase startbase. unfold slices.
    cbn [map concat last bounds fst snd]. apply app_nil_r.
Qed.

Lemma order_spans_first_to_last_witness :
  Forall numbers [("1" : str, "3" : str); ("5" : str, "7" : str)]
  /\ fst (sequence (record_of "sample.gb") (feature_of "sample.gb" 4))
     = Ok ("AAACGG" : str)
  /\ fst (sequence (record_of "sample.gb") (feature_of "sample.gb" 3))
     = Ok ("AAACCGG" : str).
Proof.
  assert (H : Forall numbers
                [("1" : str, "3" : str); ("5" : str, "7" : str)]).
  { repeat constructor; discriminate. }
  split; [exact H|].
  pose proof (order_spans_first_to_last (record_of "sample.gb")
                (feature_of "sample.gb" 4) (feature_of "sample.gb" 3)
                ("1" : str, "3" : str) [("5" : str, "7" : str)] true H
                ltac:(vm_compute; reflexivity)
                ltac:(vm_compute; reflexivity)
                ltac:(vm_compute; reflexivity)
                ltac:(vm_compute; reflexivity)
                ltac:(vm_compute; reflexivity)) as [Hj [_ [Hq _]]].
  cbv zeta in Hq.
  specialize (Hj ltac:(vm_compute; reflexivity)).
  specialize (Hq ltac:(vm_compute; discriminate)
                 ltac:(vm_compute; reflexivity)).
  vm_compute in Hj, Hq. split; vm_compute; assumption.
Defined.

(** C3, as stated, fails: on the record of [sample.gb], [order(1..3,5..7)]
    gives [AAACCGG], with the base between the two ranges, where
    [join(1..3,5..7)] gives [AAACGG]; and [order(5..7,1..3)] raises
    where [join(5..7,1..3)] returns. *)
Lemma order_differs_from_join :
  spanline (feature_of "sample.gb" 3) = "order(1..3,5..7)"
  /\ spanline (feature_of "sample.gb" 4) = "join(1..3,5..7)"
  /\ fst (sequence (record_of "sample.gb") (feature_of "sample.gb" 3))
     = Ok ("AAACCGG" : str)
  /\ fst (sequence (record_of "sample.gb") (feature_of "sample.gb" 4))
     = Ok ("AAACGG" : str)
  /\ spanline (feature_of "sample.gb" 8) = "order(5..7,1..3)"
  /\ spanline (feature_of "sample.gb" 9) = "join(5..7,1..3)"
  /\ fst (sequence (record_of "sample.gb") (feature_of "sample.gb" 8))
     = Raise NotImplementedError
  /\ fst (sequence (record_of "sample.gb") (feature_of "sample.gb" 9))
     = Ok ("CGGAAA" : str).
Proof. by_evaluation. Qed.

(** C6, as amended.  On the record sequence [AAACCGGG] the location
    [complement(join(1..3,5..7))] evaluates to [CCGTTT], in three stages:
    the first pass finds the inner [join], which yields [AAA] and [CGG],
    that is [AAACGG]; the second pass finds [complement(AAACGG)]; and
    its reverse complement is [CCGTTT]. *)
Theorem complement_join_three_stages :
  Sequence (record_of "sample.gb") = "AAACCGGG"
  /\ spanline (feature_of "sample.gb" 2) = "complement(join(1..3,5..7))"
  /\ gb_func_finder "complement(join(1..3,5..7))"
     = [("join" : str, "(1..3,5..7)" : str)]
  /\ _gb_join (record_of "sample.gb") "(1..3,5..7)" = Ok ("AAACGG" : str)
  /\ gb_func_finder_2 "complement(AAACGG)"
     = [("complement" : str, "(AAACGG)" : str)]
  /\ _complement "(AAACGG)" = Ok ("CCGTTT" : str)
  /\ fst (sequence (record_of "sample.gb") (feature_of "sample.gb" 2))
     = Ok ("CCGTTT" : str).
Proof. by_evaluation. Qed.

(** C6, as stated, fails: positions 5 to 7 of [AAACCGGG] read [CGG], so
    the inner join is not [AAAGGG] and the result is not [CCCTTT]. *)
Lemma complement_join_is_not_CCCTTT :
  py_slice (Sequence (record_of "sample.gb")) 4 7 = "CGG"
  /\ _gb_join (record_of "sample.gb") "(1..3,5..7)" <> Ok ("AAAGGG" : str)
  /\ fst (sequence (record_of "sample.gb") (feature_of "sample.gb" 2))
     <> Ok ("CCCTTT" : str).
Proof.
  split; [vm_compute; reflexivity|].
  split; vm_compute; discriminate.
Qed.

(** C1.  The code at a feature block with two [db_xref] lines: the
    qualifier holds one string, the value of the second line; the value of
    the first line is overwritten and no list of length two is built. *)
Theorem repeated_qualifier_keeps_last_value :
  exists f,
    GBFeature_init two_xref_block = Ok (f, [])
    /\ meta f = [("db_xref" : str, "GI:2" : str)]
    /\ dict_get "db_xref" (meta f) = Ok ("GI:2" : str).
Proof.
  eexists. split; [vm_compute; reflexivity|]. split; reflexivity.
Qed.

(** Whatever the feature and the two values, a second [name=value] stored
    under the name of a first leaves the qualifiers as if the first had
    not been there. *)
Lemma store_meta_overwrites (self : GBFeature) (k : str) (v1 v2 : str) :
  dict_set k v2 (dict_set k v1 (meta self)) = dict_set k v2 (meta self).
Proof. apply dict_set_twice. Qed.

(** C2.  The code at a text given as [file_contents]: for every non-empty
    text nothing is parsed and the record is the empty one, while the
    same text read from a path is parsed. *)
Theorem text_blob_is_left_unparsed :
  (forall read_file text file_name cache,
     truthy (Some text) = true ->
     GenbankFile_init read_file (Some text) file_name cache
     = (Ok (set_cache empty_record cache), []))
  /\ fst (GenbankFile_init sample_files (Some sample_text) None true)
     = Ok (set_cache empty_record true)
  /\ fst (GenbankFile_init sample_files None (Some ("sample.gb" : str)) true)
     = Ok (record_of "sample.gb")
  /\ Sequence (record_of "sample.gb") = "AAACCGGG"
  /\ length (Features (record_of "sample.gb")) = 10%nat
  /\ Sequence (set_cache empty_record true) = [].
Proof.
  split.
  - intros read_file text file_name cache H.
    unfold GenbankFile_init. rewrite H. reflexivity.
  - by_evaluation.
Qed.

(** Neither a path nor a text: [ValueError] at construction. *)
Lemma neither_path_nor_text_raises (read_file : str -> option str)
  (cache : bool) :
  GenbankFile_init read_file None None cache = (Raise ValueError, []).
Proof. reflexivity. Qed.

(** * Further properties of the parser *)

(** ** [sequence]: the branches before the operators *)

Section SequenceEdges.

Lemma number_isnumeric (d : str) : number d -> isnumeric d = true.
Proof.
  intros [Hne H]. unfold isnumeric. destruct d as [|c d]; [congruence|].
  rewrite forallb_forall in *. intros x Hx. unfold is_numeric_char.
  now rewrite (H x Hx).
Qed.

Lemma forallb_mem_false (f : ascii -> bool) (c : ascii) (s : str) :
  mem c s = true -> f c = false -> forallb f s = false.
Proof.
  intros Hm Hf. induction s as [|x s IH]; simpl in *; [discriminate|].
  apply orb_prop in Hm. destruct Hm as [Hm|Hm].
  - apply Ascii.eqb_eq in Hm. subst x. now rewrite Hf.
  - rewrite (IH Hm). apply andb_false_r.
Qed.

(** [l[i]] within the list. *)
Lemma py_getitem_inside {A} (l : list A) (i : Z) :
  0 <= i < Z.of_nat (length l) ->
  exists a, nth_error l (Z.to_nat i) = Some a /\ py_getitem l i = Ok a.
Proof.
  intros [Hlo Hhi]. unfold py_getitem.
  destruct (i <? 0) eqn:E1; [apply Z.ltb_lt in E1; lia|]. rewrite E1.
  destruct (Z.of_nat (length l) <=? i) eqn:E2;
    [apply Z.leb_le in E2; lia|].
  cbn [orb].
  destruct (nth_error l (Z.to_nat i)) as [a|] eqn:E.
  - exists a. auto.
  - apply nth_error_None in E. lia.
Qed.

(** [l[i]] past the end. *)
Lemma py_getitem_beyond {A} (l : list A) (i : Z) :
  Z.of_nat (length l) <= i -> py_getitem l i = Raise IndexError.
Proof.
  intros H. unfold py_getitem.
  destruct (i <? 0) eqn:E1; [apply Z.ltb_lt in E1; lia|]. rewrite E1.
  destruct (Z.of_nat (length l) <=? i) eqn:E2; [reflexivity|].
  apply Z.leb_gt in E2. lia.
Qed.

(** [l[-1]] is the last item. *)
Lemma py_getitem_minus_one {A} (l : list A) (a : A) :
  py_getitem (l ++ [a]) (-1) = Ok a.
Proof.
  unfold py_getitem. cbn [Z.ltb Z.compare].
  rewrite length_app. cbn [length]. rewrite Nat2Z.inj_add.
  replace (-1 + (Z.of_nat (length l) + Z.of_nat 1)) with (Z.of_nat (length l))
    by lia.
  destruct (Z.of_nat (length l) <? 0) eqn:E1;
    [apply Z.ltb_lt in E1; lia|].
  destruct (Z.of_nat (length l) + Z.of_nat 1 <=? Z.of_nat (length l)) eqn:E2;
    [apply Z.leb_le in E2; lia|].
  cbn [orb]. rewrite Nat2Z.id, nth_error_app2 by lia.
  now rewrite Nat.sub_diag.
Qed.

End SequenceEdges.

(** X1.  A location that is one number [n] with [1 <= n <= len(sequence)]
    gives the one character at the 0-based index [n-1]: it is returned as
    it is, with no check of the alphabet, and the feature is left
    unchanged, whatever the cache flag. *)
Theorem single_position_returns_one_character
  (parent : GenbankFile) (self : GBFeature) (d : str) :
  number d ->
  spanline self = d ->
  _sequence self = [] ->
  1 <= int_of d <= Z.of_nat (length (Sequence parent)) ->
  exists c,
    nth_error (Sequence parent) (Z.to_nat (int_of d - 1)) = Some c
    /\ sequence parent self = (Ok [c], self).
Proof.
  intros Hd Hs Hc Hr.
  destruct (py_getitem_inside (Sequence parent) (int_of d - 1)) as [c [Hn Hg]];
    [lia|].
  exists c. split; [exact Hn|].
  unfold sequence. rewrite Hc, Hs, (number_isnumeric d Hd).
  rewrite (py_int_number d Hd). cbn [rbind]. rewrite Hg. reflexivity.
Qed.

Lemma single_position_returns_one_character_witness :
  number "4"
  /\ exists c,
      nth_error ("AXGT" : str) (Z.to_nat (int_of "4" - 1)) = Some c
      /\ sequence (record_of "foreign.gb")
           (mkGBFeature "gene" "4" None [] [])
         = (Ok [c], mkGBFeature "gene" "4" None [] []).
Proof.
  split; [number_tac|].
  apply (single_position_returns_one_character (record_of "foreign.gb")
           (mkGBFeature "gene" "4" None [] []) "4");
    [number_tac | reflexivity | reflexivity | vm_compute; split; discriminate].
Defined.

(** X2.  A location that is one number beyond the length of the record
    sequence raises [IndexError]: unlike a range, a single position is
    not clamped. *)
Theorem single_position_past_end_raises
  (parent : GenbankFile) (self : GBFeature) (d : str) :
  number d ->
  spanline self = d ->
  _sequence self = [] ->
  Z.of_nat (length (Sequence parent)) < int_of d ->
  sequence parent self = (Raise IndexError, self).
Proof.
  intros Hd Hs Hc Hr. unfold sequence.
  rewrite Hc, Hs, (number_isnumeric d Hd), (py_int_number d Hd).
  cbn [rbind]. rewrite py_getitem_beyond by lia. reflexivity.
Qed.

Lemma single_position_past_end_raises_witness :
  number "9"
  /\ sequence (record_of "sample.gb") (mkGBFeature "gene" "9" None [] [])
     = (Raise IndexError, mkGBFeature "gene" "9" None [] []).
Proof.
  split; [number_tac|].
  apply (single_position_past_end_raises (record_of "sample.gb")
           (mkGBFeature "gene" "9" None [] []) "9");
    [number_tac | reflexivity | reflexivity | vm_compute; reflexivity].
Defined.

(** X3.  The location [0] (any number that denotes zero) wraps around:
    on a non-empty record sequence it gives the last character, through
    the index [-1]. *)
Theorem single_position_zero_is_last
  (parent : GenbankFile) (self : GBFeature) (d : str) (s : str) (c : ascii) :
  number d ->
  int_of d = 0 ->
  spanline self = d ->
  _sequence self = [] ->
  Sequence parent = s ++ [c] ->
  sequence parent self = (Ok [c], self).
Proof.
  intros Hd Hz Hs Hc Hp. unfold sequence.
  rewrite Hc, Hs, (number_isnumeric d Hd), (py_int_number d Hd).
  cbn [rbind]. rewrite Hz, Hp.
  change (0 - 1) with (-1). rewrite py_getitem_minus_one. reflexivity.
Qed.

Lemma single_position_zero_is_last_witness :
  number "00" /\ int_of "00" = 0
  /\ sequence (record_of "sample.gb") (mkGBFeature "gene" "00" None [] [])
     = (Ok ("G" : str), mkGBFeature "gene" "00" None [] []).
Proof.
  split; [number_tac|]. split; [reflexivity|].
  apply (single_position_zero_is_last (record_of "sample.gb")
           (mkGBFeature "gene" "00" None [] []) "00" "AAACCGG" "G"%char);
    [number_tac | reflexivity | reflexivity | reflexivity
    | vm_compute; reflexivity].
Defined.

(** X4.  A location that holds a colon, the mark of a reference to another
    accession, raises [NotImplementedError] on a feature not yet cached,
    whatever else it holds, and leaves the feature unchanged. *)
Theorem cross_reference_raises
  (parent : GenbankFile) (self : GBFeature) :
  mem ":" (spanline self) = true ->
  _sequence self = [] ->
  sequence parent self = (Raise NotImplementedError, self).
Proof.
  intros Hm Hc. unfold sequence. rewrite Hc.
  assert (Hn : isnumeric (spanline self) = false).
  { unfold isnumeric. destruct (spanline self) as [|x s] eqn:E;
      [reflexivity|].
    now apply (forallb_mem_false is_numeric_char ":"). }
  rewrite Hn. unfold materialise.
  change (list_ascii_of_string ":") with [":"%char].
  rewrite contains_single, Hm. reflexivity.
Qed.

Lemma cross_reference_raises_witness :
  mem ":" ("J00194.1:100..202" : str) = true
  /\ sequence (record_of "sample.gb")
       (mkGBFeature "gene" "J00194.1:100..202" None [] [])
     = (Raise NotImplementedError,
        mkGBFeature "gene" "J00194.1:100..202" None [] []).
Proof.
  split; [reflexivity|].
  apply (cross_reference_raises (record_of "sample.gb")
           (mkGBFeature "gene" "J00194.1:100..202" None [] []));
    reflexivity.
Defined.

Section Caret.

Lemma replace_single_once (c : ascii) (new a b : str) :
  mem c a = false -> mem c b = false ->
  replace [c] new (a ++ c :: b) = a ++ new ++ b.
Proof.
  intros Ha Hb. unfold replace. induction a as [|x a IH]; simpl.
  - rewrite Ascii.eqb_refl. simpl. f_equal.
    now apply (replace_single_absent c new b).
  - apply mem_false_cons in Ha. destruct Ha as [Hx Ha].
    rewrite Hx. simpl. f_equal. now apply IH.
Qed.

Variables d1 d2 : str.
Hypothesis Hd1 : number d1.
Hypothesis Hd2 : number d2.

Lemma caret_text_mem (x : ascii) :
  mem x "+-.:<>(),_=/ " = true -> mem x (d1 ++ "^" ++ d2) = false.
Proof.
  intros Hx. destruct Hd1 as [_ H1], Hd2 as [_ H2].
  assert (Hx' : mem x "+-.:<>^(),_=/ " = true).
  { simpl in *. repeat (apply orb_prop in Hx; destruct Hx as [Hx|Hx];
      [rewrite Hx; repeat rewrite orb_true_r; reflexivity|]).
    discriminate. }
  rewrite !mem_app, (digits_not_mem x d1 Hx' H1), (digits_not_mem x d2 Hx' H2).
  simpl. destruct (Ascii.eqb x "^") eqn:E; auto.
  apply Ascii.eqb_eq in E. subst x. discriminate.
Qed.

Lemma caret_text_not_numeric : isnumeric (d1 ++ "^" ++ d2) = false.
Proof.
  unfold isnumeric. destruct (d1 ++ "^" ++ d2) eqn:E; [reflexivity|].
  rewrite <- E. rewrite forallb_app. simpl. apply andb_false_r.
Qed.

Lemma materialise_caret (parent : GenbankFile) (self : GBFeature) :
  spanline self = d1 ++ "^" ++ d2 ->
  materialise parent self
  = materialise parent
      (mkGBFeature (type self) (d1 ++ ".." ++ d2) (fuzzyboundary self)
                   (meta self) (_sequence self)).
Proof.
  intros Hs.
  rewrite (materialise_range parent d1 d2 Hd1 Hd2
             (mkGBFeature (type self) (d1 ++ ".." ++ d2)
                (fuzzyboundary self) (meta self) (_sequence self)) eq_refl).
  unfold materialise. rewrite Hs.
  change (list_ascii_of_string ":") with [":"%char].
  change (list_ascii_of_string "<") with ["<"%char].
  change (list_ascii_of_string ">") with [">"%char].
  change (list_ascii_of_string "^") with ["^"%char].
  rewrite contains_single, caret_text_mem by reflexivity.
  rewrite (replace_single_absent "<") by (now apply caret_text_mem).
  rewrite (replace_single_absent ">") by (now apply caret_text_mem).
  unfold gb_func_finder.
  rewrite findall_go_no_paren
    by (apply (caret_text_mem "("); reflexivity).
  change (d1 ++ ["^"%char] ++ d2) with (d1 ++ "^"%char :: d2).
  rewrite replace_single_once
    by (apply digits_not_mem; [reflexivity | apply Hd1 || apply Hd2]).
  rewrite (resolve_plain_range parent d1 d2 Hd1 Hd2). reflexivity.
Qed.

End Caret.

(** X5.  A location [a^b], which names the site between two bases, is
    read as the range [a..b]: on a feature not yet cached [sequence]
    gives for it what it gives for [a..b], that is the slice
    [a-1 : b] of the record sequence when its characters are in the
    alphabet. *)
Theorem caret_is_read_as_range
  (parent : GenbankFile) (self : GBFeature) (d1 d2 : str) (cache : bool) :
  number d1 -> number d2 ->
  spanline self = d1 ++ "^" ++ d2 ->
  _sequence self = [] ->
  cache_sequences parent = Some cache ->
  let range_feature :=
    mkGBFeature (type self) (d1 ++ ".." ++ d2) (fuzzyboundary self)
                (meta self) [] in
  fst (sequence parent self) = fst (sequence parent range_feature)
  /\ (iupac (py_slice (Sequence parent) (int_of d1 - 1) (int_of d2)) ->
      fst (sequence parent self)
      = Ok (py_slice (Sequence parent) (int_of d1 - 1) (int_of d2))).
Proof.
  intros H1 H2 Hs Hc Hp range_feature.
  assert (E : fst (sequence parent self)
              = fst (sequence parent range_feature)).
  { subst range_feature. unfold sequence.
    rewrite Hc, Hs. cbn [_sequence spanline].
    rewrite (caret_text_not_numeric d1 d2).
    rewrite (range_text_not_numeric d1 d2 H1), <- Hs.
    rewrite (materialise_caret d1 d2 H1 H2 parent self Hs), Hc.
    destruct (materialise parent _); [|reflexivity].
    rewrite Hp. now destruct cache. }
  split; [exact E|].
  intros Hi. rewrite E.
  now apply (sequence_range parent d1 d2 H1 H2 range_feature cache).
Qed.

Lemma caret_is_read_as_range_witness :
  number "3" /\ number "4"
  /\ fst (sequence (record_of "sample.gb")
            (mkGBFeature "misc_feature" "3^4" None [] []))
     = Ok ("AC" : str).
Proof.
  split; [number_tac|]. split; [number_tac|].
  pose proof (caret_is_read_as_range (record_of "sample.gb")
                (mkGBFeature "misc_feature" "3^4" None [] []) "3" "4" true
                ltac:(number_tac) ltac:(number_tac)
                ltac:(reflexivity) ltac:(reflexivity)
                ltac:(vm_compute; reflexivity)) as [_ H].
  specialize (H ltac:(vm_compute; reflexivity)).
  vm_compute in H. vm_compute. exact H.
Defined.

(** ** [sequence]: the exceptions it raises *)

Section Exceptions.

Lemma raises_in_bind (P : exn -> bool) {A B} (r : result A)
  (k : A -> result B) :
  raises_in P r -> (forall a, r = Ok a -> raises_in P (k a)) ->
  raises_in P (rbind r k).
Proof.
  destruct r as [a|e]; simpl; auto.
Qed.

Lemma raises_in_weaken (P Q : exn -> bool) {A} (r : result A) :
  (forall e, P e = true -> Q e = true) -> raises_in P r -> raises_in Q r.
Proof. destruct r; simpl; auto. Qed.

Lemma raises_in_rmap (P : exn -> bool) {A B} (f : A -> result B)
  (l : list A) :
  (forall a, raises_in P (f a)) -> raises_in P (rmap f l).
Proof.
  intros H. induction l as [|a l IH]; simpl; auto.
  apply raises_in_bind; auto. intros b _.
  apply raises_in_bind; auto. intros bs _. exact I.
Qed.

Lemma raises_in_rfold (P : exn -> bool) {A B} (f : B -> A -> result B)
  (l : list A) (b : B) :
  (forall b a, In a l -> raises_in P (f b a)) -> raises_in P (rfold f l b).
Proof.
  revert b. induction l as [|a l IH]; intros b H; simpl; auto.
  apply raises_in_bind.
  - apply H. now left.
  - intros b' _. apply IH. intros b0 a0 Hin. apply H. now right.
Qed.

Lemma py_int_raises (s : str) : raises_in is_evaluation_error (py_int s).
Proof.
  unfold py_int.
  destruct (match strip s with [] => None | _ => _ end); exact I || reflexivity.
Qed.

Lemma py_getitem_raises {A} (l : list A) (i : Z) :
  raises_in is_evaluation_error (py_getitem l i).
Proof.
  unfold py_getitem.
  destruct (_ || _); [reflexivity|].
  destruct (nth_error l _); exact I || reflexivity.
Qed.

Lemma nativise_raises (s : str) :
  raises_in is_evaluation_error (_nativise s).
Proof.
  unfold _nativise. apply raises_in_rmap. intros sub.
  unfold nativise_one.
  apply raises_in_bind; [apply raises_in_rmap, py_int_raises|]. intros ints _.
  apply raises_in_bind; [apply py_getitem_raises|]. intros a _.
  apply raises_in_bind; [apply py_getitem_raises|]. intros b _. exact I.
Qed.

Lemma complement_base_raises (t : list (ascii * ascii)) (c : ascii) :
  raises_in is_evaluation_error (complement_base_in t c).
Proof.
  induction t as [|[a b] t IH]; simpl; [reflexivity|].
  destruct (Ascii.eqb c a); [exact I | exact IH].
Qed.

Lemma get_complement_raises (s : str) :
  raises_in is_evaluation_error (get_complement s).
Proof.
  unfold get_complement. destruct (_ && _); [reflexivity|].
  apply raises_in_bind.
  - apply raises_in_rmap. intros c. apply complement_base_raises.
  - intros cs _. exact I.
Qed.

Lemma gb_join_raises (parent : GenbankFile) (s : str) :
  raises_in is_evaluation_error (_gb_join parent s).
Proof.
  unfold _gb_join. apply raises_in_bind; [apply nativise_raises|].
  intros r _. exact I.
Qed.

Lemma gb_complement_raises (parent : GenbankFile) (s : str) :
  raises_in is_evaluation_error (_gb_complement parent s).
Proof.
  unfold _gb_complement. apply raises_in_bind; [apply nativise_raises|].
  intros r _. apply raises_in_bind; [apply py_getitem_raises|].
  intros c _. apply get_complement_raises.
Qed.

Lemma gb_order_raises (parent : GenbankFile) (s : str) :
  raises_in is_evaluation_error (_gb_order parent s).
Proof.
  unfold _gb_order. apply raises_in_bind; [apply nativise_raises|].
  intros r _. apply raises_in_bind; [apply py_getitem_raises|].
  intros a _. apply raises_in_bind; [apply py_getitem_raises|].
  intros b _. destruct (_ <? _); [reflexivity | exact I].
Qed.

(** The keyword of a match is one of the three of the pattern. *)
Lemma match_call_keyword (cls : ascii -> bool) (kw s : str) (m : str * str) :
  match_call cls kw s = Some m -> fst m = kw.
Proof.
  unfold match_call. destruct (prefix kw s); [|discriminate].
  destruct (skipn (length kw) s) as [|c r]; [discriminate|].
  destruct (Ascii.eqb c "("); [|discriminate].
  destruct (takewhile cls r); [discriminate|].
  destruct (dropwhile cls r) as [|d r']; [discriminate|].
  destruct (Ascii.eqb d ")"); [|discriminate].
  intros E. inversion E. reflexivity.
Qed.

Lemma match_at_keyword (cls : ascii -> bool) (kws : list str) (s : str)
  (m : str * str) :
  match_at cls kws s = Some m -> In (fst m) kws.
Proof.
  induction kws as [|kw kws IH]; simpl; [discriminate|].
  destruct (match_call cls kw s) as [m'|] eqn:E.
  - intros E'. inversion E'. subst m'. left.
    symmetry. eapply match_call_keyword; eauto.
  - intros H. right. auto.
Qed.

Lemma findall_go_keywords (cls : ascii -> bool) (k : nat) (s : str)
  (m : str * str) :
  In m (findall_go cls k s) -> In (fst m) gb_keywords.
Proof.
  revert k. induction s as [|x s IH]; intros k; cbn [findall_go];
    [intros []|].
  destruct k; [|apply IH].
  destruct (match_at cls gb_keywords (x :: s)) as [[kw arg]|] eqn:E.
  - intros [<-|Hin]; [|eapply IH; eauto].
    apply (match_at_keyword _ _ _ _ E).
  - apply IH.
Qed.

(** Both tables hold a function for each of the three keywords. *)
Lemma gb_funcs_total (parent : GenbankFile) (kw : str) :
  In kw gb_keywords ->
  exists f, gb_funcs parent kw = Ok f
            /\ forall arg, raises_in is_evaluation_error (f arg).
Proof.
  intros [<-|[<-|[<-|[]]]].
  - exists (_gb_join parent). split; [reflexivity | apply gb_join_raises].
  - exists (_gb_complement parent).
    split; [reflexivity | apply gb_complement_raises].
  - exists (_gb_order parent). split; [reflexivity | apply gb_order_raises].
Qed.

Lemma hybrid_funcs_total (kw : str) :
  In kw gb_keywords ->
  exists f, hybrid_funcs kw = Ok f
            /\ forall arg, raises_in is_evaluation_error (f arg).
Proof.
  intros [<-|[<-|[<-|[]]]].
  - exists _join. split; [reflexivity | intros arg; exact I].
  - exists _complement. split; [reflexivity|].
    intros arg. apply get_complement_raises.
  - exists _order. split; [reflexivity | intros arg; reflexivity].
Qed.

Lemma resolve_call_raises (funcs : str -> result (str -> result str))
  (returnseq : str) (func_call : str * str) :
  (exists f, funcs (fst func_call) = Ok f
             /\ forall arg, raises_in is_evaluation_error (f arg)) ->
  raises_in is_evaluation_error (resolve_call funcs returnseq func_call).
Proof.
  intros [f [Hf Hr]]. unfold resolve_call. rewrite Hf. cbn [rbind].
  apply raises_in_bind; [apply Hr|]. intros c _. exact I.
Qed.

Lemma pop_empty_raises (copy l : list str) :
  raises_in is_evaluation_error (pop_empty copy l).
Proof.
  revert l. induction copy as [|x copy IH]; intros l; simpl; [exact I|].
  destruct x; [|apply IH].
  destruct (index_of [] l); [apply IH | reflexivity].
Qed.

Lemma resolve_plain_raises (parent : GenbankFile) (s : str) :
  raises_in is_evaluation_error (resolve_plain parent s).
Proof.
  unfold resolve_plain.
  apply raises_in_bind; [apply pop_empty_raises|]. intros l _.
  apply raises_in_bind; [apply raises_in_rmap, py_int_raises|]. intros zs _.
  apply raises_in_bind; [apply py_getitem_raises|]. intros i0 _.
  destruct (set_nth 0 (i0 - 1) zs); [exact I|].
  apply raises_in_bind; [apply py_getitem_raises|]. intros a _.
  apply raises_in_bind; [apply py_getitem_raises|]. intros b _. exact I.
Qed.

Lemma materialise_raises (parent : GenbankFile) (self : GBFeature) :
  raises_in is_evaluation_error (materialise parent self).
Proof.
  unfold materialise. destruct (contains ":" (spanline self)); [reflexivity|].
  apply raises_in_bind.
  - destruct (gb_func_finder (spanline self)) as [|m ms] eqn:E.
    + apply resolve_plain_raises.
    + apply raises_in_bind.
      * apply raises_in_rfold. intros b a Hin.
        apply resolve_call_raises, gb_funcs_total.
        apply (findall_go_keywords range_class 0 (spanline self)).
        unfold gb_func_finder in E. now rewrite E.
      * intros rs _. apply raises_in_rfold. intros b a Hin.
        apply resolve_call_raises, hybrid_funcs_total.
        now apply (findall_go_keywords base_class 0 rs).
  - intros rs _. apply raises_in_bind.
    + unfold check_iupac. destruct (forallb _ _); [exact I | reflexivity].
    + intros _ _. exact I.
Qed.

End Exceptions.

(** X6.  Whatever the record and the feature, an exception out of
    [sequence] is a [ValueError], an [IndexError], a
    [NotImplementedError] or one of the two errors of the complement;
    the look-ups in the two tables of operators never fail, so it is
    never a [KeyError], nor a [TypeError]; an [AttributeError] comes only
    from a record without the key [cache_sequences]. *)
Theorem sequence_raises_only_evaluation_errors
  (parent : GenbankFile) (self : GBFeature) (e : exn) :
  fst (sequence parent self) = Raise e ->
  (In e [ValueError; IndexError; NotImplementedError;
         MixedAlphabetError; InvalidNucleotide]
   \/ (e = AttributeError /\ cache_sequences parent = None))
  /\ e <> KeyError /\ e <> TypeError.
Proof.
  intros H.
  assert (C : is_evaluation_error e = true
              \/ (e = AttributeError /\ cache_sequences parent = None)).
  { unfold sequence in H.
    destruct (_sequence self); [|discriminate].
    destruct (isnumeric (spanline self)).
    - cbn [fst] in H. left.
      assert (R : raises_in is_evaluation_error
                    (i <- py_int (spanline self) ;;
                     c <- py_getitem (Sequence parent) (i - 1) ;; Ok [c])).
      { apply raises_in_bind; [apply py_int_raises|]. intros i _.
        apply raises_in_bind; [apply py_getitem_raises|]. intros c _.
        exact I. }
      rewrite H in R. exact R.
    - pose proof (materialise_raises parent self) as R.
      destruct (materialise parent self) as [rs|e'].
      + destruct (cache_sequences parent) as [[|]|]; cbn [fst] in H;
          try discriminate.
        right. split; congruence.
      + cbn [fst] in H. left. inversion H. subst e'. exact R. }
  destruct C as [C|[-> C]].
  - destruct e; try discriminate; repeat split; try discriminate;
      left; simpl; tauto.
  - repeat split; try discriminate. right. auto.
Qed.

Lemma sequence_raises_only_evaluation_errors_witness :
  fst (sequence (record_of "sample.gb") (feature_of "sample.gb" 8))
  = Raise NotImplementedError
  /\ NotImplementedError <> KeyError.
Proof.
  split; [vm_compute; reflexivity|].
  apply (sequence_raises_only_evaluation_errors (record_of "sample.gb")
           (feature_of "sample.gb" 8) NotImplementedError).
  vm_compute. reflexivity.
Defined.

(** ** [GBFeature.__init__]: what it stores and how it fails *)

Section FeatureInit.

(** The look-up of a line of the copy in the list never fails: the part
    of the list not yet visited is the part of the copy still to come. *)
Lemma index_of_app_found (line x : str) (pre rest : list str) :
  exists k pre',
    index_of line (pre ++ line :: rest) = Some k
    /\ set_nth k x (pre ++ line :: rest) = pre' ++ rest.
Proof.
  induction pre as [|y pre IH]; cbn [app index_of].
  - rewrite str_eqb_refl. exists O, [x]. auto.
  - destruct (str_eqb line y) eqn:E.
    + exists O, (x :: pre ++ [line]). split; [reflexivity|].
      cbn [set_nth app]. now rewrite <- app_assoc.
    + destruct IH as [k [pre' [Hk Hs]]]. rewrite Hk.
      exists (S k), (y :: pre'). split; [reflexivity|].
      cbn [set_nth app]. now rewrite Hs.
Qed.

Lemma mark_meta_raises (line : str) :
  raises_in is_index_error (mark_meta line).
Proof.
  unfold mark_meta. destruct (strip line) as [|c r] eqn:E.
  - rewrite py_getitem_nil. reflexivity.
  - rewrite py_getitem_0. cbn [rbind]. destruct (Ascii.eqb c "/"); exact I.
Qed.

Lemma mark_lines_raises (copy pre : list str) :
  raises_in is_index_error (mark_lines copy (pre ++ copy)).
Proof.
  revert pre. induction copy as [|line copy IH]; intros pre; [exact I|].
  cbn [mark_lines].
  pose proof (mark_meta_raises line) as Hm.
  destruct (mark_meta line) as [line'|e] eqn:E.
  - destruct (index_of_app_found line line' pre copy)
      as [k [pre' [Hk Hs]]].
    rewrite Hk. cbn [rbind]. rewrite Hs. apply IH.
  - destruct (index_of_app_found line [] pre copy) as [k [_ [Hk _]]].
    rewrite Hk. cbn [rbind]. exact Hm.
Qed.

Lemma py_getitem_index_error {A} (l : list A) (i : Z) :
  raises_in is_index_error (py_getitem l i).
Proof.
  unfold py_getitem.
  destruct (_ || _); [reflexivity|].
  destruct (nth_error l _); exact I || reflexivity.
Qed.

Lemma feature_pieces_raises (list_of_lines : list str) :
  raises_in is_index_error (feature_pieces list_of_lines).
Proof.
  unfold feature_pieces.
  apply raises_in_bind; [apply py_getitem_index_error|]. intros line0 _.
  apply raises_in_bind; [apply py_getitem_index_error|]. intros ftype _.
  apply raises_in_bind; [|intros; exact I].
  apply (mark_lines_raises _ []).
Qed.

Lemma mem_space_squeezed (s : str) : mem " " (replace " " "" s) = false.
Proof.
  change (list_ascii_of_string " ") with [" "%char].
  change (list_ascii_of_string "") with (@nil ascii).
  rewrite replace_single_delete. apply mem_filter_same.
Qed.

Lemma set_span_no_space (self : GBFeature) (span_line : str) :
  mem " " (spanline (set_span self span_line)) = false.
Proof.
  unfold set_span.
  destruct (_ || _); cbn [spanline]; [|apply mem_space_squeezed].
  change (list_ascii_of_string "<") with ["<"%char].
  change (list_ascii_of_string ">") with [">"%char].
  change (replace [">"%char] "" (replace ["<"%char] "" ?x))
    with (replace [">"%char] [] (replace ["<"%char] [] x)).
  change (@nil ascii) with (list_ascii_of_string "") at 1.
  change (list_ascii_of_string "") with (@nil ascii).
  rewrite !replace_single_delete.
  rewrite !mem_filter_other by reflexivity. apply mem_space_squeezed.
Qed.

End FeatureInit.

(** X7.  Whatever the feature block, the location text that
    [GBFeature.__init__] stores holds no space and neither of the markers
    [<] and [>], and the constructor prints nothing. *)
Theorem stored_location_is_squeezed
  (list_of_lines : list str) (f : GBFeature) (out : list message) :
  GBFeature_init list_of_lines = Ok (f, out) ->
  mem " " (spanline f) = false
  /\ mem "<" (spanline f) = false
  /\ mem ">" (spanline f) = false
  /\ out = [].
Proof.
  unfold GBFeature_init.
  destruct (feature_pieces list_of_lines) as [[ftype pieces]|e];
    cbn [rbind]; [|discriminate].
  destruct pieces as [|span_line metavals].
  - rewrite py_getitem_nil. discriminate.
  - rewrite py_getitem_0. cbn [rbind skipn]. intros H.
    set (self := set_span (mkGBFeature ftype [] None [] []) span_line) in *.
    destruct (store_metas_silent metavals self) as [Ho [_ Hs]].
    inversion H as [E]. rewrite E in Ho, Hs. cbn [fst snd] in Ho, Hs.
    rewrite Hs. unfold self.
    destruct (set_span_no_marker (mkGBFeature ftype [] None [] []) span_line)
      as [Hlt Hgt].
    repeat split; auto. apply set_span_no_space.
Qed.

Lemma stored_location_is_squeezed_witness :
  GBFeature_init ["     gene            < 1 .. > 3" : str]
  = Ok (mkGBFeature "gene" "1..3" (Some true) [] [], [])
  /\ mem " " ("1..3" : str) = false.
Proof.
  split; [vm_compute; reflexivity|].
  apply (stored_location_is_squeezed ["     gene            < 1 .. > 3" : str]
           (mkGBFeature "gene" "1..3" (Some true) [] []) []).
  vm_compute. reflexivity.
Defined.

(** X8.  Whatever the feature block, [GBFeature.__init__] raises nothing
    but [IndexError]: the look-up [list_of_lines.index(line)] of its
    first loop always finds the line, so no [ValueError] comes out of it,
    and neither [set_span] nor [store_meta] raises. *)
Theorem feature_init_raises_only_index_error
  (list_of_lines : list str) (e : exn) :
  GBFeature_init list_of_lines = Raise e -> e = IndexError.
Proof.
  unfold GBFeature_init. intros H.
  pose proof (feature_pieces_raises list_of_lines) as R.
  destruct (feature_pieces list_of_lines) as [[ftype pieces]|e'];
    cbn [rbind] in H.
  - pose proof (py_getitem_index_error pieces 0) as R'.
    destruct (py_getitem pieces 0); cbn [rbind] in H; [discriminate|].
    inversion H. subst e0. destruct e; try discriminate. reflexivity.
  - inversion H. subst e'. destruct e; try discriminate. reflexivity.
Qed.

Lemma feature_init_raises_only_index_error_witness :
  GBFeature_init [] = Raise IndexError /\ IndexError = IndexError.
Proof.
  split; [reflexivity|].
  apply (feature_init_raises_only_index_error []). reflexivity.
Defined.

(** X9.  A feature block whose first line holds the feature type alone,
    the location standing on the next line, is refused with
    [IndexError]: the first line is left empty and its first character is
    asked for. *)
Theorem type_alone_on_first_line_raises
  (line0 ftype : str) (rest : list str) :
  split_ws (strip line0) = [ftype] ->
  GBFeature_init (line0 :: rest) = Raise IndexError.
Proof.
  intros H. unfold GBFeature_init, feature_pieces.
  rewrite py_getitem_0. cbn [rbind]. rewrite H, py_getitem_0.
  cbn [rbind skipn join set_nth mark_lines index_of].
  rewrite str_eqb_refl. reflexivity.
Qed.

Lemma type_alone_on_first_line_raises_witness :
  split_ws (strip "     gene") = ["gene" : str]
  /\ GBFeature_init ["     gene" : str; "                     1..3" : str]
     = Raise IndexError.
Proof.
  split; [reflexivity|].
  apply (type_alone_on_first_line_raises "     gene" "gene"
           ["                     1..3" : str]).
  reflexivity.
Defined.

(** ** [store_meta]: what a qualifier becomes *)

Section StoreMeta.

Lemma dict_get_set_other {V} (k k' : str) (v : V) (d : list (str * V)) :
  k' <> k -> dict_get k' (dict_set k v d) = dict_get k' d.
Proof.
  intros H. induction d as [|[k0 v0] d IH]; simpl.
  - now rewrite (str_eqb_neq k' k H).
  - destruct (str_eqb k k0) eqn:E; simpl.
    + apply str_eqb_eq in E. subst k0.
      now rewrite (str_eqb_neq k' k H).
    + destruct (str_eqb k' k0); auto.
Qed.

Lemma split_equals_two (a b : str) :
  mem "=" a = false -> mem "=" b = false ->
  split "=" (a ++ "=" ++ b) = [a; b].
Proof.
  intros Ha Hb.
  change (list_ascii_of_string "=") with ["="%char].
  change (a ++ ["="%char] ++ b) with (a ++ "="%char :: b).
  rewrite split_single by assumption.
  now rewrite split_single_absent.
Qed.

Lemma split_equals_three (a b c : str) :
  mem "=" a = false -> mem "=" b = false -> mem "=" c = false ->
  split "=" (a ++ "=" ++ b ++ "=" ++ c) = [a; b; c].
Proof.
  intros Ha Hb Hc.
  change (list_ascii_of_string "=") with ["="%char].
  change (a ++ ["="%char] ++ b ++ ["="%char] ++ c)
    with (a ++ "="%char :: (b ++ "="%char :: c)).
  rewrite split_single by assumption.
  rewrite split_single by assumption.
  now rewrite split_single_absent.
Qed.

(** The pieces of [s.split()] hold no white space. *)
Lemma split_ws_go_clean (s cur : str) :
  forallb (fun c => negb (is_space c)) cur = true ->
  Forall (fun piece => forallb (fun c => negb (is_space c)) piece = true)
         (split_ws_go cur s).
Proof.
  revert cur. induction s as [|c s IH]; intros cur Hcur; simpl.
  - destruct cur; constructor; [|constructor].
    rewrite forallb_forall in *. intros x Hx. apply Hcur.
    now apply in_rev.
  - destruct (is_space c) eqn:E.
    + destruct cur as [|c0 cur]; [now apply IH|].
      constructor; [|now apply IH].
      rewrite forallb_forall in *. intros x Hx. apply Hcur.
      now apply in_rev.
    + apply IH. simpl. now rewrite E.
Qed.

Lemma join_empty_clean (P : ascii -> bool) (l : list str) :
  Forall (fun piece => forallb P piece = true) l ->
  forallb P (join "" l) = true.
Proof.
  induction l as [|x l IH]; intros H; [reflexivity|].
  inversion H as [|? ? Hx Hl]; subst.
  destruct l as [|y l]; [exact Hx|].
  change (join "" (x :: y :: l)) with (x ++ [] ++ join "" (y :: l)).
  rewrite !forallb_app, Hx, (IH Hl). reflexivity.
Qed.

End StoreMeta.

(** X10.  A qualifier [name=value] with one [=] is stored and found
    again: under the trimmed name stands the trimmed value (white space,
    then slashes, backslashes, double quotes and parentheses taken from
    both ends), and every other name answers as before.  (The name
    [translation] apart, see X12.) *)
Theorem qualifier_stored_is_found
  (self : GBFeature) (name value : str) :
  mem "=" name = false -> mem "=" value = false ->
  trimmed name <> "translation" ->
  let self' := fst (store_meta self (name ++ "=" ++ value)) in
  dict_get (trimmed name) (meta self') = Ok (trimmed value)
  /\ (forall k, k <> trimmed name ->
                dict_get k (meta self') = dict_get k (meta self)).
Proof.
  intros Hn Hv Ht self'.
  assert (E : meta self'
              = dict_set (trimmed name) (trimmed value) (meta self)).
  { subst self'. unfold store_meta, store_meta_try.
    rewrite (split_equals_two name value Hn Hv), py_getitem_0.
    cbn [rbind map skipn join]. fold (trimmed name) (trimmed value).
    rewrite (str_eqb_neq _ _ Ht). reflexivity. }
  rewrite E. split; [apply dict_get_set|].
  intros k Hk. now apply dict_get_set_other.
Qed.

Lemma qualifier_stored_is_found_witness :
  mem "=" ("gene" : str) = false
  /\ dict_get "gene"
       (meta (fst (store_meta (mkGBFeature "CDS" "1..3" None [] [])
                     ("gene" ++ "=" ++ quoted "lacZ" ++ " "))))
     = Ok ("lacZ" : str).
Proof.
  split; [reflexivity|].
  apply (qualifier_stored_is_found (mkGBFeature "CDS" "1..3" None [] [])
           "gene" (quoted "lacZ" ++ " "));
    [reflexivity | reflexivity | vm_compute; discriminate].
Defined.

(** X11.  In a value that holds an [=] itself, each side of that [=] is
    trimmed on its own before the two are put together again: the white
    space and the quotes that stood against the inner [=] are lost. *)
Theorem inner_equals_is_squeezed
  (self : GBFeature) (name v1 v2 : str) :
  mem "=" name = false -> mem "=" v1 = false -> mem "=" v2 = false ->
  trimmed name <> "translation" ->
  dict_get (trimmed name)
    (meta (fst (store_meta self (name ++ "=" ++ v1 ++ "=" ++ v2))))
  = Ok (trimmed v1 ++ "=" ++ trimmed v2).
Proof.
  intros Hn H1 H2 Ht.
  unfold store_meta, store_meta_try.
  rewrite (split_equals_three name v1 v2 Hn H1 H2), py_getitem_0.
  cbn [rbind map skipn join]. fold (trimmed name) (trimmed v1) (trimmed v2).
  rewrite (str_eqb_neq _ _ Ht). cbn [fst meta]. apply dict_get_set.
Qed.

Lemma inner_equals_is_squeezed_witness :
  mem "=" ("note" : str) = false
  /\ dict_get "note"
       (meta (fst (store_meta (mkGBFeature "CDS" "1..3" None [] [])
                     ("note" ++ "=" ++ (dquote :: "k ") ++ "="
                      ++ (" v" ++ [dquote])))))
     = Ok ("k=v" : str).
Proof.
  split; [reflexivity|].
  apply (inner_equals_is_squeezed (mkGBFeature "CDS" "1..3" None [] [])
           "note" (dquote :: "k ") (" v" ++ [dquote]));
    [reflexivity | reflexivity | reflexivity | vm_compute; discriminate].
Defined.

(** X12.  The value of the qualifier [translation] is stored without any
    white space: the pieces between the runs of white space, put
    together. *)
Theorem translation_is_stored_without_white_space
  (self : GBFeature) (name value : str) :
  mem "=" name = false -> mem "=" value = false ->
  trimmed name = "translation" ->
  let stored := join "" (split_ws (trimmed value)) in
  dict_get "translation"
    (meta (fst (store_meta self (name ++ "=" ++ value))))
  = Ok stored
  /\ forallb (fun c => negb (is_space c)) stored = true.
Proof.
  intros Hn Hv Ht stored. split.
  - unfold store_meta, store_meta_try.
    rewrite (split_equals_two name value Hn Hv), py_getitem_0.
    cbn [rbind map skipn join]. fold (trimmed name) (trimmed value).
    rewrite Ht, str_eqb_refl. cbn [fst meta]. apply dict_get_set.
  - subst stored. apply join_empty_clean. unfold split_ws.
    now apply split_ws_go_clean.
Qed.

Lemma translation_is_stored_without_white_space_witness :
  trimmed "translation" = "translation"
  /\ dict_get "translation"
       (meta (fst (store_meta (mkGBFeature "CDS" "1..3" None [] [])
                     ("translation" ++ "=" ++ quoted "MKV LAA  GT"))))
     = Ok ("MKVLAAGT" : str).
Proof.
  split; [reflexivity|].
  pose proof (translation_is_stored_without_white_space
                (mkGBFeature "CDS" "1..3" None [] [])
                "translation" (quoted "MKV LAA  GT")
                ltac:(reflexivity) ltac:(reflexivity) ltac:(reflexivity))
    as [H _].
  vm_compute in H. vm_compute. exact H.
Defined.

(** * Further properties of the record *)

(** ** [extract_indent_blocks]: the blocks of a text *)

Section IndentBlocks.

Lemma extract_indent_blocks_fold (text : str) :
  extract_indent_blocks text
  = blocks_of (fold_left indent_step (splitlines (strip text)) ([], [])).
Proof.
  unfold extract_indent_blocks, blocks_of.
  destruct (fold_left indent_step _ _) as [bs [|l b]]; reflexivity.
Qed.

(** One turn of the loop: a blank line changes nothing, another line goes
    to the end of the lines kept so far. *)
Lemma indent_step_lines (st : list (list str) * list str) (line : str) :
  concat (blocks_of (indent_step st line))
  = concat (blocks_of st) ++ (if nonblank line then [line] else []).
Proof.
  destruct st as [bs b]. unfold indent_step, nonblank.
  destruct line as [|c line]; [now rewrite app_nil_r|].
  destruct (strip (c :: line)) as [|c' s']; [now rewrite app_nil_r|].
  destruct b as [|l b].
  - unfold blocks_of. cbn [snd fst app]. now rewrite concat_app.
  - destruct (negb (Ascii.eqb c " ")); unfold blocks_of; cbn [snd fst app].
    + rewrite !concat_app. reflexivity.
    + rewrite !concat_app. cbn [concat]. rewrite !app_nil_r.
      now rewrite <- !app_assoc.
Qed.

Lemma fold_indent_step_lines (lines : list str)
  (st : list (list str) * list str) :
  concat (blocks_of (fold_left indent_step lines st))
  = concat (blocks_of st) ++ filter nonblank lines.
Proof.
  revert st. induction lines as [|line lines IH]; intros st; cbn [fold_left filter].
  - now rewrite app_nil_r.
  - rewrite IH, indent_step_lines.
    destruct (nonblank line); [|now rewrite app_nil_r].
    now rewrite <- app_assoc.
Qed.

Lemma well_cut_app (l1 l2 : list (list str)) :
  well_cut l1 -> well_cut l2 -> well_cut (l1 ++ l2).
Proof.
  intros [A1 B1] [A2 B2]. split; rewrite forallb_app.
  - now rewrite A1, A2.
  - now rewrite B1, B2.
Qed.

Lemma well_cut_app_inv (l1 l2 : list (list str)) :
  well_cut (l1 ++ l2) -> well_cut l1 /\ well_cut l2.
Proof.
  intros [A B]. rewrite forallb_app in A, B.
  apply andb_true_iff in A, B. destruct A, B. repeat split; assumption.
Qed.

Lemma indent_step_well_cut (bs : list (list str)) (l : str) (b : list str)
  (line : str) :
  well_cut (blocks_of (bs, l :: b)) ->
  exists bs' l' b',
    indent_step (bs, l :: b) line = (bs', l' :: b')
    /\ well_cut (blocks_of (bs', l' :: b')).
Proof.
  intros H. unfold indent_step.
  destruct line as [|c line]; [now exists bs, l, b|].
  destruct (strip (c :: line)) as [|c' s'] eqn:E; [now exists bs, l, b|].
  unfold blocks_of in H. cbn [snd fst] in H.
  destruct (Ascii.eqb c " ") eqn:Ec; cbn [negb].
  - exists bs, l, (b ++ [c :: line]). split; [reflexivity|].
    unfold blocks_of. cbn [snd fst app].
    apply well_cut_app_inv in H. destruct H as [H1 [H2 H3]].
    apply well_cut_app; [assumption|].
    cbn [forallb block_shape opens_unindented] in H2, H3.
    split; cbn [forallb block_shape opens_unindented]; [|assumption].
    rewrite forallb_app. cbn [forallb starts_with_space]. rewrite Ec.
    rewrite andb_true_r in *. now rewrite H2.
  - exists (bs ++ [l :: b]), (c :: line), []. split; [reflexivity|].
    unfold blocks_of. cbn [snd fst].
    apply well_cut_app; [assumption|].
    split; cbn [forallb block_shape opens_unindented starts_with_space];
      [reflexivity|].
    unfold nonblank. rewrite E, Ec. reflexivity.
Qed.

Lemma fold_indent_step_well_cut (lines : list str) (bs : list (list str))
  (l : str) (b : list str) :
  well_cut (blocks_of (bs, l :: b)) ->
  well_cut (blocks_of (fold_left indent_step lines (bs, l :: b))).
Proof.
  revert bs l b. induction lines as [|line lines IH]; intros bs l b H;
    cbn [fold_left]; [assumption|].
  destruct (indent_step_well_cut bs l b line H) as [bs' [l' [b' [E H']]]].
  rewrite E. now apply IH.
Qed.

(** The first line of a text without leading white space starts with the
    first character of the text. *)
Lemma splitlines_go_head (s cur : str) (after_cr : bool) (c : ascii) :
  exists more rest,
    splitlines_go after_cr (cur ++ [c]) s = (c :: more) :: rest.
Proof.
  revert cur after_cr. induction s as [|x s IH]; intros cur after_cr.
  - cbn [splitlines_go]. destruct (cur ++ [c]) eqn:E.
    + destruct cur; discriminate.
    + rewrite <- E, rev_app_distr. cbn [rev app]. eauto.
  - cbn [splitlines_go].
    destruct (after_cr && (code x =? 10)%nat); [apply IH|].
    destruct (is_linebreak x).
    + rewrite rev_app_distr. cbn [rev app]. eauto.
    + apply (IH (x :: cur)).
Qed.

Lemma is_linebreak_space (c : ascii) : is_linebreak c = true -> is_space c = true.
Proof. by_ascii c. Qed.

Lemma dropwhile_app_stop (p : ascii -> bool) (s : str) (c : ascii) :
  p c = false -> exists s', dropwhile p (s ++ [c]) = s' ++ [c].
Proof.
  intros H. induction s as [|x s IH]; cbn [app dropwhile].
  - rewrite H. now exists [].
  - destruct (p x); [assumption|]. now exists (x :: s).
Qed.

Lemma strip_head (s : str) :
  strip s = [] \/ exists c r, strip s = c :: r /\ is_space c = false.
Proof.
  unfold strip, strip_by, lstrip_by, rstrip_by.
  destruct (dropwhile is_space s) as [|c r] eqn:E; [now left|].
  right.
  assert (Hc : is_space c = false).
  { clear -E. induction s as [|x s IH]; [discriminate|].
    cbn [dropwhile] in E. destruct (is_space x) eqn:Ex; [auto|].
    congruence. }
  destruct (dropwhile_app_stop is_space (rev r) c Hc) as [s' Hs'].
  cbn [rev]. rewrite Hs', rev_app_distr. cbn [rev app]. eauto.
Qed.

Lemma nonblank_head (c : ascii) (s : str) :
  is_space c = false -> nonblank (c :: s) = true.
Proof.
  intros Hc. unfold nonblank, strip, strip_by, lstrip_by, rstrip_by.
  cbn [dropwhile]. rewrite Hc.
  destruct (dropwhile_app_stop is_space (rev s) c Hc) as [s' Hs'].
  cbn [rev]. rewrite Hs', rev_app_distr. reflexivity.
Qed.

Lemma space_is_space (c : ascii) : Ascii.eqb c " " = true -> is_space c = true.
Proof. by_ascii c. Qed.

(** The lines of a stripped text: none, or a first line that is not blank
    and does not start with a space. *)
Lemma splitlines_strip_head (text : str) :
  splitlines (strip text) = []
  \/ exists l rest,
       splitlines (strip text) = l :: rest
       /\ opens_unindented [l] = true.
Proof.
  destruct (strip_head text) as [E|[c [r [E Hc]]]]; rewrite E; [now left|].
  right. unfold splitlines. cbn [splitlines_go].
  destruct (is_linebreak c) eqn:El.
  { apply is_linebreak_space in El. congruence. }
  cbn [andb].
  destruct (splitlines_go_head r [] false c) as [more [rest H]].
  cbn [app] in H. rewrite H. exists (c :: more), rest.
  split; [reflexivity|].
  cbn [opens_unindented starts_with_space].
  rewrite (nonblank_head c more Hc).
  destruct (Ascii.eqb c " ") eqn:Es; [|reflexivity].
  apply space_is_space in Es. congruence.
Qed.

Lemma extract_indent_blocks_well_cut (text : str) :
  well_cut (extract_indent_blocks text).
Proof.
  rewrite extract_indent_blocks_fold.
  destruct (splitlines_strip_head text) as [E|[l [rest [E H]]]]; rewrite E.
  - split; reflexivity.
  - cbn [fold_left].
    assert (S1 : indent_step ([], []) l = ([], [l])).
    { unfold indent_step. cbn [opens_unindented] in H.
      apply andb_true_iff in H. destruct H as [_ H]. unfold nonblank in H.
      destruct l as [|c l]; [discriminate|].
      destruct (strip (c :: l)); [discriminate|reflexivity]. }
    rewrite S1. apply fold_indent_step_well_cut.
    unfold blocks_of. cbn [snd fst app]. split; [reflexivity|].
    cbn [forallb]. rewrite andb_true_r. exact H.
Qed.

End IndentBlocks.

(** X13.  [extract_indent_blocks] loses no line and keeps the order: the
    lines of its blocks, put end to end, are the lines of the stripped
    text that are not blank. *)
Theorem blocks_hold_the_nonblank_lines (text : str) :
  concat (extract_indent_blocks text)
  = filter nonblank (splitlines (strip text)).
Proof.
  rewrite extract_indent_blocks_fold, fold_indent_step_lines. reflexivity.
Qed.

(** X14.  Every block that [extract_indent_blocks] cuts opens on a line
    that is not blank and does not start with a space, and goes on with
    lines that start with a space; no block is empty. *)
Theorem blocks_open_unindented (text : str) :
  forallb block_shape (extract_indent_blocks text) = true
  /\ forallb opens_unindented (extract_indent_blocks text) = true.
Proof. exact (extract_indent_blocks_well_cut text). Qed.

(** ** The block parsers *)

Section BlockParsers.

Lemma upper_char_not_lower (c : ascii) : is_lower (upper_char c) = false.
Proof. by_ascii c. Qed.

Lemma upper_char_space (c : ascii) :
  Ascii.eqb (upper_char c) " " = Ascii.eqb c " ".
Proof. by_ascii c. Qed.

Lemma upper_clean (s : str) :
  mem " " s = false ->
  forallb (fun c => negb (Ascii.eqb c " ") && negb (is_lower c)) (upper s)
  = true.
Proof.
  induction s as [|c s IH]; [reflexivity|].
  unfold mem. cbn [existsb upper map forallb]. intros H.
  apply orb_false_iff in H. destruct H as [Hc Hs].
  rewrite upper_char_not_lower, upper_char_space.
  rewrite Ascii.eqb_sym, Hc. cbn [negb andb]. now apply IH.
Qed.

Lemma origin_lines_clean (lines : list str) :
  Forall (fun piece =>
            forallb (fun c => negb (Ascii.eqb c " ") && negb (is_lower c))
              piece = true)
         (origin_lines lines).
Proof.
  induction lines as [|line lines IH]; cbn [origin_lines]; [constructor|].
  destruct (strip line) as [|c s]; [assumption|].
  destruct (str_eqb (c :: s) "//"); [constructor|].
  destruct (str_eqb (c :: s) "ORIGIN"); [assumption|].
  constructor; [|assumption].
  apply upper_clean, mem_space_squeezed.
Qed.

Lemma rfold_raises_at {A B} (f : B -> A -> result B) (P : exn -> bool)
  (bad : A -> Prop) (e : exn) :
  (forall b a, raises_in P (f b a)) ->
  (forall b a, bad a -> f b a = Raise e) ->
  forall l b, Exists bad l ->
    exists e', rfold f l b = Raise e' /\ P e' = true.
Proof.
  intros HP Hbad l. induction l as [|a l IH]; intros b Hex.
  - inversion Hex.
  - cbn [rfold]. pose proof (HP b a) as R.
    destruct (f b a) as [b'|e0] eqn:E; cbn [rbind].
    + inversion Hex as [? ? Ha|? ? Hl]; subst.
      * rewrite (Hbad b a Ha) in E. discriminate.
      * now apply IH.
    + exists e0. split; [reflexivity|exact R].
Qed.

Lemma dblink_step_raises (links : list (str * str)) (line : str) :
  raises_in is_index_error (dblink_step links line).
Proof.
  unfold dblink_step.
  apply raises_in_bind; [apply py_getitem_index_error|]. intros k _.
  apply raises_in_bind; [apply py_getitem_index_error|]. intros v _.
  exact I.
Qed.

Lemma dblink_step_no_colon (links : list (str * str)) (line : str) :
  mem ":" line = false -> dblink_step links line = Raise IndexError.
Proof.
  intros H. unfold dblink_step.
  set (l := if contains "DBLINK" (strip line)
            then strip (skipn 6 (strip line)) else strip line).
  assert (Hl : mem ":" l = false).
  { subst l. assert (Hs : mem ":" (strip line) = false).
    { unfold strip. rewrite mem_strip_by by reflexivity. exact H. }
    destruct (contains "DBLINK" (strip line)); [|exact Hs].
    unfold strip at 1. rewrite mem_strip_by by reflexivity.
    destruct (mem ":" (skipn 6 (strip line))) eqn:E; [|reflexivity].
    apply mem_skipn in E. congruence. }
  change (list_ascii_of_string ":") with [":"%char] in *.
  rewrite (split_single_absent _ _ Hl). reflexivity.
Qed.

End BlockParsers.

(** X15.  [process_sequence] never fails and prints nothing, and the
    sequence it stores holds no space and no lower-case letter; nothing
    else of the record changes. *)
Theorem stored_sequence_is_upper_case
  (self : GenbankFile) (origin_block_lines : list str) :
  exists self',
    process_sequence self origin_block_lines = (Ok self', [])
    /\ forallb (fun c => negb (Ascii.eqb c " ") && negb (is_lower c))
         (Sequence self') = true
    /\ Features self' = Features self
    /\ References self' = References self
    /\ Metadata self' = Metadata self.
Proof.
  eexists. split; [reflexivity|]. cbn [Sequence Features References Metadata].
  split; [|auto].
  apply join_empty_clean, origin_lines_clean.
Qed.

(** X16.  A [DBLINK] block with a line that holds no colon is refused
    with [IndexError], wherever the line stands in the block: the part
    after the colon is asked for and is not there. *)
Theorem dblink_line_without_colon_raises
  (self : GenbankFile) (dblink_strings : list str) (line : str) :
  In line dblink_strings -> mem ":" line = false ->
  fst (process_dblink self dblink_strings) = Raise IndexError.
Proof.
  intros Hin Hc. unfold process_dblink.
  destruct (rfold_raises_at dblink_step is_index_error
              (fun l => mem ":" l = false) IndexError
              dblink_step_raises dblink_step_no_colon
              dblink_strings (DBLink (Metadata self))) as [e [E He]].
  { apply Exists_exists. eauto. }
  unfold wlift, wbind. rewrite E. cbn [fst].
  destruct e; try discriminate. reflexivity.
Qed.

Lemma dblink_line_without_colon_raises_witness :
  In ("            PRJNA78" : str)
     ["DBLINK      BioProject: PRJNA78" : str; "            PRJNA78" : str]
  /\ fst (process_dblink empty_record
            ["DBLINK      BioProject: PRJNA78" : str;
             "            PRJNA78" : str])
     = Raise IndexError.
Proof.
  split; [right; left; reflexivity|].
  apply (dblink_line_without_colon_raises empty_record
           ["DBLINK      BioProject: PRJNA78" : str;
            "            PRJNA78" : str]
           "            PRJNA78");
    [right; left; reflexivity | reflexivity].
Defined.

(** ** [process_indent_blocks]: blocks without a parser *)

Section Printing.

Lemma wbind_wret {A B} (a : A) (k : A -> W B) : wbind (wret a) k = k a.
Proof. unfold wbind, wret. destruct (k a). reflexivity. Qed.

Lemma wbind_assoc {A B C} (m : W A) (k : A -> W B) (h : B -> W C) :
  wbind (wbind m k) h = wbind m (fun a => wbind (k a) h).
Proof.
  destruct m as [[a|e] out]; cbn [wbind]; [|reflexivity].
  destruct (k a) as [[b|e] out1]; cbn [wbind]; [|reflexivity].
  destruct (h b) as [r out2]. now rewrite app_assoc.
Qed.

Lemma wfold_app {A B} (f : B -> A -> W B) (l1 l2 : list A) (b : B) :
  wfold f (l1 ++ l2) b = wbind (wfold f l1 b) (wfold f l2).
Proof.
  revert b. induction l1 as [|a l1 IH]; intros b; cbn [app wfold].
  - now rewrite wbind_wret.
  - rewrite wbind_assoc.
    destruct (f b a) as [[b'|e] out]; cbn [wbind]; [|reflexivity].
    rewrite IH. reflexivity.
Qed.

Lemma fst_wbind_ok {A B} (a : A) (out : list message) (k : A -> W B) :
  fst (wbind (Ok a, out) k) = fst (k a).
Proof. cbn [wbind]. destruct (k a). reflexivity. Qed.

Lemma raises_in_wbind (P : exn -> bool) {A B} (m : W A) (k : A -> W B) :
  raises_in P (fst m) ->
  (forall a, raises_in P (fst (k a))) ->
  raises_in P (fst (wbind m k)).
Proof.
  intros Hm Hk. destruct m as [[a|e] out]; cbn [wbind].
  - specialize (Hk a). destruct (k a). exact Hk.
  - exact Hm.
Qed.

Lemma raises_in_wfold (P : exn -> bool) {A B} (f : B -> A -> W B)
  (l : list A) (b : B) :
  (forall b a, raises_in P (fst (f b a))) ->
  raises_in P (fst (wfold f l b)).
Proof.
  intros Hf. revert b. induction l as [|a l IH]; intros b; cbn [wfold].
  - exact I.
  - apply raises_in_wbind; [apply Hf|]. intros b'. apply IH.
Qed.

End Printing.

Section Blocks.

Lemma wfold_cons {A B} (f : B -> A -> W B) (a : A) (l : list A) (b : B) :
  wfold f (a :: l) b = wbind (f b a) (wfold f l).
Proof. reflexivity. Qed.

Lemma indent_block_step_unknown (self : GenbankFile) (line0 word0 : str)
  (rest words : list str) :
  split_ws line0 = word0 :: words ->
  block_parsers (upper (strip word0)) = Raise KeyError ->
  indent_block_step self (line0 :: rest)
  = (Ok self, [NoParserFound (upper (strip word0))]).
Proof.
  intros Hw Hp. unfold indent_block_step.
  rewrite py_getitem_0. unfold wlift at 1. cbn [wbind].
  rewrite Hw, py_getitem_0. unfold wlift. cbn [wbind].
  rewrite Hp. reflexivity.
Qed.

End Blocks.

(** X17.  A block whose first word is a word of ASCII that, in upper
    case, is not the name of a block parser is passed over: the record
    built is the one that the other blocks give, and the first word is
    printed. *)
Theorem unknown_block_is_passed_over
  (self : GenbankFile) (pre post : list (list str))
  (line0 word0 : str) (rest words : list str) :
  split_ws line0 = word0 :: words ->
  forallb is_ascii word0 = true ->
  block_parsers (upper (strip word0)) = Raise KeyError ->
  fst (process_indent_blocks self (pre ++ (line0 :: rest) :: post))
  = fst (process_indent_blocks self (pre ++ post))
  /\ (forall s out,
        process_indent_blocks self pre = (Ok s, out) ->
        In (NoParserFound (upper (strip word0)))
           (snd (process_indent_blocks self
                   (pre ++ (line0 :: rest) :: post)))).
Proof.
  intros Hw _ Hp. unfold process_indent_blocks. rewrite !wfold_app.
  destruct (wfold indent_block_step pre self) as [[s|e] out] eqn:E.
  - split.
    + rewrite !fst_wbind_ok, wfold_cons.
      rewrite (indent_block_step_unknown s _ _ _ _ Hw Hp), fst_wbind_ok.
      reflexivity.
    + intros s' out' _. cbn [wbind]. rewrite wfold_cons.
      rewrite (indent_block_step_unknown s _ _ _ _ Hw Hp). cbn [wbind].
      destruct (wfold indent_block_step post s) as [r o]. cbn [snd].
      apply in_or_app. right. left. reflexivity.
  - split; [reflexivity|]. intros s out' H. discriminate.
Qed.

Lemma unknown_block_is_passed_over_witness :
  split_ws "PRIMARY     REFSEQ_SPAN" = ["PRIMARY" : str; "REFSEQ_SPAN" : str]
  /\ forallb is_ascii "PRIMARY" = true
  /\ fst (process_indent_blocks empty_record
            [["LOCUS       SAMPLE 8 bp DNA" : str];
             ["PRIMARY     REFSEQ_SPAN" : str; "            1-8" : str];
             ["ORIGIN" : str; "        1 aaaccggg" : str]])
     = fst (process_indent_blocks empty_record
              [["LOCUS       SAMPLE 8 bp DNA" : str];
               ["ORIGIN" : str; "        1 aaaccggg" : str]]).
Proof.
  split; [vm_compute; reflexivity|].
  split; [vm_compute; reflexivity|].
  pose proof (unknown_block_is_passed_over empty_record
                [["LOCUS       SAMPLE 8 bp DNA" : str]]
                [["ORIGIN" : str; "        1 aaaccggg" : str]]
                "PRIMARY     REFSEQ_SPAN" "PRIMARY"
                ["            1-8" : str] ["REFSEQ_SPAN" : str]
                ltac:(vm_compute; reflexivity)
                ltac:(vm_compute; reflexivity)
                ltac:(vm_compute; reflexivity)) as [H _].
  exact H.
Defined.

(** ** [GBReference]: the range and the sequence *)

Section TopLine.

Lemma process_topline_range (self : GBReference) (line : str)
  (r : GBReference) (out : list message) :
  contains " (bases" line = true ->
  process_topline self line = (Ok r, out) ->
  exists a b, range r = Some (a, b) /\ seqrange r = Some [a - 1; b - 1].
Proof.
  intros Hc. unfold process_topline. rewrite Hc.
  repeat match goal with
  | |- context [wlift ?x] =>
      destruct x; unfold wlift at 1; cbn [wbind wret];
      try discriminate
  | |- context [if ?c then _ else _] =>
      destruct c; cbn [wbind wret wprint app]; try discriminate
  end;
  intros H; inversion H; cbn [range seqrange]; eauto.
Qed.

End TopLine.

(** X18.  The sequence of a reference whose top line gives
    [(bases a to b)] is the slice of the record sequence from index
    [a - 1] to index [b - 1], the end left out: of the [b - a + 1] bases
    of the range it holds [b - a], the last one is missing. *)
Theorem reference_sequence_is_one_base_short
  (parent : GenbankFile) (self : GBReference) (line : str)
  (r : GBReference) (out : list message) :
  contains " (bases" line = true ->
  process_topline self line = (Ok r, out) ->
  exists a b,
    range r = Some (a, b)
    /\ reference_sequence parent r
       = Ok (Some (py_slice (Sequence parent) (a - 1) (b - 1)))
    /\ (1 <= a <= b -> b <= Z.of_nat (length (Sequence parent)) ->
        Z.of_nat (length (py_slice (Sequence parent) (a - 1) (b - 1)))
        = b - a).
Proof.
  intros Hc H.
  destruct (process_topline_range self line r out Hc H) as [a [b [Hr Hs]]].
  exists a, b. split; [exact Hr|]. split.
  - unfold reference_sequence. rewrite Hs. reflexivity.
  - intros Hab Hb. rewrite py_slice_inside_length by lia. lia.
Qed.

Lemma reference_sequence_is_one_base_short_witness :
  process_topline
    (mkGBReference None None None "None" "None" "None" "None" "None" "None")
    "REFERENCE   1  (bases 2 to 4)"
  = (Ok (mkGBReference (Some 1) (Some (2, 4)) (Some [1; 3])
           "None" "None" "None" "None" "None" "None"), [])
  /\ reference_sequence (record_of "sample.gb")
       (mkGBReference (Some 1) (Some (2, 4)) (Some [1; 3])
          "None" "None" "None" "None" "None" "None")
     = Ok (Some ("AA" : str))
  /\ exists a b,
       range (mkGBReference (Some 1) (Some (2, 4)) (Some [1; 3])
                "None" "None" "None" "None" "None" "None") = Some (a, b)
       /\ reference_sequence (record_of "sample.gb")
            (mkGBReference (Some 1) (Some (2, 4)) (Some [1; 3])
               "None" "None" "None" "None" "None" "None")
          = Ok (Some (py_slice (Sequence (record_of "sample.gb"))
                        (a - 1) (b - 1)))
       /\ (1 <= a <= b ->
           b <= Z.of_nat (length (Sequence (record_of "sample.gb"))) ->
           Z.of_nat (length (py_slice (Sequence (record_of "sample.gb"))
                               (a - 1) (b - 1)))
           = b - a).
Proof.
  split; [vm_compute; reflexivity|].
  split; [vm_compute; reflexivity|].
  apply (reference_sequence_is_one_base_short (record_of "sample.gb")
           (mkGBReference None None None
              "None" "None" "None" "None" "None" "None")
           "REFERENCE   1  (bases 2 to 4)"
           (mkGBReference (Some 1) (Some (2, 4)) (Some [1; 3])
              "None" "None" "None" "None" "None" "None") []);
    vm_compute; reflexivity.
Defined.

(** ** What the construction of a record raises *)

Section Construction.

Lemma raises_in_wlift (P : exn -> bool) {A} (r : result A) :
  raises_in P r -> raises_in P (fst (wlift r)).
Proof. intros H. exact H. Qed.

Lemma GBFeature_init_raises (list_of_lines : list str) :
  raises_in is_index_error (GBFeature_init list_of_lines).
Proof.
  unfold GBFeature_init.
  apply raises_in_bind; [apply feature_pieces_raises|]. intros [ftype pieces] _.
  apply raises_in_bind; [apply py_getitem_index_error|]. intros span_line _.
  exact I.
Qed.

Lemma headless_text_raises (strings : list str) :
  raises_in is_index_error (headless_text strings).
Proof.
  unfold headless_text.
  apply raises_in_bind; [apply py_getitem_index_error|]. intros; exact I.
Qed.

Lemma addfeature_raises (self : GenbankFile) (this_feature : list str) :
  raises_in is_index_error (fst (addfeature self this_feature)).
Proof.
  unfold addfeature. pose proof (GBFeature_init_raises this_feature) as R.
  destruct (GBFeature_init this_feature) as [[f out]|e]; [exact I|exact R].
Qed.

Lemma features_step_raises (st : GenbankFile * list str) (line : str) :
  raises_in is_index_error (fst (features_step st line)).
Proof.
  destruct st as [self this_feature]. unfold features_step.
  apply raises_in_wbind; [|intros; exact I].
  destruct (_count_indent line =? 5); [|exact I].
  destruct this_feature; [exact I|].
  apply raises_in_wbind; [apply addfeature_raises|]. intros; exact I.
Qed.

Lemma process_features_raises (self : GenbankFile) (lines : list str) :
  raises_in is_index_error (fst (process_features self lines)).
Proof.
  unfold process_features.
  apply raises_in_wbind.
  - apply raises_in_wfold. apply features_step_raises.
  - intros [s cur]. cbn [fst snd].
    destruct cur; [exact I|apply addfeature_raises].
Qed.

Lemma process_reference_total (self : GenbankFile) (lines : list str) :
  exists self' out, process_reference self lines = (Ok self', out).
Proof.
  unfold process_reference.
  destruct (GBReference_init lines) as [[r|e] out]; eauto.
Qed.

Lemma process_dblink_raises (self : GenbankFile) (lines : list str) :
  raises_in is_index_error (fst (process_dblink self lines)).
Proof.
  unfold process_dblink.
  apply raises_in_wbind; [|intros; exact I].
  apply raises_in_wlift, raises_in_rfold. intros. apply dblink_step_raises.
Qed.

(** Every block parser raises at most [IndexError]. *)
Lemma block_parsers_raise (firstword : str)
  (parser : GenbankFile -> list str -> W GenbankFile)
  (self : GenbankFile) (block : list str) :
  block_parsers firstword = Ok parser ->
  raises_in is_index_error (fst (parser self block)).
Proof.
  unfold block_parsers.
  repeat match goal with
  | |- (if ?c then _ else _) = _ -> _ => destruct c
  end; intros H; inversion H; subst parser; clear H.
  - exact I.
  - apply process_features_raises.
  - unfold process_comment. apply raises_in_wbind; [|intros; exact I].
    apply raises_in_wlift, headless_text_raises.
  - unfold process_version. apply raises_in_wbind; [|intros; exact I].
    apply raises_in_wlift, headless_text_raises.
  - exact I.
  - unfold process_definition. apply raises_in_wbind; [|intros; exact I].
    apply raises_in_wlift, py_getitem_index_error.
  - destruct (process_reference_total self block) as [s [o E]].
    rewrite E. exact I.
  - unfold process_source. apply raises_in_wbind; [|intros; exact I].
    apply raises_in_wlift, py_getitem_index_error.
  - apply process_dblink_raises.
  - exact I.
  - exact I.
  - exact I.
Qed.

Lemma indent_block_step_raises (self : GenbankFile) (block : list str) :
  raises_in is_index_error (fst (indent_block_step self block)).
Proof.
  unfold indent_block_step.
  apply raises_in_wbind;
    [apply raises_in_wlift, py_getitem_index_error|]. intros line0.
  apply raises_in_wbind;
    [apply raises_in_wlift, py_getitem_index_error|]. intros word0.
  destruct (block_parsers (upper (strip word0))) as [parser|e] eqn:E;
    [|exact I].
  pose proof (block_parsers_raise _ parser self block E) as R.
  destruct (parser self block) as [[s|e] out]; [exact I|].
  destruct e; try discriminate R; first [exact I | reflexivity].
Qed.

Lemma process_indent_blocks_raises (self : GenbankFile)
  (indent_blocks : list (list str)) :
  raises_in is_index_error (fst (process_indent_blocks self indent_blocks)).
Proof.
  unfold process_indent_blocks. apply raises_in_wfold.
  apply indent_block_step_raises.
Qed.

End Construction.

(** X19.  The construction of a record raises nothing but [ValueError]
    (neither a path nor a text), [AttributeError] (a path that cannot be
    read) and [IndexError] (out of a block parser): the handler of
    [process_indent_blocks] takes every [KeyError], and
    [process_reference] takes whatever a reference raises. *)
Theorem construction_raises_only_three_errors
  (read_file : str -> option str) (file_contents file_name : option str)
  (cache : bool) (e : exn) :
  fst (GenbankFile_init read_file file_contents file_name cache) = Raise e ->
  In e [ValueError; AttributeError; IndexError].
Proof.
  intros H.
  assert (R : raises_in is_construction_error
                (fst (GenbankFile_init read_file file_contents file_name
                        cache))).
  { unfold GenbankFile_init.
    apply raises_in_wbind; [|intros; exact I].
    destruct (negb (truthy file_contents)); [|exact I].
    destruct file_name as [[|c name']|]; [reflexivity| |reflexivity].
    apply raises_in_wbind.
    - destruct (read_file (c :: name')); exact I.
    - intros [text|]; [|reflexivity].
      eapply raises_in_weaken; [|apply process_indent_blocks_raises].
      intros e' He'. destruct e'; try discriminate; reflexivity. }
  rewrite H in R. destruct e; try discriminate; simpl; tauto.
Qed.

Lemma construction_raises_only_three_errors_witness :
  fst (GenbankFile_init sample_files None (Some ("absent.gb" : str)) true)
  = Raise AttributeError
  /\ In AttributeError [ValueError; AttributeError; IndexError].
Proof.
  split; [vm_compute; reflexivity|].
  apply (construction_raises_only_three_errors sample_files None
           (Some ("absent.gb" : str)) true AttributeError).
  vm_compute. reflexivity.
Defined.

(** ** [process_features]: where a feature starts *)

Section FeatureTable.

Lemma wbind_ok_inv {A B} (m : W A) (k : A -> W B) (b : B)
  (out : list message) :
  wbind m k = (Ok b, out) ->
  exists a o1 o2, m = (Ok a, o1) /\ k a = (Ok b, o2) /\ out = o1 ++ o2.
Proof.
  destruct m as [[a|e] o1]; cbn [wbind]; [|discriminate].
  destruct (k a) as [r o2] eqn:E. intros H. inversion H. subst.
  exists a, o1, o2. auto.
Qed.

Lemma addfeature_ok (self self' : GenbankFile) (this_feature : list str)
  (out : list message) :
  addfeature self this_feature = (Ok self', out) ->
  exists f, Features self' = Features self ++ [f].
Proof.
  unfold addfeature.
  destruct (GBFeature_init this_feature) as [[f o]|e]; [|discriminate].
  intros H. inversion H. cbn [Features]. eauto.
Qed.

Lemma features_step_ok (self self' : GenbankFile) (l : str)
  (cur cur' : list str) (line : str) (out : list message) :
  features_step (self, l :: cur) line = (Ok (self', cur'), out) ->
  cur' <> []
  /\ exists new,
       Features self' = Features self ++ new
       /\ length new = length (filter (fun l => _count_indent l =? 5) [line]).
Proof.
  unfold features_step. intros H.
  apply wbind_ok_inv in H. destruct H as [[s c] [o1 [o2 [Hm [Hk _]]]]].
  unfold wret in Hk. cbn [fst snd] in Hk.
  injection Hk as Es Ec _. subst self' cur'.
  split; [destruct c; discriminate|].
  cbn [filter]. destruct (_count_indent line =? 5).
  - apply wbind_ok_inv in Hm. destruct Hm as [s0 [o3 [o4 [Ha [Hr _]]]]].
    unfold wret in Hr. injection Hr as Es Ec _. subst s0 c.
    destruct (addfeature_ok _ _ _ _ Ha) as [f Hf].
    exists [f]. auto.
  - unfold wret in Hm. injection Hm as Es Ec. subst s c.
    exists []. now rewrite app_nil_r.
Qed.

Lemma features_fold_ok (lines : list str) (self self' : GenbankFile)
  (l : str) (cur cur' : list str) (out : list message) :
  wfold features_step lines (self, l :: cur) = (Ok (self', cur'), out) ->
  cur' <> []
  /\ exists new,
       Features self' = Features self ++ new
       /\ length new = length (filter (fun l => _count_indent l =? 5) lines).
Proof.
  revert self l cur out.
  induction lines as [|line lines IH]; intros self l cur out H.
  - unfold wfold, wret in H. injection H as Es Ec _. subst self' cur'.
    split; [discriminate|]. exists []. now rewrite app_nil_r.
  - cbn [wfold] in H. apply wbind_ok_inv in H.
    destruct H as [[s c] [o1 [o2 [Hm [Hk _]]]]].
    destruct (features_step_ok _ _ _ _ _ _ _ Hm) as [Hc [new1 [E1 L1]]].
    destruct c as [|l1 c]; [congruence|].
    destruct (IH _ _ _ _ Hk) as [Hc' [new2 [E2 L2]]].
    split; [assumption|]. exists (new1 ++ new2).
    rewrite E2, E1, <- app_assoc. split; [reflexivity|].
    rewrite length_app, L1, L2. cbn [filter].
    destruct (_count_indent line =? 5); reflexivity.
Qed.

Lemma features_first_step (self : GenbankFile) (line : str) :
  features_step (self, []) line = (Ok (self, [line]), []).
Proof.
  unfold features_step. destruct (_count_indent line =? 5); reflexivity.
Qed.

End FeatureTable.

(** X20.  [process_features] leaves the first line of its block aside;
    of the lines that follow, the first opens a feature and so does every
    later line at indent 5, and no other line does.  When the block is
    accepted the features of the record are the ones it had, followed by
    as many new ones as there are such lines. *)
Theorem features_start_at_indent_five
  (self self' : GenbankFile) (features_block_lines : list str)
  (out : list message) :
  process_features self features_block_lines = (Ok self', out) ->
  exists new,
    Features self' = Features self ++ new
    /\ length new = feature_starts (skipn 1 features_block_lines).
Proof.
  unfold process_features. intros H.
  apply wbind_ok_inv in H. destruct H as [[s c] [o1 [o2 [Hm [Hk _]]]]].
  cbn [fst snd] in Hk.
  destruct (skipn 1 features_block_lines) as [|line lines].
  - unfold wfold, wret in Hm. injection Hm as Es Ec _. subst s c.
    unfold wret in Hk. injection Hk as Es _. subst self'.
    exists []. now rewrite app_nil_r.
  - rewrite wfold_cons, features_first_step in Hm.
    cbn [wbind] in Hm.
    destruct (wfold features_step lines (self, [line])) as [r o] eqn:E.
    injection Hm as Er _. subst r.
    destruct (features_fold_ok _ _ _ _ _ _ _ E) as [Hc [new [E1 L1]]].
    destruct c as [|l1 c]; [congruence|].
    destruct (addfeature_ok _ _ _ _ Hk) as [f Hf].
    exists (new ++ [f]). rewrite Hf, E1, <- app_assoc.
    split; [reflexivity|].
    rewrite length_app, L1. cbn [feature_starts length]. lia.
Qed.

Lemma features_start_at_indent_five_witness :
  feature_starts
    (skipn 1 (["FEATURES             Location/Qualifiers" : str]
              ++ two_xref_block ++ pseudo_block)) = 2%nat
  /\ exists new,
       Features
         (match fst (process_features empty_record (["FEATURES             Location/Qualifiers" : str]
              ++ two_xref_block ++ pseudo_block)) with
          | Ok parent => parent
          | Raise _ => empty_record
          end)
       = Features empty_record ++ new
       /\ length new = feature_starts (skipn 1 (["FEATURES             Location/Qualifiers" : str]
              ++ two_xref_block ++ pseudo_block)).
Proof.
  split; [vm_compute; reflexivity|].
  apply (features_start_at_indent_five empty_record
           (match fst (process_features empty_record (["FEATURES             Location/Qualifiers" : str]
              ++ two_xref_block ++ pseudo_block)) with
            | Ok parent => parent
            | Raise _ => empty_record
            end)
           (["FEATURES             Location/Qualifiers" : str]
              ++ two_xref_block ++ pseudo_block)
           (snd (process_features empty_record (["FEATURES             Location/Qualifiers" : str]
              ++ two_xref_block ++ pseudo_block)))).
  vm_compute. reflexivity.
Defined.

(** ** [parse_gb_functions]: the first round alone *)

Section FirstRound.

Lemma join_chars (s : str) : join "" (map (fun c => [c]) s) = s.
Proof.
  induction s as [|c s IH]; [reflexivity|].
  cbn [map]. destruct s as [|d s]; [reflexivity|].
  change (join "" ([c] :: map (fun c => [c]) (d :: s)))
    with ([c] ++ [] ++ join "" (map (fun c => [c]) (d :: s))).
  rewrite IH. reflexivity.
Qed.

Lemma prefix_app (p s : str) : prefix p (p ++ s) = true.
Proof.
  induction p as [|x p IH]; [reflexivity|].
  cbn [app prefix]. now rewrite Ascii.eqb_refl.
Qed.

Lemma replace_go_skip_app (old new pre rest : str) :
  replace_go old new (length pre) (pre ++ rest) = replace_go old new 0 rest.
Proof.
  induction pre as [|x pre IH]; cbn [length app].
  - reflexivity.
  - cbn [replace_go]. exact IH.
Qed.

(** A text that starts with the string to replace. *)
Lemma replace_prefix (old new rest : str) :
  old <> [] -> replace old new (old ++ rest) = new ++ replace old new rest.
Proof.
  intros H. destruct old as [|x o]; [congruence|].
  unfold replace. cbn [app replace_go].
  change (x :: o ++ rest) with ((x :: o) ++ rest).
  rewrite prefix_app. cbn [length Nat.pred].
  now rewrite replace_go_skip_app.
Qed.

(** A text without the first character of the string to replace. *)
Lemma replace_absent_head (x : ascii) (o new s : str) :
  mem x s = false -> replace (x :: o) new s = s.
Proof.
  unfold replace. induction s as [|c s IH]; intros H; [reflexivity|].
  apply mem_false_cons in H. destruct H as [Hc Hs].
  cbn [replace_go prefix]. rewrite Hc. cbn [andb]. now rewrite IH.
Qed.

End FirstRound.

(** X21.  [parse_gb_functions] on a [join] of ranges puts the bases of
    the ranges in the place of the keyword only: the list of ranges, in
    its parentheses, is still there behind them. *)
Theorem first_round_leaves_the_arguments
  (parent : GenbankFile) (p : str * str) (l : list (str * str)) :
  Forall numbers (p :: l) ->
  parse_gb_functions parent ("join" ++ "(" ++ ranges_text (p :: l) ++ ")")
  = Ok (slices (Sequence parent) (p :: l)
        ++ "(" ++ ranges_text (p :: l) ++ ")").
Proof.
  intros H. unfold parse_gb_functions.
  assert (Hc : forallb range_char (ranges_text (p :: l)) = true)
    by now apply ranges_text_chars.
  assert (Hr : forallb range_class (ranges_text (p :: l)) = true).
  { rewrite forallb_forall in *. intros x Hx.
    now destruct (range_char_plain x (Hc x Hx)) as [_ [_ ->]]. }
  assert (Hn : ranges_text (p :: l) <> []).
  { inversion H; subst. now apply ranges_text_nonempty. }
  rewrite (gb_func_finder_call "join" _ (or_introl eq_refl) Hn Hr).
  cbn [rfold fst snd]. rewrite join_chars.
  change (gb_funcs parent "join") with (Ok (_gb_join parent)).
  cbn [rbind]. rewrite (gb_join_ranges parent p l H). cbn [rbind].
  rewrite replace_prefix by discriminate.
  change (list_ascii_of_string "join") with ("j"%char :: "oin").
  rewrite replace_absent_head; [reflexivity|].
  rewrite !mem_app, (range_char_absent "j" _ eq_refl Hc). reflexivity.
Qed.

Lemma first_round_leaves_the_arguments_witness :
  Forall numbers [("1" : str, "3" : str); ("5" : str, "7" : str)]
  /\ parse_gb_functions (record_of "sample.gb") "join(1..3,5..7)"
     = Ok ("AAACGG(1..3,5..7)" : str).
Proof.
  assert (H : Forall numbers
                [("1" : str, "3" : str); ("5" : str, "7" : str)]).
  { repeat constructor; discriminate. }
  split; [exact H|].
  pose proof (first_round_leaves_the_arguments (record_of "sample.gb")
                ("1" : str, "3" : str) [("5" : str, "7" : str)] H) as E.
  vm_compute in E. vm_compute. exact E.
Defined.

Section FirstWord.

Lemma split_ws_go_nonempty (s cur : str) :
  cur <> [] \/ existsb (fun c => negb (is_space c)) s = true ->
  split_ws_go cur s <> [].
Proof.
  revert cur. induction s as [|c s IH]; intros cur H; cbn [split_ws_go].
  - destruct H as [H|H]; [|discriminate]. destruct cur; [congruence|discriminate].
  - destruct (is_space c) eqn:E.
    + destruct cur as [|x cur]; [|discriminate].
      apply IH. destruct H as [H|H]; [congruence|].
      cbn [existsb] in H. rewrite E in H. right. exact H.
    + apply IH. left. discriminate.
Qed.

Lemma dropwhile_nonspace (s : str) :
  dropwhile is_space s <> [] ->
  existsb (fun c => negb (is_space c)) s = true.
Proof.
  induction s as [|c s IH]; cbn [dropwhile existsb]; [congruence|].
  destruct (is_space c); cbn [negb orb]; auto.
Qed.

Lemma nonblank_split_ws (line : str) :
  nonblank line = true -> split_ws line <> [].
Proof.
  unfold nonblank, strip, strip_by, lstrip_by, rstrip_by. intros H.
  apply split_ws_go_nonempty. right. apply dropwhile_nonspace.
  destruct (dropwhile is_space line); [discriminate|discriminate].
Qed.

End FirstWord.

(** X22.  The first word of a block that [extract_indent_blocks] cuts is
    always there: the two look-ups [block[0]] and [block[0].split()[0]]
    of [process_indent_blocks] never fail on such a block. *)
Theorem first_word_of_a_block_is_found (text : str) (block : list str) :
  In block (extract_indent_blocks text) ->
  exists line0 word0,
    py_getitem block 0 = Ok line0
    /\ py_getitem (split_ws line0) 0 = Ok word0.
Proof.
  intros Hin.
  destruct (extract_indent_blocks_well_cut text) as [_ H].
  rewrite forallb_forall in H. specialize (H block Hin).
  destruct block as [|line0 rest]; [discriminate|].
  cbn [opens_unindented] in H. apply andb_true_iff in H.
  destruct H as [_ H]. apply nonblank_split_ws in H.
  destruct (split_ws line0) as [|word0 words] eqn:E; [congruence|].
  exists line0, word0. rewrite py_getitem_0, E, py_getitem_0. auto.
Qed.

Lemma first_word_of_a_block_is_found_witness :
  In ["ORIGIN" : str; "        1 axgt" : str]
     (extract_indent_blocks foreign_text)
  /\ exists line0 word0,
       py_getitem ["ORIGIN" : str; "        1 axgt" : str] 0 = Ok line0
       /\ py_getitem (split_ws line0) 0 = Ok word0.
Proof.
  assert (H : In ["ORIGIN" : str; "        1 axgt" : str]
                 (extract_indent_blocks foreign_text)).
  { vm_compute. right. right. left. reflexivity. }
  split; [exact H|].
  apply (first_word_of_a_block_is_found foreign_text
           ["ORIGIN" : str; "        1 axgt" : str] H).
Defined.

(** ** [testfeatures]: what the report holds *)

Section FeatureReports.

Lemma sequence_keeps_the_rest (parent : GenbankFile) (self : GBFeature) :
  type (snd (sequence parent self)) = type self
  /\ spanline (snd (sequence parent self)) = spanline self
  /\ meta (snd (sequence parent self)) = meta self.
Proof.
  unfold sequence. destruct (_sequence self); [|auto].
  destruct (isnumeric (spanline self)); [auto|].
  destruct (materialise parent self); [|auto].
  destruct (cache_sequences parent) as [[|]|]; auto.
Qed.

Lemma sequence_raise_unchanged (parent : GenbankFile) (self : GBFeature)
  (e : exn) :
  fst (sequence parent self) = Raise e -> snd (sequence parent self) = self.
Proof.
  unfold sequence. destruct (_sequence self); [|discriminate].
  destruct (isnumeric (spanline self)); [reflexivity|].
  destruct (materialise parent self); [|reflexivity].
  destruct (cache_sequences parent) as [[|]|]; try discriminate.
  reflexivity.
Qed.

Lemma existsb_str_eqb (x : str) (l : list str) :
  existsb (str_eqb x) l = true <-> In x l.
Proof.
  rewrite existsb_exists. split.
  - intros [y [Hy E]]. apply str_eqb_eq in E. now subst.
  - intros H. exists x. split; [assumption|apply str_eqb_refl].
Qed.

Lemma append_new_NoDup (l : list str) (x : str) :
  NoDup l -> NoDup (append_new l x).
Proof.
  intros H. unfold append_new.
  destruct (existsb (str_eqb x) l) eqn:E; [assumption|].
  apply NoDup_app; [assumption|repeat constructor; intros []|].
  intros y Hy [<-|[]].
  apply existsb_str_eqb in Hy. congruence.
Qed.

Lemma append_new_In (l : list str) (x y : str) :
  In y (append_new l x) <-> In y l \/ y = x.
Proof.
  unfold append_new. destruct (existsb (str_eqb x) l) eqn:E.
  - apply existsb_str_eqb in E. split; [auto|]. intros [H| ->]; auto.
  - rewrite in_app_iff. cbn [In]. intuition.
Qed.

Lemma key_fold_fst (feature : GBFeature) (keys : list str)
  (st : list str * list GBFeature) :
  fst (fold_left (key_step feature) keys st)
  = fold_left append_new keys (fst st).
Proof.
  revert st. induction keys as [|k keys IH]; intros [mk ex]; [reflexivity|].
  cbn [fold_left]. rewrite IH. reflexivity.
Qed.

Lemma key_fold_snd (feature : GBFeature) (keys : list str)
  (st : list str * list GBFeature) :
  snd (fold_left (key_step feature) keys st)
  = snd st
    ++ map (fun _ => feature)
         (filter (fun key => (15 <? length key)%nat) keys).
Proof.
  revert st. induction keys as [|k keys IH]; intros [mk ex].
  - cbn [fold_left filter map snd]. now rewrite app_nil_r.
  - cbn [fold_left filter]. rewrite IH. unfold key_step. cbn [snd].
    destruct (15 <? length k)%nat; [|reflexivity].
    cbn [map]. now rewrite <- app_assoc.
Qed.

Lemma fold_append_new_NoDup (xs l : list str) :
  NoDup l -> NoDup (fold_left append_new xs l).
Proof.
  revert l. induction xs as [|x xs IH]; intros l H; [assumption|].
  cbn [fold_left]. apply IH. now apply append_new_NoDup.
Qed.

Lemma fold_append_new_In (xs l : list str) (y : str) :
  In y (fold_left append_new xs l) <-> In y l \/ In y xs.
Proof.
  revert l. induction xs as [|x xs IH]; intros l; cbn [fold_left In].
  - tauto.
  - rewrite IH, append_new_In. intuition.
Qed.

(** What the loop has gathered after the features [done], started from
    an empty report. *)
Lemma testfeatures_fold (gb_obj : GenbankFile) (todo : list GBFeature)
  (report : FeaturesReport) (printed : list (str * str))
  (features : list GBFeature) :
  let '(report', _, _) :=
    fold_left (testfeatures_step gb_obj) todo (report, printed, features) in
  errors report' = errors report ++ filter (in_error gb_obj) todo
  /\ feature_types report'
     = fold_left append_new (map type todo) (feature_types report)
  /\ meta_keys report'
     = fold_left append_new (concat (map (fun f => map fst (meta f)) todo))
         (meta_keys report)
  /\ length (excessive_meta_features report')
     = (length (excessive_meta_features report)
        + length (filter (fun key => (15 <? length key)%nat)
                    (concat (map (fun f => map fst (meta f)) todo))))%nat.
Proof.
  revert report printed features.
  induction todo as [|f todo IH]; intros report printed features.
  - cbn [fold_left filter map concat length]. rewrite app_nil_r.
    repeat split. lia.
  - cbn [fold_left]. unfold testfeatures_step at 2.
    destruct (sequence gb_obj f) as [x f'] eqn:E.
    pose proof (sequence_keeps_the_rest gb_obj f) as [Ht [Hs Hm]].
    rewrite E in Ht, Hs, Hm. cbn [snd] in Ht, Hs, Hm.
    set (errs := match x with
                 | Ok _ => (errors report, printed)
                 | Raise _ => (errors report ++ [f'],
                               printed ++ [(type f', spanline f')])
                 end).
    destruct errs as [errors1 printed1] eqn:Ee.
    destruct (fold_left (key_step f') (map fst (meta f'))
                (meta_keys report, excessive_meta_features report))
      as [mk ex] eqn:Ek.
    specialize (IH (mkReport errors1
                      (append_new (feature_types report) (type f')) mk ex)
                   printed1 (features ++ [f'])).
    destruct (fold_left (testfeatures_step gb_obj) todo _)
      as [[report' pr'] fs'].
    cbn [errors feature_types meta_keys excessive_meta_features] in IH.
    destruct IH as [He [Hty [Hmk Hex]]].
    split; [|split; [|split]].
    + rewrite He. cbn [filter]. unfold in_error at 2. rewrite E. cbn [fst].
      subst errs. destruct x as [s|e].
      * inversion Ee. reflexivity.
      * inversion Ee.
        pose proof (sequence_raise_unchanged gb_obj f e) as Hu.
        rewrite E in Hu. cbn [fst snd] in Hu. rewrite (Hu eq_refl).
        now rewrite <- app_assoc.
    + rewrite Hty. cbn [map fold_left]. now rewrite Ht.
    + rewrite Hmk. cbn [map concat]. rewrite fold_left_app.
      pose proof (key_fold_fst f' (map fst (meta f'))
                    (meta_keys report, excessive_meta_features report))
        as Hk.
      rewrite Ek in Hk. cbn [fst] in Hk. rewrite Hk, Hm. reflexivity.
    + rewrite Hex. cbn [map concat]. rewrite filter_app, length_app.
      pose proof (key_fold_snd f' (map fst (meta f'))
                    (meta_keys report, excessive_meta_features report))
        as Hk.
      rewrite Ek in Hk. cbn [snd] in Hk.
      rewrite Hk, length_app, length_map, Hm.
      rewrite <- Nat.add_assoc. reflexivity.
Qed.

End FeatureReports.

(** X23.  The errors that [testfeatures] returns are the features of the
    record whose [sequence] raises, each one once, in the order of the
    record. *)
Theorem errors_are_the_features_that_raise (gb_obj : GenbankFile) :
  errors (fst (fst (testfeatures gb_obj)))
  = filter (in_error gb_obj) (Features gb_obj).
Proof.
  unfold testfeatures.
  pose proof (testfeatures_fold gb_obj (Features gb_obj)
                (mkReport [] [] [] []) [] []) as H.
  destruct (fold_left (testfeatures_step gb_obj) (Features gb_obj) _)
    as [[report pr] fs].
  destruct H as [H _]. exact H.
Qed.

(** X24.  The feature types and the qualifier names that [testfeatures]
    returns hold no item twice, and they hold the type of every feature
    of the record and the name of every qualifier of every feature, and
    nothing else. *)
Theorem types_and_keys_are_listed_once (gb_obj : GenbankFile) :
  let report := fst (fst (testfeatures gb_obj)) in
  NoDup (feature_types report)
  /\ NoDup (meta_keys report)
  /\ (forall t, In t (feature_types report)
                <-> exists f, In f (Features gb_obj) /\ type f = t)
  /\ (forall k, In k (meta_keys report)
                <-> exists f v, In f (Features gb_obj)
                                /\ In (k, v) (meta f)).
Proof.
  unfold testfeatures.
  pose proof (testfeatures_fold gb_obj (Features gb_obj)
                (mkReport [] [] [] []) [] []) as H.
  destruct (fold_left (testfeatures_step gb_obj) (Features gb_obj) _)
    as [[report pr] fs].
  cbn [fst feature_types meta_keys errors] in *.
  destruct H as [_ [Ht [Hk _]]]. rewrite Ht, Hk.
  split; [apply fold_append_new_NoDup; constructor|].
  split; [apply fold_append_new_NoDup; constructor|].
  split.
  - intros t. rewrite fold_append_new_In, in_map_iff. cbn [In].
    split.
    + intros [[]|[f [E Hf]]]. eauto.
    + intros [f [Hf E]]. right. eauto.
  - intros k. rewrite fold_append_new_In, in_concat. cbn [In]. split.
    + intros [[]|[keys [Hkeys Hin]]].
      apply in_map_iff in Hkeys. destruct Hkeys as [f [<- Hf]].
      apply in_map_iff in Hin. destruct Hin as [[k' v] [E Hkv]].
      cbn [fst] in E. subst k'. eauto.
    + intros [f [v [Hf Hkv]]]. right.
      exists (map fst (meta f)). split.
      * apply in_map_iff. eauto.
      * apply in_map_iff. exists (k, v). auto.
Qed.

(** X25.  [testfeatures] lists a feature among the ones with excessive
    qualifier names once for each of its qualifier names of more than 15
    characters: the list is as long as there are such names in the
    record, so a feature with two of them stands in it twice. *)
Theorem excessive_features_are_listed_per_name (gb_obj : GenbankFile) :
  length (excessive_meta_features (fst (fst (testfeatures gb_obj))))
  = length (filter (fun key => (15 <? length key)%nat)
              (concat (map (fun f => map fst (meta f)) (Features gb_obj)))).
Proof.
  unfold testfeatures.
  pose proof (testfeatures_fold gb_obj (Features gb_obj)
                (mkReport [] [] [] []) [] []) as H.
  destruct (fold_left (testfeatures_step gb_obj) (Features gb_obj) _)
    as [[report pr] fs].
  destruct H as [_ [_ [_ H]]]. exact H.
Qed.

(** ** [complement] of a list of ranges *)

Section Complement.

(** [_gb_complement] reads the first range and no other. *)
Lemma gb_complement_ranges (parent : GenbankFile) (p : str * str)
  (l : list (str * str)) :
  Forall numbers (p :: l) ->
  _gb_complement parent ("(" ++ ranges_text (p :: l) ++ ")")
  = get_complement
      (py_slice (Sequence parent) (fst (bounds p)) (snd (bounds p))).
Proof.
  intros H. unfold _gb_complement. rewrite (nativise_ranges p l H).
  cbn [rbind map]. rewrite py_getitem_0. reflexivity.
Qed.

Lemma match_at_complement (body : str) :
  body <> [] -> forallb range_class body = true ->
  match_at range_class gb_keywords ("complement" ++ "(" ++ body ++ ")")
  = Some ("complement" : str, "(" ++ body ++ ")").
Proof.
  intros Hne H.
  destruct (takewhile_all range_class body ")" [] H eq_refl) as [Ht Hd].
  destruct body as [|b body]; [congruence|].
  cbn -[takewhile dropwhile range_class] in *.
  unfold match_call.
  cbn -[takewhile dropwhile range_class] in *.
  rewrite Ht, Hd. reflexivity.
Qed.

Lemma gb_func_finder_complement (body : str) :
  body <> [] -> forallb range_class body = true ->
  gb_func_finder ("complement" ++ "(" ++ body ++ ")")
  = [("complement" : str, "(" ++ body ++ ")")].
Proof.
  intros Hne H. unfold gb_func_finder.
  pose proof (match_at_complement body Hne H) as Hm.
  change ("complement" ++ "(" ++ body ++ ")")
    with ("c"%char :: "omplement" ++ "(" ++ body ++ ")") at 1.
  cbn [findall_go].
  change ("c"%char :: "omplement" ++ "(" ++ body ++ ")")
    with ("complement" ++ "(" ++ body ++ ")").
  rewrite Hm. f_equal. apply findall_go_skip.
  cbn [list_ascii_of_string app length Nat.add Nat.pred].
  rewrite !length_app. simpl. lia.
Qed.

Variable parent : GenbankFile.
Variable p : str * str.
Variable l : list (str * str).
Hypothesis Hl : Forall numbers (p :: l).

Let body : str := ranges_text (p :: l).
Let call : str := "complement" ++ "(" ++ body ++ ")".

Lemma complement_mem (x : ascii) :
  range_char x = false -> mem x "complement()" = false ->
  mem x call = false.
Proof.
  intros Hx Hk. unfold call. rewrite !mem_app.
  rewrite (range_char_absent x body Hx (ranges_text_chars _ Hl)).
  simpl in Hk. repeat (apply orb_false_elim in Hk; destruct Hk as [? Hk]).
  simpl.
  repeat match goal with E : Ascii.eqb _ _ = false |- _ =>
    rewrite E; clear E end.
  reflexivity.
Qed.

Lemma complement_body_class : forallb range_class body = true.
Proof.
  pose proof (ranges_text_chars _ Hl) as H.
  rewrite forallb_forall in *. intros x Hx.
  now destruct (range_char_plain x (H x Hx)) as [_ [_ ->]].
Qed.

Lemma complement_body_nonempty : body <> [].
Proof. inversion Hl; subst. now apply ranges_text_nonempty. Qed.

(** [materialise] on a [complement] of ranges: what the first range
    gives, and nothing of the others. *)
Lemma materialise_complement (self : GBFeature) :
  spanline self = call ->
  materialise parent self
  = (returnseq <-
       get_complement
         (py_slice (Sequence parent) (fst (bounds p)) (snd (bounds p))) ;;
     returnseq <-
       rfold (resolve_call hybrid_funcs) (gb_func_finder_2 returnseq)
             returnseq ;;
     _ <- check_iupac returnseq ;; Ok returnseq).
Proof.
  intros Hs. unfold materialise. rewrite Hs.
  change (list_ascii_of_string ":") with [":"%char].
  change (list_ascii_of_string "<") with ["<"%char].
  change (list_ascii_of_string ">") with [">"%char].
  change (list_ascii_of_string "^") with ["^"%char].
  rewrite contains_single, complement_mem by reflexivity.
  rewrite (replace_single_absent "<") by (now apply complement_mem).
  rewrite (replace_single_absent ">") by (now apply complement_mem).
  rewrite (replace_single_absent "^") by (now apply complement_mem).
  change (gb_func_finder call)
    with (gb_func_finder ("complement" ++ "(" ++ body ++ ")")).
  rewrite (gb_func_finder_complement body complement_body_nonempty
             complement_body_class).
  cbn [rfold]. unfold resolve_call at 1. cbn [fst snd].
  change (gb_funcs parent "complement") with (Ok (_gb_complement parent)).
  cbn [rbind]. unfold body. rewrite (gb_complement_ranges parent p l Hl).
  destruct (get_complement _) as [content|e]; cbn [rbind]; [|reflexivity].
  fold body.
  assert (E : replace ("complement" ++ "(" ++ body ++ ")") content call
              = content).
  { apply (replace_whole call content). discriminate. }
  rewrite E. reflexivity.
Qed.

End Complement.

(** X26.  A [complement] around a list of ranges reads the first range
    and drops the others without a word: the feature evaluates to what
    the [complement] of its first range alone evaluates to, be it a
    sequence or an exception. *)
Theorem complement_reads_the_first_range_only
  (parent : GenbankFile) (self first_alone : GBFeature)
  (p : str * str) (l : list (str * str)) :
  Forall numbers (p :: l) ->
  spanline self = "complement" ++ "(" ++ ranges_text (p :: l) ++ ")" ->
  spanline first_alone = "complement" ++ "(" ++ ranges_text [p] ++ ")" ->
  _sequence self = [] -> _sequence first_alone = [] ->
  fst (sequence parent self) = fst (sequence parent first_alone).
Proof.
  intros Hl Hs Hf Hc Hcf.
  assert (Hp : Forall numbers [p]).
  { inversion Hl; subst. constructor; [assumption|constructor]. }
  unfold sequence. rewrite Hc, Hcf.
  assert (N : forall q m, isnumeric ("complement" ++ "(" ++ ranges_text (q :: m) ++ ")") = false)
    by reflexivity.
  rewrite Hs, Hf, !N, <- Hs, <- Hf.
  rewrite (materialise_complement parent p l Hl self Hs).
  rewrite (materialise_complement parent p [] Hp first_alone Hf).
  destruct (returnseq <- get_complement _ ;; _) as [s|e]; [|reflexivity].
  destruct (cache_sequences parent) as [[|]|]; reflexivity.
Qed.

Lemma complement_reads_the_first_range_only_witness :
  Forall numbers [("1" : str, "3" : str); ("5" : str, "7" : str)]
  /\ fst (sequence (record_of "sample.gb")
            (mkGBFeature "CDS" "complement(1..3,5..7)" None [] []))
     = fst (sequence (record_of "sample.gb")
              (mkGBFeature "CDS" "complement(1..3)" None [] [])).
Proof.
  assert (H : Forall numbers
                [("1" : str, "3" : str); ("5" : str, "7" : str)]).
  { repeat constructor; discriminate. }
  split; [exact H|].
  apply (complement_reads_the_first_range_only (record_of "sample.gb")
           (mkGBFeature "CDS" "complement(1..3,5..7)" None [] [])
           (mkGBFeature "CDS" "complement(1..3)" None [] [])
           ("1" : str, "3" : str) [("5" : str, "7" : str)] H);
    reflexivity.
Defined.

(** ** An operator around a [join] *)

Section Nested.

(** A position where no keyword matches is passed over. *)
Lemma findall_go_pass (cls : ascii -> bool) (c : ascii) (s : str) :
  match_at cls gb_keywords (c :: s) = None ->
  findall_go cls 0 (c :: s) = findall_go cls 0 s.
Proof. intros H. cbn [findall_go]. now rewrite H. Qed.

Lemma findall_go_skip_app (cls : ascii -> bool) (pre rest : str) :
  findall_go cls (length pre) (pre ++ rest) = findall_go cls 0 rest.
Proof.
  induction pre as [|x pre IH]; [reflexivity|].
  cbn [length app findall_go]. exact IH.
Qed.

(** A call around a non-empty text of the class is matched at its
    start, whatever follows it. *)
Lemma match_at_call_tail (cls : ascii -> bool) (kw body tail : str) :
  kw = "join" \/ kw = "complement" \/ kw = "order" ->
  body <> [] -> forallb cls body = true -> cls ")"%char = false ->
  match_at cls gb_keywords (kw ++ "(" ++ body ++ ")"%char :: tail)
  = Some (kw, "(" ++ body ++ ")").
Proof.
  intros Hkw Hne H Hc.
  destruct (takewhile_all cls body ")" tail H Hc) as [Ht Hd].
  destruct body as [|b body]; [congruence|].
  destruct Hkw as [-> | [-> | ->]];
    cbn -[takewhile dropwhile] in *;
    unfold match_call;
    cbn -[takewhile dropwhile] in *;
    rewrite Ht, Hd; reflexivity.
Qed.

(** ... and where nothing follows, it is the one match. *)
Lemma findall_call (cls : ascii -> bool) (kw body : str) :
  kw = "complement" \/ kw = "order" ->
  body <> [] -> forallb cls body = true -> cls ")"%char = false ->
  findall_go cls 0 (kw ++ "(" ++ body ++ ")") = [(kw, "(" ++ body ++ ")")].
Proof.
  intros Hkw Hne H Hc.
  assert (Hm : match_at cls gb_keywords (kw ++ "(" ++ body ++ ")")
               = Some (kw, "(" ++ body ++ ")")).
  { apply (match_at_call_tail cls kw body []); tauto. }
  assert (Hlen : (length (tl (kw ++ "(" ++ body ++ ")"))
                  <= Nat.pred (length kw + length ("(" ++ body ++ ")")))%nat).
  { destruct Hkw as [-> | ->];
      cbn [tl list_ascii_of_string app length Nat.add Nat.pred];
      rewrite !length_app; simpl; lia. }
  assert (Hcons : exists c, kw ++ "(" ++ body ++ ")"
                            = c :: tl (kw ++ "(" ++ body ++ ")")).
  { destruct Hkw as [-> | ->]; eexists; reflexivity. }
  destruct Hcons as [c Hcs].
  set (s := kw ++ "(" ++ body ++ ")") in *.
  rewrite Hcs. cbn [findall_go]. rewrite <- Hcs, Hm.
  f_equal. now apply findall_go_skip.
Qed.

(** The first pattern on an operator around a [join] of ranges: the
    [join] alone is matched. *)
Lemma gb_func_finder_nested (outer body : str) :
  outer = "complement" \/ outer = "order" ->
  body <> [] -> forallb range_class body = true ->
  gb_func_finder (outer ++ "(" ++ "join" ++ "(" ++ body ++ ")" ++ ")")
  = [("join" : str, "(" ++ body ++ ")")].
Proof.
  intros Houter Hne H. unfold gb_func_finder.
  pose proof (match_at_call_tail range_class "join" body [")"%char]
                (or_introl eq_refl) Hne H eq_refl) as Hm.
  assert (Hs : findall_go range_class
                 (Nat.pred (length ("join" : str)
                            + length ("(" ++ body ++ ")")))
                 (("oin" ++ "(" ++ body ++ ")") ++ [")"%char])
               = []).
  { replace (Nat.pred (length ("join" : str) + length ("(" ++ body ++ ")")))
      with (length ("oin" ++ "(" ++ body ++ ")"))
      by (rewrite !length_app; simpl; lia).
    rewrite findall_go_skip_app. reflexivity. }
  assert (Hj : findall_go range_class 0
                 ("join" ++ "(" ++ body ++ ")"%char :: [")"%char])
               = [("join" : str, "(" ++ body ++ ")")]).
  { change ("join" ++ "(" ++ body ++ ")"%char :: [")"%char])
      with ("j"%char :: "oin" ++ "(" ++ body ++ ")"%char :: [")"%char]) at 1.
    cbn [findall_go].
    change ("j"%char :: "oin" ++ "(" ++ body ++ ")"%char :: [")"%char])
      with ("join" ++ "(" ++ body ++ ")"%char :: [")"%char]).
    rewrite Hm. f_equal.
    change ("oin" ++ "(" ++ body ++ ")"%char :: [")"%char])
      with ("o"%char :: "i"%char :: "n"%char :: "("%char
            :: body ++ ")"%char :: [")"%char]).
    change (("oin" ++ "(" ++ body ++ ")") ++ [")"%char])
      with ("o"%char :: "i"%char :: "n"%char :: "("%char
            :: (body ++ ")") ++ [")"%char]) in Hs.
    rewrite <- app_assoc in Hs. exact Hs. }
  destruct Houter as [-> | ->].
  - change ("complement" ++ "(" ++ "join" ++ "(" ++ body ++ ")" ++ ")")
      with ("c"%char :: "o"%char :: "m"%char :: "p"%char :: "l"%char
            :: "e"%char :: "m"%char :: "e"%char :: "n"%char :: "t"%char
            :: "("%char
            :: "join" ++ "(" ++ body ++ ")"%char :: [")"%char]).
    do 11 (rewrite findall_go_pass by reflexivity).
    exact Hj.
  - change ("order" ++ "(" ++ "join" ++ "(" ++ body ++ ")" ++ ")")
      with ("o"%char :: "r"%char :: "d"%char :: "e"%char :: "r"%char
            :: "("%char
            :: "join" ++ "(" ++ body ++ ")"%char :: [")"%char]).
    do 6 (rewrite findall_go_pass by reflexivity).
    exact Hj.
Qed.

(** A text in front that does not hold the first character of the string
    to replace is left as it is. *)
Lemma replace_pass (x : ascii) (o new pre s : str) :
  mem x pre = false ->
  replace (x :: o) new (pre ++ s) = pre ++ replace (x :: o) new s.
Proof.
  unfold replace. induction pre as [|c pre IH]; intros H; [reflexivity|].
  apply mem_false_cons in H. destruct H as [Hc Hp].
  cbn [app replace_go prefix]. rewrite Hc. cbn [andb]. now rewrite IH.
Qed.

(** The first round on such a location: the [join] gives way to its
    bases, the outer operator stays. *)
Lemma replace_inner_join (outer body content : str) :
  outer = "complement" \/ outer = "order" ->
  replace ("join" ++ "(" ++ body ++ ")") content
    (outer ++ "(" ++ "join" ++ "(" ++ body ++ ")" ++ ")")
  = outer ++ "(" ++ content ++ ")".
Proof.
  intros Houter.
  change ("join" ++ "(" ++ body ++ ")")
    with ("j"%char :: "oin" ++ "(" ++ body ++ ")").
  change (outer ++ "(" ++ ("j"%char :: "oin" ++ "(" ++ body ++ ")") ++ ")")
    with (outer ++ "(" ++ ("j"%char :: "oin" ++ "(" ++ body ++ ")") ++ ")").
  assert (E : outer ++ "(" ++ "join" ++ "(" ++ body ++ ")" ++ ")"
              = (outer ++ "(")
                ++ ("j"%char :: "oin" ++ "(" ++ body ++ ")") ++ ")").
  { rewrite <- !app_assoc. cbn [app list_ascii_of_string].
    rewrite <- !app_assoc. reflexivity. }
  rewrite E, replace_pass
    by (destruct Houter as [-> | ->]; reflexivity).
  rewrite replace_prefix by discriminate.
  rewrite replace_absent_head by reflexivity.
  now rewrite <- app_assoc.
Qed.

Lemma base_class_plain (c : ascii) :
  base_class c = true ->
  is_space c = false /\ mem c "()" = false
  /\ mem c iupac_characters = true.
Proof.
  destruct c as [[] [] [] [] [] [] [] []]; try discriminate;
    intros _; repeat split; reflexivity.
Qed.

(** The argument of a hybrid function without its parentheses. *)
Lemma hybrid_argument (content : str) :
  content <> [] -> forallb base_class content = true ->
  strip_chars "()" (strip ("(" ++ content ++ ")")) = content.
Proof.
  intros Hne H.
  assert (Hs : strip ("(" ++ content ++ ")") = "(" ++ content ++ ")").
  { unfold strip. apply strip_by_clean.
    change ("(" ++ content ++ ")") with ("("%char :: content ++ [")"%char]).
    rewrite forallb_forall in *. intros x [<-|Hx]; [reflexivity|].
    apply in_app_or in Hx. destruct Hx as [Hx|[<-|[]]]; [|reflexivity].
    now destruct (base_class_plain x (H x Hx)) as [-> _]. }
  rewrite Hs. unfold strip_chars.
  change ("(" ++ content ++ ")") with ("("%char :: content ++ [")"%char]).
  apply strip_by_wrapped; try reflexivity; [assumption|].
  rewrite forallb_forall in *. intros x Hx.
  now destruct (base_class_plain x (H x Hx)) as [_ [-> _]].
Qed.

(** Where the bases are not all of [G], [A], [T], [C], [U], or where
    there is none, the second pattern finds nothing. *)
Lemma dropwhile_first (cls : ascii -> bool) (s t : str) :
  forallb cls s = false ->
  exists d rest, dropwhile cls (s ++ t) = d :: rest /\ In d s.
Proof.
  induction s as [|c s IH]; [discriminate|].
  cbn [forallb app dropwhile]. destruct (cls c) eqn:E; cbn [andb].
  - intros H. destruct (IH H) as [d [rest [Hd Hin]]].
    exists d, rest. split; [assumption|now right].
  - intros _. exists c, (s ++ t). split; [reflexivity|now left].
Qed.

Lemma match_call_other (kw content : str) :
  content = [] \/ forallb base_class content = false ->
  mem ")" content = false ->
  match_call base_class kw (kw ++ "(" ++ content ++ ")") = None.
Proof.
  intros Hc Hp. unfold match_call. rewrite prefix_app.
  assert (Hk : skipn (length kw) (kw ++ "(" ++ content ++ ")")
               = "("%char :: content ++ ")").
  { clear. induction kw as [|x kw IH]; [reflexivity|exact IH]. }
  rewrite Hk. cbv beta iota. rewrite Ascii.eqb_refl.
  destruct Hc as [-> | Hc]; [reflexivity|].
  destruct (dropwhile_first base_class content ")" Hc) as [d [rest [Hd Hin]]].
  rewrite Hd. destruct (takewhile base_class (content ++ ")")); [reflexivity|].
  destruct (Ascii.eqb d ")") eqn:E; [|reflexivity].
  apply Ascii.eqb_eq in E. subst d.
  assert (M : mem ")" content = true).
  { unfold mem. apply existsb_exists. exists ")"%char.
    split; [assumption|reflexivity]. }
  congruence.
Qed.

Lemma gb_func_finder_2_other (outer content : str) :
  outer = "complement" \/ outer = "order" ->
  content = [] \/ forallb base_class content = false ->
  iupac content ->
  gb_func_finder_2 (outer ++ "(" ++ content ++ ")") = [].
Proof.
  intros Houter Hc Hi. unfold gb_func_finder_2.
  assert (Hp : mem ")" content = false).
  { clear -Hi. unfold iupac in Hi.
    induction content as [|c s IH]; [reflexivity|].
    cbn [forallb] in Hi. apply andb_prop in Hi. destruct Hi as [Hc Hs].
    unfold mem. cbn [existsb]. fold (mem ")" s). rewrite (IH Hs).
    rewrite orb_false_r.
    destruct (Ascii.eqb ")" c) eqn:E; [|reflexivity].
    apply Ascii.eqb_eq in E. subst c. discriminate. }
  assert (Hrest : findall_go base_class 0 (content ++ ")") = []).
  { apply findall_go_no_paren. rewrite mem_app.
    rewrite (iupac_no_paren content Hi). reflexivity. }
  assert (H0 : match_at base_class gb_keywords (outer ++ "(" ++ content ++ ")")
               = None).
  { pose proof (match_call_other outer content Hc Hp) as Hm.
    destruct Houter as [-> | ->]; cbn [match_at gb_keywords strs map].
    - change (match_call base_class "join"
                ("complement" ++ "(" ++ content ++ ")")) with (@None (str * str)).
      rewrite Hm. reflexivity.
    - change (match_call base_class "join"
                ("order" ++ "(" ++ content ++ ")")) with (@None (str * str)).
      change (match_call base_class "complement"
                ("order" ++ "(" ++ content ++ ")")) with (@None (str * str)).
      rewrite Hm. reflexivity. }
  destruct Houter as [-> | ->].
  - change ("complement" ++ "(" ++ content ++ ")")
      with ("c"%char :: "omplement" ++ "(" ++ content ++ ")") in *.
    rewrite (findall_go_pass _ _ _ H0).
    change ("omplement" ++ "(" ++ content ++ ")")
      with ("o"%char :: "m"%char :: "p"%char :: "l"%char
            :: "e"%char :: "m"%char :: "e"%char :: "n"%char :: "t"%char
            :: "("%char :: content ++ ")").
    do 10 (rewrite findall_go_pass by reflexivity).
    exact Hrest.
  - change ("order" ++ "(" ++ content ++ ")")
      with ("o"%char :: "rder" ++ "(" ++ content ++ ")") in *.
    rewrite (findall_go_pass _ _ _ H0).
    change ("rder" ++ "(" ++ content ++ ")")
      with ("r"%char :: "d"%char :: "e"%char :: "r"%char
            :: "("%char :: content ++ ")").
    do 5 (rewrite findall_go_pass by reflexivity).
    exact Hrest.
Qed.

Variable parent : GenbankFile.
Variable outer : str.
Hypothesis Houter : outer = "complement" \/ outer = "order".
Variable p : str * str.
Variable l : list (str * str).
Hypothesis Hl : Forall numbers (p :: l).

Let body : str := ranges_text (p :: l).
Let call : str := outer ++ "(" ++ "join" ++ "(" ++ body ++ ")" ++ ")".
Let content : str := slices (Sequence parent) (p :: l).

Lemma nested_mem (x : ascii) :
  range_char x = false -> mem x "complementorderjoin()" = false ->
  mem x call = false.
Proof.
  intros Hx Hk. unfold call. rewrite !mem_app.
  rewrite (range_char_absent x body Hx (ranges_text_chars _ Hl)).
  simpl in Hk. repeat (apply orb_false_elim in Hk; destruct Hk as [? Hk]).
  destruct Houter as [-> | ->]; simpl;
    repeat match goal with E : Ascii.eqb _ _ = false |- _ =>
      rewrite E; clear E end;
    reflexivity.
Qed.

Lemma nested_not_numeric : isnumeric call = false.
Proof. unfold call. destruct Houter as [-> | ->]; reflexivity. Qed.

(** [materialise] after the first round: the second round and the check
    run on the outer operator around the bases of the [join]. *)
Lemma materialise_nested (self : GBFeature) :
  spanline self = call ->
  materialise parent self
  = (returnseq <-
       rfold (resolve_call hybrid_funcs)
             (gb_func_finder_2 (outer ++ "(" ++ content ++ ")"))
             (outer ++ "(" ++ content ++ ")") ;;
     _ <- check_iupac returnseq ;; Ok returnseq).
Proof.
  intros Hs. unfold materialise. rewrite Hs.
  change (list_ascii_of_string ":") with [":"%char].
  change (list_ascii_of_string "<") with ["<"%char].
  change (list_ascii_of_string ">") with [">"%char].
  change (list_ascii_of_string "^") with ["^"%char].
  rewrite contains_single, nested_mem by reflexivity.
  rewrite (replace_single_absent "<") by (now apply nested_mem).
  rewrite (replace_single_absent ">") by (now apply nested_mem).
  rewrite (replace_single_absent "^") by (now apply nested_mem).
  assert (Hr : forallb range_class body = true).
  { pose proof (ranges_text_chars _ Hl) as H.
    rewrite forallb_forall in *. intros x Hx.
    now destruct (range_char_plain x (H x Hx)) as [_ [_ ->]]. }
  assert (Hn : body <> []).
  { inversion Hl; subst. now apply ranges_text_nonempty. }
  change (gb_func_finder call)
    with (gb_func_finder
            (outer ++ "(" ++ "join" ++ "(" ++ body ++ ")" ++ ")")).
  rewrite (gb_func_finder_nested outer body Houter Hn Hr).
  cbn [rfold]. unfold resolve_call at 1. cbn [fst snd].
  change (gb_funcs parent "join") with (Ok (_gb_join parent)).
  cbn [rbind]. unfold body at 1. rewrite (gb_join_ranges parent p l Hl).
  cbn [rbind]. fold content. unfold call.
  rewrite (replace_inner_join outer body content Houter).
  reflexivity.
Qed.

End Nested.

(** X27.  A [complement] around a [join] of ranges whose bases are all
    of [G], [A], [T], [C], [U] evaluates in two rounds to what
    [nucutils.get_complement] makes of the joined bases, checked against
    the alphabet; what [get_complement] raises comes out as it is. *)
Theorem complement_of_join_takes_two_rounds
  (parent : GenbankFile) (self : GBFeature)
  (p : str * str) (l : list (str * str)) (cache : bool) :
  Forall numbers (p :: l) ->
  spanline self
  = "complement" ++ "(" ++ "join" ++ "(" ++ ranges_text (p :: l) ++ ")"
    ++ ")" ->
  _sequence self = [] ->
  cache_sequences parent = Some cache ->
  slices (Sequence parent) (p :: l) <> [] ->
  forallb base_class (slices (Sequence parent) (p :: l)) = true ->
  fst (sequence parent self)
  = (returnseq <- get_complement (slices (Sequence parent) (p :: l)) ;;
     _ <- check_iupac returnseq ;; Ok returnseq).
Proof.
  intros Hl Hs Hc Hp Hne Hb. unfold sequence.
  rewrite Hc, Hs.
  rewrite (nested_not_numeric "complement" (or_introl eq_refl) p l).
  rewrite <- Hs.
  rewrite (materialise_nested parent "complement" (or_introl eq_refl)
             p l Hl self Hs).
  unfold gb_func_finder_2.
  rewrite (findall_call base_class "complement" _ (or_introl eq_refl)
             Hne Hb eq_refl).
  cbn [rfold]. unfold resolve_call. cbn [fst snd].
  change (hybrid_funcs "complement") with (Ok _complement).
  cbn [rbind]. unfold _complement. rewrite (hybrid_argument _ Hne Hb).
  destruct (get_complement _) as [r|e]; cbn [rbind]; [|reflexivity].
  rewrite replace_whole by discriminate.
  destruct (check_iupac r) as [[]|e]; cbn [rbind]; [|reflexivity].
  rewrite Hp. now destruct cache.
Qed.

Lemma complement_of_join_takes_two_rounds_witness :
  Forall numbers [("1" : str, "3" : str); ("5" : str, "7" : str)]
  /\ slices (Sequence (record_of "sample.gb"))
       [("1" : str, "3" : str); ("5" : str, "7" : str)]
     = ("AAACGG" : str)
  /\ fst (sequence (record_of "sample.gb")
            (mkGBFeature "CDS" "complement(join(1..3,5..7))" None [] []))
     = Ok ("CCGTTT" : str).
Proof.
  assert (H : Forall numbers
                [("1" : str, "3" : str); ("5" : str, "7" : str)]).
  { repeat constructor; discriminate. }
  split; [exact H|]. split; [vm_compute; reflexivity|].
  pose proof (complement_of_join_takes_two_rounds (record_of "sample.gb")
                (mkGBFeature "CDS" "complement(join(1..3,5..7))" None [] [])
                ("1" : str, "3" : str) [("5" : str, "7" : str)] true H
                ltac:(vm_compute; reflexivity)
                ltac:(vm_compute; reflexivity)
                ltac:(vm_compute; reflexivity)
                ltac:(vm_compute; discriminate)
                ltac:(vm_compute; reflexivity)) as E.
  vm_compute in E. vm_compute. exact E.
Defined.

(** X28.  An [order] around a [join] of ranges whose bases are all of
    [G], [A], [T], [C], [U] is refused with [NotImplementedError]: in the
    second round [order] stands for [_order], which raises. *)
Theorem order_around_join_raises
  (parent : GenbankFile) (self : GBFeature)
  (p : str * str) (l : list (str * str)) :
  Forall numbers (p :: l) ->
  spanline self
  = "order" ++ "(" ++ "join" ++ "(" ++ ranges_text (p :: l) ++ ")" ++ ")" ->
  _sequence self = [] ->
  slices (Sequence parent) (p :: l) <> [] ->
  forallb base_class (slices (Sequence parent) (p :: l)) = true ->
  fst (sequence parent self) = Raise NotImplementedError.
Proof.
  intros Hl Hs Hc Hne Hb. unfold sequence.
  rewrite Hc, Hs.
  rewrite (nested_not_numeric "order" (or_intror eq_refl) p l).
  rewrite <- Hs.
  rewrite (materialise_nested parent "order" (or_intror eq_refl)
             p l Hl self Hs).
  unfold gb_func_finder_2.
  rewrite (findall_call base_class "order" _ (or_intror eq_refl)
             Hne Hb eq_refl).
  reflexivity.
Qed.

Lemma order_around_join_raises_witness :
  Forall numbers [("1" : str, "3" : str); ("5" : str, "7" : str)]
  /\ fst (sequence (record_of "sample.gb")
            (mkGBFeature "CDS" "order(join(1..3,5..7))" None [] []))
     = Raise NotImplementedError.
Proof.
  assert (H : Forall numbers
                [("1" : str, "3" : str); ("5" : str, "7" : str)]).
  { repeat constructor; discriminate. }
  split; [exact H|].
  apply (order_around_join_raises (record_of "sample.gb")
           (mkGBFeature "CDS" "order(join(1..3,5..7))" None [] [])
           ("1" : str, "3" : str) [("5" : str, "7" : str)] H);
    [reflexivity | reflexivity | vm_compute; discriminate
    | vm_compute; reflexivity].
Defined.

(** X29.  Around a [join] of ranges whose bases are codes of the
    alphabet but not all of [G], [A], [T], [C], [U] (an [N], a
    lower-case letter), or that yields no base at all, a [complement] or
    an [order] is never resolved: the second pattern does not match, the
    operator stays in the text and the check of the alphabet raises
    [ValueError]. *)
Theorem operator_around_other_codes_raises
  (parent : GenbankFile) (self : GBFeature) (outer : str)
  (p : str * str) (l : list (str * str)) :
  outer = "complement" \/ outer = "order" ->
  Forall numbers (p :: l) ->
  spanline self
  = outer ++ "(" ++ "join" ++ "(" ++ ranges_text (p :: l) ++ ")" ++ ")" ->
  _sequence self = [] ->
  iupac (slices (Sequence parent) (p :: l)) ->
  slices (Sequence parent) (p :: l) = []
  \/ forallb base_class (slices (Sequence parent) (p :: l)) = false ->
  fst (sequence parent self) = Raise ValueError.
Proof.
  intros Ho Hl Hs Hc Hi Hb. unfold sequence.
  rewrite Hc, Hs, (nested_not_numeric outer Ho p l), <- Hs.
  rewrite (materialise_nested parent outer Ho p l Hl self Hs).
  rewrite (gb_func_finder_2_other outer _ Ho Hb Hi).
  cbn [rfold rbind].
  rewrite (check_iupac_fails _ "("%char); [reflexivity| |reflexivity].
  apply in_or_app. right. left. reflexivity.
Qed.

Lemma operator_around_other_codes_raises_witness :
  Forall numbers [("1" : str, "3" : str); ("5" : str, "7" : str)]
  /\ slices "AANCCGGG" [("1" : str, "3" : str); ("5" : str, "7" : str)]
     = ("AANCGG" : str)
  /\ fst (sequence
            (mkGenbankFile "AANCCGGG" [] [] [] [] []
               (mkGBMetadata [] [] [] []) [] (Some true))
            (mkGBFeature "CDS" "complement(join(1..3,5..7))" None [] []))
     = Raise ValueError.
Proof.
  assert (H : Forall numbers
                [("1" : str, "3" : str); ("5" : str, "7" : str)]).
  { repeat constructor; discriminate. }
  split; [exact H|]. split; [vm_compute; reflexivity|].
  apply (operator_around_other_codes_raises
           (mkGenbankFile "AANCCGGG" [] [] [] [] []
               (mkGBMetadata [] [] [] []) [] (Some true))
           (mkGBFeature "CDS" "complement(join(1..3,5..7))" None [] [])
           "complement" ("1" : str, "3" : str) [("5" : str, "7" : str)]
           (or_introl eq_refl) H);
    [reflexivity | reflexivity | vm_compute; reflexivity
    | right; vm_compute; reflexivity].
Defined.

(** * The qualifiers of a block and the cache *)

(** ** A qualifier without [=] in a feature block *)

Section QualifierTexts.

(** What [store_meta] does with any qualifier text: one entry is set,
    nothing is printed. *)
Lemma store_meta_sets (self : GBFeature) (meta_block : str) :
  store_meta self meta_block
  = (mkGBFeature (type self) (spanline self) (fuzzyboundary self)
       (dict_set (meta_name_of meta_block) (meta_content_of meta_block)
          (meta self))
       (_sequence self), []).
Proof.
  unfold store_meta, store_meta_try, meta_name_of, meta_content_of,
    meta_name_of, trimmed, split.
  pose proof (split_go_nonempty "=" 0 [] meta_block) as N.
  destruct (split_go "=" 0 [] meta_block) as [|bit0 bits]; [congruence|].
  rewrite py_getitem_0. reflexivity.
Qed.

Lemma store_metas_app (l1 l2 : list str) (self : GBFeature) :
  fst (store_metas self (l1 ++ l2))
  = fst (store_metas (fst (store_metas self l1)) l2).
Proof.
  revert self. induction l1 as [|b l1 IH]; intros self; [reflexivity|].
  cbn [app store_metas]. rewrite store_meta_sets.
  specialize (IH (mkGBFeature (type self) (spanline self)
                    (fuzzyboundary self)
                    (dict_set (meta_name_of b) (meta_content_of b)
                       (meta self))
                    (_sequence self))).
  destruct (store_metas _ (l1 ++ l2)) as [s2 o2].
  destruct (store_metas _ l1) as [s1 o1].
  exact IH.
Qed.

(** A name that no later qualifier text bears answers as before. *)
Lemma store_metas_keeps (k : str) (l : list str) (self : GBFeature) :
  Forall (fun later => meta_name_of later <> k) l ->
  dict_get k (meta (fst (store_metas self l))) = dict_get k (meta self).
Proof.
  revert self. induction l as [|b l IH]; intros self H; [reflexivity|].
  inversion H as [|? ? Hb Hl]; subst.
  cbn [store_metas]. rewrite store_meta_sets.
  specialize (IH (mkGBFeature (type self) (spanline self)
                    (fuzzyboundary self)
                    (dict_set (meta_name_of b) (meta_content_of b)
                       (meta self))
                    (_sequence self)) Hl).
  destruct (store_metas _ l) as [s2 o2]. cbn [fst] in *.
  rewrite IH. cbn [meta]. apply dict_get_set_other. congruence.
Qed.

(** The last qualifier text that bears a name gives the name its value. *)
Lemma store_metas_last (l1 l2 : list str) (b : str) (self : GBFeature) :
  Forall (fun later => meta_name_of later <> meta_name_of b) l2 ->
  dict_get (meta_name_of b) (meta (fst (store_metas self (l1 ++ b :: l2))))
  = Ok (meta_content_of b).
Proof.
  intros H. rewrite store_metas_app. cbn [store_metas].
  rewrite store_meta_sets.
  set (self1 := fst (store_metas self l1)).
  pose proof (store_metas_keeps (meta_name_of b) l2
                (mkGBFeature (type self1) (spanline self1)
                   (fuzzyboundary self1)
                   (dict_set (meta_name_of b) (meta_content_of b)
                      (meta self1))
                   (_sequence self1)) H) as K.
  destruct (store_metas _ l2) as [s2 o2]. cbn [fst] in *.
  rewrite K. cbn [meta]. apply dict_get_set.
Qed.

Lemma meta_without_equals (meta_block : str) :
  mem "=" meta_block = false ->
  meta_name_of meta_block = trimmed meta_block
  /\ meta_content_of meta_block = [].
Proof.
  intros H. unfold meta_content_of, meta_name_of.
  change (list_ascii_of_string "=") with ["="%char].
  rewrite (split_single_absent "=" meta_block H).
  cbn [hd map skipn join]. split; [reflexivity|].
  destruct (str_eqb (trimmed meta_block) "translation"); reflexivity.
Qed.

End QualifierTexts.

(** C9, as amended.  For every feature block that [GBFeature.__init__]
    cuts into a location text and qualifier texts (the lines joined and
    split at the marks it puts in front of the lines that start with a
    slash), one of the qualifier texts holding no [=]: the construction
    does not abort and prints nothing; that qualifier is not skipped but
    stored under its trimmed text with the empty string as value, and
    stands so in the feature unless a later qualifier text bears the same
    name; and every qualifier text after it is still stored, each name
    with the value of the last text that bears it. *)
Theorem block_qualifier_without_equals_is_stored_empty
  (list_of_lines : list str) (ftype span_line meta_block : str)
  (before after : list str) :
  feature_pieces list_of_lines
  = Ok (ftype, span_line :: before ++ meta_block :: after) ->
  mem "=" meta_block = false ->
  exists f,
    GBFeature_init list_of_lines = Ok (f, [])
    /\ (Forall (fun later => meta_name_of later <> trimmed meta_block) after ->
        dict_get (trimmed meta_block) (meta f) = Ok [])
    /\ (forall after1 later after2,
          after = after1 ++ later :: after2 ->
          Forall (fun other => meta_name_of other <> meta_name_of later)
                 after2 ->
          dict_get (meta_name_of later) (meta f) = Ok (meta_content_of later)).
Proof.
  intros Hp Hm.
  destruct (meta_without_equals meta_block Hm) as [Hn Hc].
  set (self := set_span (mkGBFeature ftype [] None [] []) span_line).
  exists (fst (store_metas self (before ++ meta_block :: after))).
  split; [|split].
  - unfold GBFeature_init. rewrite Hp. cbn [rbind].
    rewrite py_getitem_0. cbn [rbind skipn]. fold self.
    destruct (store_metas_silent (before ++ meta_block :: after) self)
      as [Ho _].
    destruct (store_metas self _) as [f out]. cbn [fst snd] in *.
    now rewrite Ho.
  - intros Hl. rewrite <- Hn, <- Hc. apply store_metas_last.
    now rewrite Hn.
  - intros after1 later after2 Ea Hl. subst after.
    change (before ++ meta_block :: after1 ++ later :: after2)
      with (before ++ (meta_block :: after1) ++ later :: after2).
    rewrite app_assoc. now apply store_metas_last.
Qed.

Lemma block_qualifier_without_equals_is_stored_empty_witness :
  feature_pieces pseudo_block
  = Ok ("misc_feature" : str,
        ("4..5 " : str) :: [] ++ ("pseudo " : str) :: ["note=kept" : str])
  /\ exists f,
      GBFeature_init pseudo_block = Ok (f, [])
      /\ (Forall (fun later => meta_name_of later <> trimmed "pseudo ")
                 ["note=kept" : str] ->
          dict_get (trimmed "pseudo ") (meta f) = Ok [])
      /\ (forall after1 later after2,
            ["note=kept" : str] = after1 ++ later :: after2 ->
            Forall (fun other => meta_name_of other <> meta_name_of later)
                   after2 ->
            dict_get (meta_name_of later) (meta f)
            = Ok (meta_content_of later)).
Proof.
  split; [vm_compute; reflexivity|].
  apply (block_qualifier_without_equals_is_stored_empty pseudo_block
           "misc_feature" "4..5 " "pseudo " [] ["note=kept" : str]);
    vm_compute; reflexivity.
Defined.

(** ** The cache and a single position *)

Section SinglePosition.

Lemma firstn_one_skipn {A} (l : list A) (k : nat) (a : A) :
  nth_error l k = Some a -> firstn 1 (skipn k l) = [a].
Proof.
  revert l. induction k as [|k IH]; intros [|x l] H; try discriminate.
  - cbn in H. inversion H. reflexivity.
  - cbn [skipn]. now apply IH.
Qed.

(** [l[n-1:n]] is the item at [n-1]. *)
Lemma py_slice_one {A} (l : list A) (n : Z) (a : A) :
  1 <= n <= Z.of_nat (length l) ->
  nth_error l (Z.to_nat (n - 1)) = Some a ->
  py_slice l (n - 1) n = [a].
Proof.
  intros Hn Ha. rewrite py_slice_inside by lia.
  replace (Z.to_nat (n - (n - 1))) with 1%nat by lia.
  now apply firstn_one_skipn.
Qed.

(** A range that a record with the cache on evaluates is stored. *)
Lemma sequence_range_stored (parent : GenbankFile) (d1 d2 : str)
  (self : GBFeature) :
  number d1 -> number d2 ->
  spanline self = d1 ++ ".." ++ d2 ->
  _sequence self = [] ->
  cache_sequences parent = Some true ->
  let returnseq := py_slice (Sequence parent) (int_of d1 - 1) (int_of d2) in
  iupac returnseq ->
  sequence parent self
  = (Ok returnseq,
     mkGBFeature (type self) (spanline self) (fuzzyboundary self)
                 (meta self) returnseq).
Proof.
  intros H1 H2 Hs Hc Hp returnseq Hi. unfold sequence.
  rewrite Hc, Hs, (range_text_not_numeric d1 d2 H1), <- Hs.
  rewrite (materialise_range parent d1 d2 H1 H2 self Hs).
  cbv zeta. fold returnseq. rewrite (check_iupac_ok _ Hi).
  cbn [rbind]. rewrite Hp. reflexivity.
Qed.

(** Every other evaluation that returns on a record with the cache on
    stores what it returns. *)
Lemma returned_sequence_is_stored (parent : GenbankFile) (self : GBFeature)
  (returnseq : str) :
  _sequence self = [] ->
  isnumeric (spanline self) = false ->
  cache_sequences parent = Some true ->
  fst (sequence parent self) = Ok returnseq ->
  _sequence (snd (sequence parent self)) = returnseq.
Proof.
  intros Hc Hn Hp. unfold sequence. rewrite Hc, Hn.
  destruct (materialise parent self) as [r|e]; [|discriminate].
  rewrite Hp. cbn [fst snd _sequence]. congruence.
Qed.

End SinglePosition.

(** C8.  Where the code breaks the claim: on a record with the cache on,
    a feature whose location is a single position is evaluated and its
    base returned, but nothing is stored on the feature, [_sequence]
    stays empty and every later access evaluates again; the same base
    asked for as the range [d..d] is returned and stored. *)
Theorem single_position_is_not_cached
  (parent : GenbankFile) (self range_feature : GBFeature) (d : str) :
  number d ->
  spanline self = d ->
  _sequence self = [] ->
  spanline range_feature = d ++ ".." ++ d ->
  _sequence range_feature = [] ->
  cache_sequences parent = Some true ->
  1 <= int_of d <= Z.of_nat (length (Sequence parent)) ->
  exists c,
    fst (sequence parent self) = Ok [c]
    /\ _sequence (snd (sequence parent self)) = []
    /\ (mem c iupac_characters = true ->
        fst (sequence parent range_feature) = Ok [c]
        /\ _sequence (snd (sequence parent range_feature)) = [c]).
Proof.
  intros Hd Hs Hc Hrs Hrc Hp Hr.
  destruct (py_getitem_inside (Sequence parent) (int_of d - 1)) as [c [Hn Hg]];
    [lia|].
  exists c.
  assert (E : sequence parent self = (Ok [c], self)).
  { unfold sequence. rewrite Hc, Hs, (number_isnumeric d Hd).
    rewrite (py_int_number d Hd). cbn [rbind]. rewrite Hg. reflexivity. }
  rewrite E. cbn [fst snd]. split; [reflexivity|]. split; [exact Hc|].
  intros Hi.
  pose proof (py_slice_one (Sequence parent) (int_of d) c Hr Hn) as Es.
  assert (Hi' : iupac (py_slice (Sequence parent) (int_of d - 1) (int_of d))).
  { rewrite Es. unfold iupac. cbn [forallb]. now rewrite Hi. }
  rewrite (sequence_range_stored parent d d range_feature Hd Hd Hrs Hrc Hp Hi').
  cbn [fst snd _sequence]. rewrite Es. auto.
Qed.

Lemma single_position_is_not_cached_witness :
  GenbankFile_init (fun _ => Some position_text) None
    (Some ("position.gb" : str)) true
  = (Ok position_record, [])
  /\ Features position_record = [mkGBFeature "variation" "4" None [] []]
  /\ cache_sequences position_record = Some true
  /\ sequence position_record (mkGBFeature "variation" "4" None [] [])
     = (Ok ("C" : str), mkGBFeature "variation" "4" None [] [])
  /\ sequence position_record (mkGBFeature "variation" "4..4" None [] [])
     = (Ok ("C" : str), mkGBFeature "variation" "4..4" None [] "C")
  /\ exists c,
      fst (sequence position_record (mkGBFeature "variation" "4" None [] [])) = Ok [c]
      /\ _sequence (snd (sequence position_record (mkGBFeature "variation" "4" None [] []))) = []
      /\ (mem c iupac_characters = true ->
          fst (sequence position_record (mkGBFeature "variation" "4..4" None [] [])) = Ok [c]
          /\ _sequence (snd (sequence position_record (mkGBFeature "variation" "4..4" None [] []))) = [c]).
Proof.
  split; [vm_compute; reflexivity|].
  split; [vm_compute; reflexivity|].
  split; [vm_compute; reflexivity|].
  split; [vm_compute; reflexivity|].
  split; [vm_compute; reflexivity|].
  apply (single_position_is_not_cached position_record (mkGBFeature "variation" "4" None [] []) (mkGBFeature "variation" "4..4" None [] []) "4");
    [number_tac | reflexivity | reflexivity | reflexivity | reflexivity
    | vm_compute; reflexivity | vm_compute; split; discriminate].
Defined.
